(** * go-defaultz: defaulting Go structs from field tags

    A shallow embedding of the package [defaultz]: the tag extractor
    ([DefaultzExtractor.ExtractDefault]), the type-level cycle check
    ([detectPotentialCycles]), the bundled defaulters and the registry walk
    ([defaulterRegistry.ApplyDefaults] / [DoApplyDefaults]).

    Conventions of the embedding.
    - Go strings are [string]s of bytes, read as UTF-8 where Go does:
      [strings.TrimSpace] and [strings.Fields] drop the white space of
      Unicode, [strings.Split] on the empty separator cuts between runes.
    - [reflect.Type] is a first-order description [rtype]; struct types are
      referred to by an identifier and declared in a table, so that type
      definitions can refer to each other (and to themselves).
    - [reflect.Value] is a tree [Value]; a pointer owns what it points to.
      The kind of a field's value is the kind of the field's type, as it
      is for every field that [Value.Field] returns.
    - A defaulter is a function of the arguments of [HandleField]; the
      error it returns is a value of [errors.New] or an [*Error].
    - A panic of the Go code is an outcome of its own.
    - [strconv.Quote], [strconv.ParseFloat] and [time.ParseDuration] are
      left open, as the fields of a [library]. *)

From Stdlib Require Import ZArith Ascii String List Bool Lia Sorted.
From stdpp Require Import base option list gmap strings pretty.

#[local] Set Warnings "-register-all,-clear-no-such-hyp".

Local Open Scope string_scope.
Local Open Scope list_scope.

(** ** Package [unicode/utf8]: the decoding of a string into runes *)

Module utf8.

(** [RuneError], U+FFFD. *)
Definition RuneError : Z := 65533.

Definition byte (c : ascii) : Z := Z.of_nat (nat_of_ascii c).

(** The table [first] with [acceptRanges], for a first byte that is not
    ASCII: the size of the encoding and the range of the second byte;
    [None] for a byte that starts no encoding. *)
Definition first (s0 : Z) : option (nat * Z * Z) :=
  if ((0xC2 <=? s0) && (s0 <=? 0xDF))%Z then Some (2%nat, 0x80, 0xBF)%Z
  else if (s0 =? 0xE0)%Z then Some (3%nat, 0xA0, 0xBF)%Z
  else if ((0xE1 <=? s0) && (s0 <=? 0xEC))%Z then Some (3%nat, 0x80, 0xBF)%Z
  else if (s0 =? 0xED)%Z then Some (3%nat, 0x80, 0x9F)%Z
  else if ((0xEE <=? s0) && (s0 <=? 0xEF))%Z then Some (3%nat, 0x80, 0xBF)%Z
  else if (s0 =? 0xF0)%Z then Some (4%nat, 0x90, 0xBF)%Z
  else if ((0xF1 <=? s0) && (s0 <=? 0xF3))%Z then Some (4%nat, 0x80, 0xBF)%Z
  else if (s0 =? 0xF4)%Z then Some (4%nat, 0x80, 0x8F)%Z
  else None.

(** A continuation byte, [locb <= b <= hicb]. *)
Definition continues (b : Z) : bool := ((0x80 <=? b) && (b <=? 0xBF))%Z.

(** [DecodeRuneInString]: the first rune of [s] and its width in bytes;
    an encoding that is not valid is [RuneError] with the width 1. *)
Definition DecodeRuneInString (s : string) : Z * nat :=
  match s with
  | EmptyString => (RuneError, 0%nat)
  | String c0 rest0 =>
      let s0 := byte c0 in
      if (s0 <? 0x80)%Z then (s0, 1%nat)
      else
        match first s0 with
        | None => (RuneError, 1%nat)
        | Some (sz, lo, hi) =>
            if (String.length s <? sz)%nat then (RuneError, 1%nat)
            else
              match rest0 with
              | EmptyString => (RuneError, 1%nat)
              | String c1 rest1 =>
                  let s1 := byte c1 in
                  if ((s1 <? lo) || (hi <? s1))%Z then (RuneError, 1%nat)
                  else if (sz <=? 2)%nat
                  then (Z.lor (Z.shiftl (Z.land s0 0x1F) 6) (Z.land s1 0x3F),
                        2%nat)
                  else
                    match rest1 with
                    | EmptyString => (RuneError, 1%nat)
                    | String c2 rest2 =>
                        let s2 := byte c2 in
                        if negb (continues s2) then (RuneError, 1%nat)
                        else if (sz <=? 3)%nat
                        then (Z.lor (Z.lor (Z.shiftl (Z.land s0 0x0F) 12)
                                       (Z.shiftl (Z.land s1 0x3F) 6))
                                (Z.land s2 0x3F),
                              3%nat)
                        else
                          match rest2 with
                          | EmptyString => (RuneError, 1%nat)
                          | String c3 _ =>
                              let s3 := byte c3 in
                              if negb (continues s3) then (RuneError, 1%nat)
                              else (Z.lor (Z.lor (Z.lor
                                             (Z.shiftl (Z.land s0 0x07) 18)
                                             (Z.shiftl (Z.land s1 0x3F) 12))
                                       (Z.shiftl (Z.land s2 0x3F) 6))
                                      (Z.land s3 0x3F),
                                    4%nat)
                          end
                    end
              end
        end
  end.

End utf8.

(** ** Package [unicode] *)

Module unicode.

(** [IsSpace]: the white space of Latin-1, and the other runes of the
    property [White_Space]. *)
Definition IsSpace (r : Z) : bool :=
  if (r <=? 0xFF)%Z
  then existsb (Z.eqb r) [9; 10; 11; 12; 13; 32; 0x85; 0xA0]%Z
  else ((r =? 0x1680) || ((0x2000 <=? r) && (r <=? 0x200A))
        || (r =? 0x2028) || (r =? 0x2029) || (r =? 0x202F)
        || (r =? 0x205F) || (r =? 0x3000))%Z.

End unicode.

(** ** Package [strings] (the functions the package calls) *)

Module strings.

(** [for _, r := range s]: the runes of [s] in order, each with the bytes
    that encode it; [skip] counts the bytes of the rune before that are
    still to be passed over. *)
Fixpoint runesFrom (skip : nat) (s : string) : list (Z * string) :=
  match s with
  | EmptyString => []
  | String _ s' =>
      match skip with
      | S k => runesFrom k s'
      | O =>
          let (r, size) := utf8.DecodeRuneInString s in
          (r, String.substring 0 size s) :: runesFrom (size - 1) s'
      end
  end.

Definition runes (s : string) : list (Z * string) := runesFrom 0 s.

Definition bytes (rs : list (Z * string)) : string :=
  String.concat "" (List.map snd rs).

(** [TrimLeftFunc s unicode.IsSpace], on the runes. *)
Fixpoint TrimLeft (rs : list (Z * string)) : list (Z * string) :=
  match rs with
  | (r, b) :: rest => if unicode.IsSpace r then TrimLeft rest else rs
  | [] => []
  end.

(** [TrimRightFunc s unicode.IsSpace], on the runes: a rune is kept when
    one that is not white space follows it or it is not white space.  (Go
    decodes from the end, with [DecodeLastRuneInString]; the encodings of
    white space start with no continuation byte, so that the white space
    it finds at the end is the one at the end of the runes in order.) *)
Fixpoint TrimRight (rs : list (Z * string)) : list (Z * string) :=
  match rs with
  | (r, b) :: rest =>
      match TrimRight rest with
      | [] => if unicode.IsSpace r then [] else [(r, b)]
      | kept => (r, b) :: kept
      end
  | [] => []
  end.

(** [TrimSpace]: the string without its leading and trailing white space,
    "as defined by Unicode". *)
Definition TrimSpace (s : string) : string :=
  bytes (TrimRight (TrimLeft (runes s))).

Definition HasPrefix (s pre : string) : bool := String.prefix pre s.

Fixpoint drop (n : nat) (s : string) : string :=
  match n, s with
  | S k, String _ s' => drop k s'
  | _, _ => s
  end.

Definition TrimPrefix (s pre : string) : string :=
  if HasPrefix s pre then drop (String.length pre) s else s.

(** [explode]: the split on the empty separator, one piece per rune, a
    byte that is no valid encoding being a piece of its own. *)
Definition explode (s : string) : list string := List.map snd (runes s).

(** [splitOn sep skip s]: the pieces of [s] between the leftmost,
    non-overlapping occurrences of the non-empty [sep]; [skip] counts the
    bytes of an occurrence still to be passed over. *)
Fixpoint splitOn (sep : string) (skip : nat) (s : string) : list string :=
  match s with
  | EmptyString => [EmptyString]
  | String c s' =>
      match skip with
      | S k => splitOn sep k s'
      | O =>
          if String.prefix sep s
          then EmptyString :: splitOn sep (String.length sep - 1) s'
          else match splitOn sep 0 s' with
               | h :: t => String c h :: t
               | [] => [String c EmptyString]
               end
      end
  end.

Definition Split (s sep : string) : list string :=
  match sep with
  | EmptyString => explode s
  | _ => splitOn sep 0 s
  end.

(** [Fields], that is [FieldsFunc s unicode.IsSpace]: the maximal runs of
    runes that are not white space. *)
Fixpoint fieldsFrom (cur : option string) (rs : list (Z * string)) : list string :=
  match rs with
  | [] => match cur with Some w => [w] | None => [] end
  | (r, b) :: rest =>
      if unicode.IsSpace r
      then match cur with
           | Some w => w :: fieldsFrom None rest
           | None => fieldsFrom None rest
           end
      else fieldsFrom (Some (match cur with
                             | Some w => String.append w b
                             | None => b
                             end)) rest
  end.

Definition Fields (s : string) : list string := fieldsFrom None (runes s).

End strings.

(** ** Package [reflect]: kinds, types, struct fields *)

Module reflect.

(** [reflect.Kind], in the order of its constants. *)
Inductive Kind : Set :=
| Invalid | Bool
| Int | Int8 | Int16 | Int32 | Int64
| Uint | Uint8 | Uint16 | Uint32 | Uint64 | Uintptr
| Float32 | Float64 | Complex64 | Complex128
| Array | Chan | Func | Interface | Map | Ptr | Slice
| String | Struct | UnsafePointer.

Definition Kind_code (k : Kind) : nat :=
  match k with
  | Invalid => 0 | Bool => 1
  | Int => 2 | Int8 => 3 | Int16 => 4 | Int32 => 5 | Int64 => 6
  | Uint => 7 | Uint8 => 8 | Uint16 => 9 | Uint32 => 10 | Uint64 => 11
  | Uintptr => 12
  | Float32 => 13 | Float64 => 14 | Complex64 => 15 | Complex128 => 16
  | Array => 17 | Chan => 18 | Func => 19 | Interface => 20 | Map => 21
  | Ptr => 22 | Slice => 23 | String => 24 | Struct => 25
  | UnsafePointer => 26
  end.

Definition Kind_all : list Kind :=
  [Invalid; Bool; Int; Int8; Int16; Int32; Int64;
   Uint; Uint8; Uint16; Uint32; Uint64; Uintptr;
   Float32; Float64; Complex64; Complex128;
   Array; Chan; Func; Interface; Map; Ptr; Slice;
   String; Struct; UnsafePointer].

Definition Kind_of_code (n : nat) : option Kind := Kind_all !! n.

(** A type.  The kinds without a type argument are [Basic]; a struct type
    is named by the identifier under which the table of declarations
    holds its fields (an anonymous struct type has an identifier too: two
    occurrences of the same [reflect.Type] carry the same one). *)
Inductive basic : Set :=
| t_bool
| t_int | t_int8 | t_int16 | t_int32 | t_int64
| t_uint | t_uint8 | t_uint16 | t_uint32 | t_uint64 | t_uintptr
| t_float32 | t_float64 | t_complex64 | t_complex128
| t_chan | t_func | t_interface | t_string | t_unsafe_pointer.

Inductive rtype : Set :=
| Basic (b : basic)
| SliceOf (e : rtype)
| ArrayOf (n : nat) (e : rtype)
| MapOf (k e : rtype)
| PointerTo (e : rtype)
| StructOf (id : string).

Definition basic_kind (b : basic) : Kind :=
  match b with
  | t_bool => Bool
  | t_int => Int | t_int8 => Int8 | t_int16 => Int16
  | t_int32 => Int32 | t_int64 => Int64
  | t_uint => Uint | t_uint8 => Uint8 | t_uint16 => Uint16
  | t_uint32 => Uint32 | t_uint64 => Uint64 | t_uintptr => Uintptr
  | t_float32 => Float32 | t_float64 => Float64
  | t_complex64 => Complex64 | t_complex128 => Complex128
  | t_chan => Chan | t_func => Func | t_interface => Interface
  | t_string => String | t_unsafe_pointer => UnsafePointer
  end.

(** [Type.Kind()] *)
Definition kind (t : rtype) : Kind :=
  match t with
  | Basic b => basic_kind b
  | SliceOf _ => Slice
  | ArrayOf _ _ => Array
  | MapOf _ _ => Map
  | PointerTo _ => Ptr
  | StructOf _ => Struct
  end.

(** [Type.Elem()], defined on arrays, maps, pointers and slices (it
    panics on the other kinds; the package calls it on pointers, slices
    and maps only). *)
Definition Elem (t : rtype) : option rtype :=
  match t with
  | SliceOf e | ArrayOf _ e | MapOf _ e | PointerTo e => Some e
  | _ => None
  end.

(** [reflect.StructTag], as the key-value pairs that [Lookup] reads. *)
Definition StructTag : Set := list (string * string).

Fixpoint Lookup (tag : StructTag) (key : string) : option string :=
  match tag with
  | [] => None
  | (k, v) :: rest => if String.eqb k key then Some v else Lookup rest key
  end.

(** [reflect.StructField]; [PkgPath] is empty for an exported field. *)
Record StructField : Set := {
  Name : string;
  PkgPath : string;
  Typ : rtype;
  Tag : StructTag;
  Anonymous : bool
}.

Definition IsExported (f : StructField) : bool := String.eqb (PkgPath f) "".

(** The declaration of a struct type: [Type.Name()], [Type.PkgPath()]
    and the fields in declared order. *)
Record StructDecl : Set := {
  TypeName : string;
  TypePkgPath : string;
  Fields : list StructField
}.

End reflect.

Global Instance Kind_eq_dec : EqDecision reflect.Kind.
Proof. solve_decision. Defined.

Global Instance basic_eq_dec : EqDecision reflect.basic.
Proof. solve_decision. Defined.

Global Instance rtype_eq_dec : EqDecision reflect.rtype.
Proof. solve_decision. Defined.

(** Types are the keys of the map of [detectPotentialCycles] and kinds the
    keys of the registry: both are countable. *)
Global Instance Kind_countable : Countable reflect.Kind.
Proof.
  refine (inj_countable' reflect.Kind_code
            (fun n => default reflect.Invalid (reflect.Kind_of_code n)) _).
  intros []; reflexivity.
Defined.

Definition kind_basic (k : reflect.Kind) : reflect.basic :=
  default reflect.t_bool
    (List.find (fun b => bool_decide (reflect.basic_kind b = k))
       [reflect.t_bool; reflect.t_int; reflect.t_int8; reflect.t_int16;
        reflect.t_int32; reflect.t_int64; reflect.t_uint; reflect.t_uint8;
        reflect.t_uint16; reflect.t_uint32; reflect.t_uint64;
        reflect.t_uintptr; reflect.t_float32; reflect.t_float64;
        reflect.t_complex64; reflect.t_complex128; reflect.t_chan;
        reflect.t_func; reflect.t_interface; reflect.t_string;
        reflect.t_unsafe_pointer]).

Global Instance basic_countable : Countable reflect.basic.
Proof.
  refine (inj_countable' reflect.basic_kind kind_basic _).
  intros []; reflexivity.
Defined.

Fixpoint rtype_tree (t : reflect.rtype) : gen_tree (reflect.basic + nat + string) :=
  match t with
  | reflect.Basic b => GenLeaf (inl (inl b))
  | reflect.SliceOf e => GenNode 0 [rtype_tree e]
  | reflect.ArrayOf n e => GenNode 1 [GenLeaf (inl (inr n)); rtype_tree e]
  | reflect.MapOf k e => GenNode 2 [rtype_tree k; rtype_tree e]
  | reflect.PointerTo e => GenNode 3 [rtype_tree e]
  | reflect.StructOf id => GenLeaf (inr id)
  end.

Fixpoint tree_rtype (g : gen_tree (reflect.basic + nat + string)) : reflect.rtype :=
  match g with
  | GenLeaf (inl (inl b)) => reflect.Basic b
  | GenLeaf (inr id) => reflect.StructOf id
  | GenNode 0 [e] => reflect.SliceOf (tree_rtype e)
  | GenNode 1 [GenLeaf (inl (inr n)); e] => reflect.ArrayOf n (tree_rtype e)
  | GenNode 2 [k; e] => reflect.MapOf (tree_rtype k) (tree_rtype e)
  | GenNode 3 [e] => reflect.PointerTo (tree_rtype e)
  | _ => reflect.Basic reflect.t_bool
  end.

Global Instance rtype_countable : Countable reflect.rtype.
Proof.
  refine (inj_countable' rtype_tree tree_rtype _).
  induction x; simpl; congruence.
Defined.

(** The declarations of the program's struct types. *)
Abbreviation decls := (gmap string reflect.StructDecl).

(** [Type.NumField()] and [Type.Field(i)] of a struct type, as the list of
    its fields; a type that is not declared has none. *)
Definition fields_of (env : decls) (id : string) : list reflect.StructField :=
  match env !! id with
  | Some d => reflect.Fields d
  | None => []
  end.

(** ** defaultextractor.go *)

(** The interface [DefaultExtractor]: its one method. *)
Record DefaultExtractor : Type := {
  ExtractDefault : reflect.StructField -> string * bool * option string
}.

Record DefaultzExtractor : Set := {
  TagName : string;
  Prefix : string;
  Separator : string
}.

(** The loop over [tagParts]: the first part that, once trimmed, starts
    with the prefix is returned without it. *)
Fixpoint firstPrefixed (prefix : string) (tagParts : list string) : string * bool :=
  match tagParts with
  | [] => ("", false)
  | tagPart :: rest =>
      let tagPart := strings.TrimSpace tagPart in
      if strings.HasPrefix tagPart prefix
      then (strings.TrimPrefix tagPart prefix, true)
      else firstPrefixed prefix rest
  end.

Definition DefaultzExtractor_ExtractDefault (d : DefaultzExtractor)
    (field : reflect.StructField) : string * bool * option string :=
  match reflect.Lookup (reflect.Tag field) (TagName d) with
  | None => ("", false, None)
  | Some tag =>
      if String.eqb tag "" then ("", false, None)
      else (firstPrefixed (Prefix d) (strings.Split tag (Separator d)), None)
  end.

Definition NewDefaultzExtractor (tagName prefix separator : string) : DefaultExtractor :=
  {| ExtractDefault :=
       DefaultzExtractor_ExtractDefault
         {| TagName := tagName; Prefix := prefix; Separator := separator |} |}.

(** What the specification says of the extractor: split, trim every token,
    take the first token that carries the prefix. *)
Definition extract_by_words (d : DefaultzExtractor) (tag : string) : string * bool :=
  match List.find (fun tok => strings.HasPrefix tok (Prefix d))
          (List.map strings.TrimSpace (strings.Split tag (Separator d))) with
  | Some tok => (strings.TrimPrefix tok (Prefix d), true)
  | None => ("", false)
  end.

(** ** cycle detection *)

Definition deref (t : reflect.rtype) : reflect.rtype :=
  match t with
  | reflect.PointerTo e => e
  | _ => t
  end.

(** The loop [for i := range t.NumField()] of [detectPotentialCycles],
    over the recursive call [rec]; the map [seen] is threaded through. *)
Fixpoint detectFields
    (rec : reflect.rtype -> gset reflect.rtype -> option (bool * gset reflect.rtype))
    (fs : list reflect.StructField) (seen : gset reflect.rtype)
    : option (bool * gset reflect.rtype) :=
  match fs with
  | [] => Some (false, seen)
  | f :: fs' =>
      match rec (reflect.Typ f) seen with
      | None => None
      | Some (true, seen') => Some (true, seen')
      | Some (false, seen') => detectFields rec fs' seen'
      end
  end.

(** [detectPotentialCycles t seen]: the answer and the map as the call
    leaves it.  [fuel] bounds the depth of the recursion; [None] is a
    recursion deeper than that. *)
Fixpoint detectPotentialCycles (env : decls) (fuel : nat)
    (t : reflect.rtype) (seen : gset reflect.rtype)
    : option (bool * gset reflect.rtype) :=
  match fuel with
  | O => None
  | S fuel' =>
      let t := deref t in
      if decide (t ∈ seen) then Some (true, seen)
      else
        match t with
        | reflect.StructOf id =>
            match detectFields (detectPotentialCycles env fuel')
                    (fields_of env id) ({[t]} ∪ seen) with
            | Some (b, seen') => Some (b, seen' ∖ {[t]})
            | None => None
            end
        | _ => Some (false, seen)
        end
  end.

(** The struct types of the table, as types. *)
Definition declared (env : decls) : gset reflect.rtype :=
  set_map reflect.StructOf (dom env).

(** The call of [ApplyDefaults]: a fresh map, and a depth that no descent
    through distinct declared struct types exceeds. *)
Definition typeHasCycles (env : decls) (t : reflect.rtype) : bool :=
  match detectPotentialCycles env (S (size (declared env))) t ∅ with
  | Some (b, _) => b
  | None => true
  end.

(** The graph the detector walks: from a struct type to the type of one of
    its fields, one pointer removed. *)
Definition field_edge (env : decls) (t u : reflect.rtype) : Prop :=
  ∃ id f, t = reflect.StructOf id ∧ f ∈ fields_of env id
          ∧ u = deref (reflect.Typ f).

(** A type recurs along one descent from [t]. *)
Definition recurs_on_path (env : decls) (t : reflect.rtype) : Prop :=
  ∃ s, rtc (field_edge env) (deref t) s ∧ tc (field_edge env) s s.

(** What a positive answer means when the map is [seen]: the descent
    from [t] meets a marked type or a type that recurs. *)
Definition meets_on (env : decls) (seen : gset reflect.rtype) (t : reflect.rtype) : Prop :=
  ∃ s, rtc (field_edge env) (deref t) s ∧ (s ∈ seen ∨ tc (field_edge env) s s).

(** The declared struct types that are not marked. *)
Definition room_of (env : decls) (seen : gset reflect.rtype) : nat :=
  size (declared env ∖ seen).

(** ** Package [strconv] (the functions the package calls) *)

Module strconv.

Inductive NumError : Set := ErrSyntax | ErrRange.

Definition digit (c : ascii) : option Z :=
  let n := nat_of_ascii c in
  if ((48 <=? n)%nat && (n <=? 57)%nat)%bool
  then Some (Z.of_nat (n - 48)) else None.

(** The scan of [ParseUint] in base 10: a byte that is no digit is a
    syntax error, a value beyond [maxVal] a range error, whichever the
    scan meets first. *)
Fixpoint scan (maxVal : Z) (n : Z) (s : string) : Z + NumError :=
  match s with
  | EmptyString => inl n
  | String c s' =>
      match digit c with
      | None => inr ErrSyntax
      | Some d =>
          let n1 := (n * 10 + d)%Z in
          if (maxVal <? n1)%Z then inr ErrRange else scan maxVal n1 s'
      end
  end.

(** [IntSize] of the platform. *)
Definition IntSize : Z := 64.

Definition bits (bitSize : Z) : Z :=
  if (bitSize =? 0)%Z then IntSize else bitSize.

(** [ParseUint s 10 bitSize] *)
Definition ParseUint (s : string) (bitSize : Z) : Z + NumError :=
  match s with
  | EmptyString => inr ErrSyntax
  | _ => scan (2 ^ bits bitSize - 1) 0 s
  end.

(** [ParseInt s 10 bitSize] *)
Definition ParseInt (s : string) (bitSize : Z) : Z + NumError :=
  match s with
  | EmptyString => inr ErrSyntax
  | String c s' =>
      let neg := Ascii.eqb c "-" in
      let s1 := if (Ascii.eqb c "+" || neg)%bool then s' else s in
      let cutoff := (2 ^ (bits bitSize - 1))%Z in
      match ParseUint s1 bitSize with
      | inr ErrSyntax => inr ErrSyntax
      | inr ErrRange => inr ErrRange
      | inl un =>
          if (negb neg && (cutoff <=? un)%Z)%bool then inr ErrRange
          else if (neg && (cutoff <? un)%Z)%bool then inr ErrRange
          else inl (if neg then (- un)%Z else un)
      end
  end.

(** [ParseBool] *)
Definition ParseBool (s : string) : bool + NumError :=
  if existsb (String.eqb s) ["1"; "t"; "T"; "TRUE"; "true"; "True"]
  then inl true
  else if existsb (String.eqb s) ["0"; "f"; "F"; "FALSE"; "false"; "False"]
  then inl false
  else inr ErrSyntax.

Definition NumError_text (e : NumError) : string :=
  match e with
  | ErrSyntax => "invalid syntax"
  | ErrRange => "value out of range"
  end.

End strconv.

(** What the package takes from the Go library and the embedding leaves
    open: the quoting of a string in a message, the parsing of floating
    point numbers (to the bits of the IEEE value, a [float64]) and of
    durations (to nanoseconds, or the text of the error), the rounding of
    a float to 32 bits (to the [float32] nearest to it, held as a
    [float64] like every float of the embedding). *)
Record library : Type := {
  Quote : string -> string;
  ParseFloat : string -> Z -> Z + strconv.NumError;
  Float32bits : Z -> Z;
  ParseDuration : string -> Z + string
}.

(** The method [Error] of a [strconv.NumError]. *)
Definition NumError_Error (lib : library) (fn num : string) (e : strconv.NumError) : string :=
  String.concat ""
    ["strconv."; fn; ": parsing "; Quote lib num; ": "; strconv.NumError_text e].

(** ** Values *)

(** What a [reflect.Value] holds.  An integer is its value, a float the
    bits of [Value.Float()], a [float64] in the IEEE representation, also
    for a [float32]; a nil slice, map or pointer is [None].
    [VOpaque] stands for the kinds the package only tests with [IsZero]
    (complex numbers, channels, functions, interfaces, unsafe pointers). *)
Inductive Value : Set :=
| VBool (b : bool)
| VInt (n : Z)
| VUint (n : Z)
| VFloat (bits : Z)
| VString (s : string)
| VSlice (items : option (list Value))
| VMap (entries : option (list (Value * Value)))
| VArray (items : list Value)
| VPtr (target : option Value)
| VStruct (fieldValues : list Value)
| VOpaque (zero : bool).

(** The floats that equal 0: the zero and the negative zero. *)
Definition floatIsZero (bits : Z) : bool :=
  ((bits =? 0) || (bits =? 0x8000000000000000))%Z.

(** The floats that are no numbers: the exponent is all ones and the
    fraction is not zero. *)
Definition floatIsNaN (bits : Z) : bool :=
  (0x7FF0000000000000 <? Z.land bits 0x7FFFFFFFFFFFFFFF)%Z.

(** [==] on floats. *)
Definition floatEqb (a b : Z) : bool :=
  negb (floatIsNaN a) && negb (floatIsNaN b)
  && ((a =? b)%Z || (floatIsZero a && floatIsZero b)).

(** [Value.IsZero()]; a float is zero when [v.Float() == 0], which the
    negative zero is too. *)
Fixpoint IsZero (v : Value) : bool :=
  match v with
  | VBool b => negb b
  | VInt n | VUint n => (n =? 0)%Z
  | VFloat bits => floatIsZero bits
  | VString s => String.eqb s ""
  | VSlice None | VMap None | VPtr None => true
  | VSlice (Some _) | VMap (Some _) | VPtr (Some _) => false
  | VArray l | VStruct l => forallb IsZero l
  | VOpaque z => z
  end.

(** The equality of map keys; the keys the package makes are booleans,
    numbers and strings. *)
Definition keyEqb (x y : Value) : bool :=
  match x, y with
  | VBool a, VBool b => Bool.eqb a b
  | VInt a, VInt b | VUint a, VUint b => (a =? b)%Z
  | VFloat a, VFloat b => floatEqb a b
  | VString a, VString b => String.eqb a b
  | _, _ => false
  end.

(** ** errors.go *)

Inductive sentinel : Set :=
| ErrCannotSetField
| ErrCannotExtractDefault
| ErrInvalidDefaultValue
| ErrInvalidDefaultValueItem
| ErrInvalidDefaultValueKey
| ErrNotSupported.

(** The struct [Error]; the defaulter is kept by its [Name()], all that
    [Error()] reads of it. *)
Record Error : Set := {
  Defaulter_Name : option string;
  Err : sentinel;
  FieldPath : string;
  Field : reflect.StructField;
  Msg : string
}.

Definition NewError (defaulter : option string) (err : sentinel)
    (fieldPath : string) (field : reflect.StructField) (msg : string) : Error :=
  {| Defaulter_Name := defaulter; Err := err; FieldPath := fieldPath;
     Field := field; Msg := msg |}.

(** The path that [Error()] prints: [FieldPath], a dot, the field's name. *)
Definition Error_path (e : Error) : string :=
  String.append (FieldPath e) (String.append "." (reflect.Name (Field e))).

(** A Go [error] that a defaulter or the registry makes: a value of
    [errors.New] or an [*Error].  ([HandleField] documents its error as a
    [*defaultz.Error].) *)
Inductive error : Set :=
| errorString (s : string)
| defaultzError (e : Error).

(** What [ApplyDefaults] returns: [nil], one of the errors above, or the
    errors of a chain of defaulters wrapped by [fmt.Errorf]: the only one
    ("failed to apply default value : %w" of [result.Errors[0]]) or the
    aggregate ("failed to apply default value: %w" of [result]).  A panic
    is an outcome of its own. *)
Inductive outcome : Set :=
| Nil
| Fails (e : error)
| FailsWrapped (e : error)
| FailsAggregate (es : list error)
| Panics.

(** ** defaultz.go: defaulters and the registry *)

(** What a call of [HandleField] does: it returns [callNext], [set] and
    [err] and leaves the field holding [fieldValue], or it panics. *)
Inductive handled : Set :=
| Returns (callNext set : bool) (err : option error) (fieldValue : Value)
| Panicked (fieldValue : Value).

(** The interface [Defaulter]. *)
Record Defaulter : Type := {
  Name : string;
  HandledKinds : list reflect.Kind;
  HandleField : string -> string -> reflect.StructField -> Value -> handled
}.

Record DefaulterWithPriority : Type := {
  defaulter : Defaulter;
  Priority : Z
}.

Record defaulterRegistry : Type := {
  extractor : option DefaultExtractor;
  defaulters : gmap reflect.Kind (list DefaulterWithPriority);
  ignoreCannotSet : bool
}.

Definition PriorityPrimitiveDefaulter : Z := 1000.
Definition PriorityOtherDefaulter : Z := 2000.

(** [sortDefaulters]: [sort.SliceStable] by priority, as the insertion of
    each element before the first one that is not smaller. *)
Fixpoint insertByPriority (x : DefaulterWithPriority)
    (l : list DefaulterWithPriority) : list DefaulterWithPriority :=
  match l with
  | [] => [x]
  | y :: l' =>
      if (Priority y <? Priority x)%Z then y :: insertByPriority x l'
      else x :: l
  end.

Definition sortDefaulters (dwps : list DefaulterWithPriority) : list DefaulterWithPriority :=
  foldr insertByPriority [] dwps.

(** [Register]: for every handled kind, append and sort. *)
Definition Register (priority : Z) (d : Defaulter) (r : defaulterRegistry) : defaulterRegistry :=
  {| extractor := extractor r;
     defaulters :=
       foldl (fun m kind =>
                <[kind := sortDefaulters
                            (default [] (m !! kind)
                               ++ [{| defaulter := d; Priority := priority |}])]> m)
             (defaulters r) (HandledKinds d);
     ignoreCannotSet := ignoreCannotSet r |}.

Definition DefaulterRegistryOption : Type := defaulterRegistry -> defaulterRegistry.

Definition NewDefaulterRegistry (options : list DefaulterRegistryOption) : defaulterRegistry :=
  let dr := foldl (fun r option => option r)
              {| extractor := None; defaulters := ∅; ignoreCannotSet := false |}
              options in
  {| extractor := extractor dr;
     defaulters := sortDefaulters <$> defaulters dr;
     ignoreCannotSet := ignoreCannotSet dr |}.

Definition WithDefaultExtractor (e : DefaultExtractor) : DefaulterRegistryOption :=
  fun r => {| extractor := Some e; defaulters := defaulters r;
              ignoreCannotSet := ignoreCannotSet r |}.

Definition WithIgnoreCannotSet (ignore : bool) : DefaulterRegistryOption :=
  fun r => {| extractor := extractor r; defaulters := defaulters r;
              ignoreCannotSet := ignore |}.

(** ** defaulters.go: the bundled defaulters *)

(** [Type.String()]; a struct type is identified by it. *)
Definition basic_String (b : reflect.basic) : string :=
  match b with
  | reflect.t_bool => "bool"
  | reflect.t_int => "int" | reflect.t_int8 => "int8"
  | reflect.t_int16 => "int16" | reflect.t_int32 => "int32"
  | reflect.t_int64 => "int64"
  | reflect.t_uint => "uint" | reflect.t_uint8 => "uint8"
  | reflect.t_uint16 => "uint16" | reflect.t_uint32 => "uint32"
  | reflect.t_uint64 => "uint64" | reflect.t_uintptr => "uintptr"
  | reflect.t_float32 => "float32" | reflect.t_float64 => "float64"
  | reflect.t_complex64 => "complex64" | reflect.t_complex128 => "complex128"
  | reflect.t_chan => "chan" | reflect.t_func => "func"
  | reflect.t_interface => "interface {}" | reflect.t_string => "string"
  | reflect.t_unsafe_pointer => "unsafe.Pointer"
  end.

Fixpoint rtype_String (t : reflect.rtype) : string :=
  match t with
  | reflect.Basic b => basic_String b
  | reflect.SliceOf e => String.append "[]" (rtype_String e)
  | reflect.ArrayOf n e =>
      String.concat "" ["["; pretty n; "]"; rtype_String e]
  | reflect.MapOf k e =>
      String.concat "" ["map["; rtype_String k; "]"; rtype_String e]
  | reflect.PointerTo e => String.append "*" (rtype_String e)
  | reflect.StructOf id => id
  end.

(** The kind of the field, one pointer removed: the [kind] that
    [DoApplyDefaults] and the numeric defaulters compute. *)
Definition pointeeKind (t : reflect.rtype) : reflect.Kind :=
  match t with
  | reflect.PointerTo e => reflect.kind e
  | _ => reflect.kind t
  end.

(** The end of the bundled defaulters, "handle pointer cases": a pointer
    field is allocated if nil and its target set, another field is set. *)
Definition setThroughPointer (field : reflect.StructField) (v : Value) : Value :=
  match reflect.kind (reflect.Typ field) with
  | reflect.Ptr => VPtr (Some v)
  | _ => v
  end.

(** The width of an integer kind. *)
Definition kindBits (k : reflect.Kind) : Z :=
  match k with
  | reflect.Int8 | reflect.Uint8 => 8
  | reflect.Int16 | reflect.Uint16 => 16
  | reflect.Int32 | reflect.Uint32 => 32
  | _ => 64
  end.

(** The conversion of an [int64] to a signed type of [w] bits. *)
Definition wrapSigned (w n : Z) : Z :=
  ((n + 2 ^ (w - 1)) mod 2 ^ w - 2 ^ (w - 1))%Z.

Section Bundled.

Variable lib : library.

Definition StringDefaulter : Defaulter :=
  {| Name := "defaultz.StringDefaulter";
     HandledKinds := [reflect.String];
     HandleField := fun value _ field _ =>
       Returns true true None (setThroughPointer field (VString value)) |}.

Definition BoolDefaulter : Defaulter :=
  {| Name := "defaultz.BoolDefaulter";
     HandledKinds := [reflect.Bool];
     HandleField := fun value path field fieldValue =>
       if String.eqb value "true"
       then Returns true true None (setThroughPointer field (VBool true))
       else if String.eqb value "false"
       then Returns true true None (setThroughPointer field (VBool false))
       else Returns true false
              (Some (defaultzError
                 (NewError (Some "defaultz.BoolDefaulter")
                    ErrInvalidDefaultValue path field
                    "invalid boolean value (not 'true' nor 'false')")))
              fieldValue |}.

Definition IntDefaulter : Defaulter :=
  {| Name := "defaultz.IntDefaulter";
     HandledKinds := [reflect.Int; reflect.Int8; reflect.Int16;
                      reflect.Int32; reflect.Int64];
     HandleField := fun value path field fieldValue =>
       let kind := pointeeKind (reflect.Typ field) in
       match (match kind with
              | reflect.Int => Some 0%Z
              | reflect.Int8 => Some 8%Z
              | reflect.Int16 => Some 16%Z
              | reflect.Int32 => Some 32%Z
              | reflect.Int64 => Some 64%Z
              | _ => None
              end) with
       | None => Panicked fieldValue
       | Some bitSize =>
           match strconv.ParseInt value bitSize with
           | inr e =>
               Returns true false
                 (Some (defaultzError
                    (NewError (Some "defaultz.IntDefaulter")
                       ErrInvalidDefaultValue path field
                       (NumError_Error lib "ParseInt" value e))))
                 fieldValue
           | inl intValue =>
               Returns true true None (setThroughPointer field (VInt intValue))
           end
       end |}.

Definition UintDefaulter : Defaulter :=
  {| Name := "defaultz.UintDefaulter";
     HandledKinds := [reflect.Uint; reflect.Uint8; reflect.Uint16;
                      reflect.Uint32; reflect.Uint64];
     HandleField := fun value path field fieldValue =>
       let kind := pointeeKind (reflect.Typ field) in
       match (match kind with
              | reflect.Uint => Some 0%Z
              | reflect.Uint8 => Some 8%Z
              | reflect.Uint16 => Some 16%Z
              | reflect.Uint32 => Some 32%Z
              | reflect.Uint64 => Some 64%Z
              | _ => None
              end) with
       | None => Panicked fieldValue
       | Some bitSize =>
           match strconv.ParseUint value bitSize with
           | inr e =>
               Returns true false
                 (Some (defaultzError
                    (NewError (Some "defaultz.UintDefaulter")
                       ErrInvalidDefaultValue path field
                       (NumError_Error lib "ParseUint" value e))))
                 fieldValue
           | inl uintValue =>
               Returns true true None (setThroughPointer field (VUint uintValue))
           end
       end |}.

Definition FloatDefaulter : Defaulter :=
  {| Name := "defaultz.FloatDefaulter";
     HandledKinds := [reflect.Float32; reflect.Float64];
     HandleField := fun value path field fieldValue =>
       let kind := pointeeKind (reflect.Typ field) in
       match (match kind with
              | reflect.Float32 => Some 32%Z
              | reflect.Float64 => Some 64%Z
              | _ => None
              end) with
       | None => Panicked fieldValue
       | Some bitSize =>
           match ParseFloat lib value bitSize with
           | inr e =>
               Returns true false
                 (Some (defaultzError
                    (NewError (Some "defaultz.FloatDefaulter")
                       ErrInvalidDefaultValue path field
                       (NumError_Error lib "ParseFloat" value e))))
                 fieldValue
           | inl floatValue =>
               Returns true true None
                 (setThroughPointer field
                    (VFloat (if (bitSize =? 32)%Z
                             then Float32bits lib floatValue else floatValue)))
           end
       end |}.

(** [convertValue]: the value, or the text of the error. *)
Definition convertValue (value : string) (fieldType : reflect.rtype) : Value + string :=
  match reflect.kind fieldType with
  | reflect.Bool =>
      match strconv.ParseBool value with
      | inl b => inl (VBool b)
      | inr e => inr (NumError_Error lib "ParseBool" value e)
      end
  | reflect.Int | reflect.Int8 | reflect.Int16 | reflect.Int32 | reflect.Int64 =>
      match strconv.ParseInt value 64 with
      | inl i => inl (VInt (wrapSigned (kindBits (reflect.kind fieldType)) i))
      | inr e => inr (NumError_Error lib "ParseInt" value e)
      end
  | reflect.Uint | reflect.Uint8 | reflect.Uint16 | reflect.Uint32 | reflect.Uint64 =>
      match strconv.ParseUint value 64 with
      | inl u => inl (VUint (u mod 2 ^ kindBits (reflect.kind fieldType)))
      | inr e => inr (NumError_Error lib "ParseUint" value e)
      end
  | reflect.Float32 =>
      match ParseFloat lib value 64 with
      | inl f => inl (VFloat (Float32bits lib f))
      | inr e => inr (NumError_Error lib "ParseFloat" value e)
      end
  | reflect.Float64 =>
      match ParseFloat lib value 64 with
      | inl f => inl (VFloat f)
      | inr e => inr (NumError_Error lib "ParseFloat" value e)
      end
  | reflect.String => inl (VString value)
  | _ => inr (String.append "unsupported type: " (rtype_String fieldType))
  end.

(** The loop of [SliceDefaulter.HandleField] over [parts]. *)
Fixpoint convertItems (parts : list string) (elemType : reflect.rtype)
    : list Value + string :=
  match parts with
  | [] => inl []
  | part :: rest =>
      match convertValue part elemType with
      | inr msg => inr msg
      | inl v =>
          match convertItems rest elemType with
          | inr msg => inr msg
          | inl vs => inl (v :: vs)
          end
      end
  end.

Definition SliceDefaulter : Defaulter :=
  {| Name := "defaultz.SliceDefaulter";
     HandledKinds := [reflect.Slice];
     HandleField := fun value path field fieldValue =>
       let parts := strings.Fields value in
       match reflect.Typ field with
       | reflect.SliceOf elemType =>
           match convertItems parts elemType with
           | inr msg =>
               Returns true false
                 (Some (defaultzError
                    (NewError (Some "defaultz.SliceDefaulter")
                       ErrInvalidDefaultValueItem path field msg)))
                 fieldValue
           | inl slice => Returns true true None (VSlice (Some slice))
           end
       | _ => Panicked fieldValue
       end |}.

(** [strings.SplitN pair ":" 2], when it has two parts. *)
Fixpoint cutAtColon (pair : string) : option (string * string) :=
  match pair with
  | EmptyString => None
  | String c rest =>
      if Ascii.eqb c ":" then Some (EmptyString, rest)
      else match cutAtColon rest with
           | Some (k, v) => Some (String c k, v)
           | None => None
           end
  end.

(** [Value.SetMapIndex] on the entries in insertion order; the entry of an
    equal key gets the element and the key as given (the negative zero
    takes the place of the zero). *)
Fixpoint SetMapIndex (entries : list (Value * Value)) (key elem : Value)
    : list (Value * Value) :=
  match entries with
  | [] => [(key, elem)]
  | (k, e) :: rest =>
      if keyEqb k key then (key, elem) :: rest
      else (k, e) :: SetMapIndex rest key elem
  end.

(** The loop of [MapDefaulter.HandleField] over [pairs]; a failure is the
    sentinel and the text of the error. *)
Fixpoint convertPairs (pairs : list string) (keyType valueType : reflect.rtype)
    (mapInstance : list (Value * Value)) : list (Value * Value) + sentinel * string :=
  match pairs with
  | [] => inl mapInstance
  | p :: rest =>
      match cutAtColon p with
      | None => convertPairs rest keyType valueType mapInstance
      | Some (k, v) =>
          match convertValue k keyType with
          | inr msg => inr (ErrInvalidDefaultValueKey, msg)
          | inl key =>
              match convertValue v valueType with
              | inr msg => inr (ErrInvalidDefaultValueItem, msg)
              | inl elem =>
                  convertPairs rest keyType valueType
                    (SetMapIndex mapInstance key elem)
              end
          end
      end
  end.

Definition MapDefaulter : Defaulter :=
  {| Name := "defaultz.MapDefaulter";
     HandledKinds := [reflect.Map];
     HandleField := fun value path field fieldValue =>
       match reflect.Typ field with
       | reflect.MapOf keyType valueType =>
           match convertPairs (strings.Fields value) keyType valueType [] with
           | inr (err, msg) =>
               Returns true false
                 (Some (defaultzError
                    (NewError (Some "defaultz.MapDefaulter") err path field msg)))
                 fieldValue
           | inl mapInstance => Returns true true None (VMap (Some mapInstance))
           end
       | _ => Panicked fieldValue
       end |}.

Definition DurationDefaulter : Defaulter :=
  {| Name := "defaultz.DurationDefaulter";
     HandledKinds := [reflect.Int64];
     HandleField := fun value path field fieldValue =>
       match ParseDuration lib value with
       | inr msg =>
           Returns true false
             (Some (defaultzError
                (NewError (Some "defaultz.DurationDefaulter")
                   ErrInvalidDefaultValue path field
                   (String.append "invalid duration value: " msg))))
             fieldValue
       | inl duration =>
           Returns true true None (setThroughPointer field (VInt duration))
       end |}.

Definition WithBasicDefaulters : DefaulterRegistryOption :=
  fun r =>
    Register PriorityOtherDefaulter DurationDefaulter
      (Register PriorityPrimitiveDefaulter StringDefaulter
      (Register PriorityPrimitiveDefaulter MapDefaulter
      (Register PriorityPrimitiveDefaulter SliceDefaulter
      (Register PriorityPrimitiveDefaulter FloatDefaulter
      (Register PriorityPrimitiveDefaulter UintDefaulter
      (Register PriorityPrimitiveDefaulter IntDefaulter
      (Register PriorityPrimitiveDefaulter BoolDefaulter r))))))).

(** [extractorInstance] and [instance], the registry of the package
    level [ApplyDefaults]. *)
Definition extractorInstance : DefaultExtractor :=
  NewDefaultzExtractor "default" "" ",".

Definition instance : defaulterRegistry :=
  NewDefaulterRegistry
    [WithBasicDefaulters; WithDefaultExtractor extractorInstance].

End Bundled.

(** ** defaultz.go: the walk *)

(** [Kind.String()] *)
Definition Kind_String (k : reflect.Kind) : string :=
  match k with
  | reflect.Invalid => "invalid" | reflect.Bool => "bool"
  | reflect.Int => "int" | reflect.Int8 => "int8" | reflect.Int16 => "int16"
  | reflect.Int32 => "int32" | reflect.Int64 => "int64"
  | reflect.Uint => "uint" | reflect.Uint8 => "uint8"
  | reflect.Uint16 => "uint16" | reflect.Uint32 => "uint32"
  | reflect.Uint64 => "uint64" | reflect.Uintptr => "uintptr"
  | reflect.Float32 => "float32" | reflect.Float64 => "float64"
  | reflect.Complex64 => "complex64" | reflect.Complex128 => "complex128"
  | reflect.Array => "array" | reflect.Chan => "chan" | reflect.Func => "func"
  | reflect.Interface => "interface" | reflect.Map => "map"
  | reflect.Ptr => "ptr" | reflect.Slice => "slice"
  | reflect.String => "string" | reflect.Struct => "struct"
  | reflect.UnsafePointer => "unsafe.Pointer"
  end.

Definition basic_Zero (b : reflect.basic) : Value :=
  match b with
  | reflect.t_bool => VBool false
  | reflect.t_int | reflect.t_int8 | reflect.t_int16
  | reflect.t_int32 | reflect.t_int64 => VInt 0
  | reflect.t_uint | reflect.t_uint8 | reflect.t_uint16
  | reflect.t_uint32 | reflect.t_uint64 | reflect.t_uintptr => VUint 0
  | reflect.t_float32 | reflect.t_float64 => VFloat 0
  | reflect.t_string => VString ""
  | _ => VOpaque true
  end.

(** [reflect.Zero]: the zero value of a type.  [fuel] bounds the nesting of
    struct types by value. *)
Fixpoint Zero (env : decls) (fuel : nat) : reflect.rtype -> option Value :=
  fix go (t : reflect.rtype) : option Value :=
    match t with
    | reflect.Basic b => Some (basic_Zero b)
    | reflect.SliceOf _ => Some (VSlice None)
    | reflect.MapOf _ _ => Some (VMap None)
    | reflect.PointerTo _ => Some (VPtr None)
    | reflect.ArrayOf n e =>
        match go e with
        | Some z => Some (VArray (replicate n z))
        | None => None
        end
    | reflect.StructOf id =>
        match fuel with
        | O => None
        | S fuel' =>
            match mapM (fun f => Zero env fuel' (reflect.Typ f)) (fields_of env id) with
            | Some zs => Some (VStruct zs)
            | None => None
            end
        end
    end.

Definition addFieldToPath (path : string) (field : reflect.StructField) : string :=
  String.append path (String.append "." (reflect.Name field)).

(** The state in which the loop over the defaulters of a kind ends. *)
Inductive chainEnd : Set :=
| ChainDone (result : list error) (somethingSet : bool) (fieldValue : Value)
| ChainPanicked (fieldValue : Value).

(** The loop [for _, defaulterWithPriority := range defaulters]; [result]
    is the list of the errors appended so far ([nil] when empty). *)
Fixpoint runChain (ds : list DefaulterWithPriority) (defaultStr path : string)
    (field : reflect.StructField) (fieldValue : Value)
    (result : list error) (somethingSet : bool) : chainEnd :=
  match ds with
  | [] => ChainDone result somethingSet fieldValue
  | defaulterWithPriority :: rest =>
      match HandleField (defaulter defaulterWithPriority)
              defaultStr path field fieldValue with
      | Panicked fieldValue' => ChainPanicked fieldValue'
      | Returns callNext set err fieldValue' =>
          let result := match err with
                        | Some e => result ++ [e]
                        | None => result
                        end in
          let somethingSet := if set then true else somethingSet in
          if callNext
          then runChain rest defaultStr path field fieldValue' result somethingSet
          else ChainDone result somethingSet fieldValue'
      end
  end.

(** "if there's nothing set and there are errors, return an error" *)
Definition chainOutcome (result : list error) (somethingSet : bool) : outcome :=
  if negb somethingSet
  then match result with
       | [] => Nil
       | [e] => FailsWrapped e
       | _ => FailsAggregate result
       end
  else Nil.

(** The part of the loop body that follows the tests for nested structs:
    a field that is not a struct nor a pointer to one.  [canSet] is
    [fieldValue.CanSet()]. *)
Definition applyLeaf (r : defaulterRegistry) (extract : DefaultExtractor)
    (canSet : bool) (path : string) (field : reflect.StructField)
    (fieldValue : Value) : outcome * Value :=
  if negb (IsZero fieldValue) then (Nil, fieldValue)
  else
    match ExtractDefault extract field with
    | (_, _, Some err) =>
        (Fails (defaultzError
                  (NewError None ErrCannotExtractDefault path field err)),
         fieldValue)
    | (_, false, None) => (Nil, fieldValue)
    | (defaultStr, true, None) =>
        match reflect.Typ field with
        | reflect.PointerTo (reflect.PointerTo _) =>
            (Fails (defaultzError
                      (NewError None ErrNotSupported path field
                         "pointer to pointer is not allowed")),
             fieldValue)
        | _ =>
            let kind := pointeeKind (reflect.Typ field) in
            match defaulters r !! kind with
            | Some ds =>
                if negb canSet
                then if ignoreCannotSet r then (Nil, fieldValue)
                     else (Fails (defaultzError
                                    (NewError None ErrCannotSetField path field
                                       "cannot set field")),
                           fieldValue)
                else
                  match runChain ds defaultStr path field fieldValue [] false with
                  | ChainPanicked fieldValue' => (Panics, fieldValue')
                  | ChainDone result somethingSet fieldValue' =>
                      (chainOutcome result somethingSet, fieldValue')
                  end
            | None =>
                (Fails (defaultzError
                          (NewError None ErrNotSupported path field
                             (String.concat ""
                                ["no defaulters found for kind '";
                                 Kind_String kind; "'"]))),
                 fieldValue)
            end
        end
    end.

(** The body of the loop over the fields.  [rec] is the recursive call of
    [DoApplyDefaults] and [zero] the zero value of a type; [ro] tells that
    the struct was reached through an unexported field that is not
    embedded ([flagStickyRO]), which makes its fields read-only; an
    unexported field is read-only itself. *)
Definition applyField (r : defaulterRegistry) (extract : DefaultExtractor)
    (rec : bool -> reflect.rtype -> Value -> string -> option (outcome * Value))
    (zero : reflect.rtype -> option Value)
    (ro : bool) (path : string) (field : reflect.StructField)
    (fieldValue : Value) : option (outcome * Value) :=
  let canSet := negb (ro || negb (reflect.IsExported field)) in
  let ro' := ro || (negb (reflect.IsExported field) && negb (reflect.Anonymous field)) in
  match reflect.Typ field with
  | reflect.StructOf _ =>
      rec ro' (reflect.Typ field) fieldValue (addFieldToPath path field)
  | reflect.PointerTo (reflect.StructOf id) =>
      match fieldValue with
      | VPtr None =>
          if canSet
          then match zero (reflect.StructOf id) with
               | Some z =>
                   match rec ro' (reflect.StructOf id) z (addFieldToPath path field) with
                   | Some (o, v') => Some (o, VPtr (Some v'))
                   | None => None
                   end
               | None => None
               end
          else Some (Panics, fieldValue)
      | VPtr (Some target) =>
          match rec ro' (reflect.StructOf id) target (addFieldToPath path field) with
          | Some (o, v') => Some (o, VPtr (Some v'))
          | None => None
          end
      | _ => Some (Panics, fieldValue)
      end
  | _ => Some (applyLeaf r extract canSet path field fieldValue)
  end.

(** The loop [for i := range value.NumField()]: the first outcome that is
    not [nil] ends it; the fields set before keep their values. *)
Fixpoint applyFields (step : reflect.StructField -> Value -> option (outcome * Value))
    (fs : list reflect.StructField) (vs : list Value)
    : option (outcome * list Value) :=
  match fs, vs with
  | f :: fs', v :: vs' =>
      match step f v with
      | None => None
      | Some (Nil, v') =>
          match applyFields step fs' vs' with
          | Some (o, vs'') => Some (o, v' :: vs'')
          | None => None
          end
      | Some (o, v') => Some (o, v' :: vs')
      end
  | _, _ => Some (Nil, vs)
  end.

(** [DoApplyDefaults value path], for a value of type [t] that holds [v]:
    the outcome and what the value holds afterwards.  [fuel] bounds the
    nesting of the calls; [None] is a nesting deeper than that, or a zero
    value that does not exist (a struct type that contains itself by
    value, which is no Go type). *)
Fixpoint DoApplyDefaults (r : defaulterRegistry) (env : decls) (fuel : nat)
    (ro : bool) (t : reflect.rtype) (v : Value) (path : string)
    : option (outcome * Value) :=
  match fuel with
  | O => None
  | S fuel' =>
      match extractor r with
      | None => Some (Fails (errorString "default extractor is not set"), v)
      | Some extract =>
          if decide (size (defaulters r) = 0%nat)
          then Some (Fails (errorString "no defaulters are registered"), v)
          else
            let walk id vs :=
              applyFields
                (applyField r extract (DoApplyDefaults r env fuel')
                   (Zero env (S (size (declared env)))) ro path)
                (fields_of env id) vs in
            match t, v with
            | reflect.PointerTo (reflect.StructOf id), VPtr (Some (VStruct vs)) =>
                match walk id vs with
                | Some (o, vs') => Some (o, VPtr (Some (VStruct vs')))
                | None => None
                end
            | reflect.StructOf id, VStruct vs =>
                match walk id vs with
                | Some (o, vs') => Some (o, VStruct vs')
                | None => None
                end
            | _, _ => Some (Nil, v)
            end
      end
  end.

(** The root path: "<root>" for an anonymous type. *)
Definition rootPath (env : decls) (id : string) : string :=
  match env !! id with
  | Some d =>
      if String.eqb (reflect.TypeName d) "" then "<root>"
      else String.concat "" [reflect.TypePkgPath d; ".("; reflect.TypeName d; ")"]
  | None => "<root>"
  end.

(** [ApplyDefaults obj], for an [obj] of type [t] that holds [v].  After
    the cycle check the calls nest no deeper than the number of declared
    struct types ([ApplyDefaults_total]); the last case is for tables that
    declare no Go types. *)
Definition ApplyDefaults (r : defaulterRegistry) (env : decls)
    (t : reflect.rtype) (v : Value) : outcome * Value :=
  match t, v with
  | reflect.PointerTo (reflect.StructOf id), VPtr (Some target) =>
      if typeHasCycles env (reflect.StructOf id)
      then (Fails (errorString "type definition must not have cycles"), v)
      else
        match DoApplyDefaults r env (S (size (declared env))) false
                (reflect.StructOf id) target (rootPath env id) with
        | Some (o, target') => (o, VPtr (Some target'))
        | None => (Panics, v)
        end
  | _, _ => (Fails (errorString "object must be a pointer to a struct"), v)
  end.

(** ** Records used as examples *)

(** An exported field that is not embedded. *)
Definition exported (name : string) (t : reflect.rtype) (tag : reflect.StructTag)
    : reflect.StructField :=
  {| reflect.Name := name; reflect.PkgPath := ""; reflect.Typ := t;
     reflect.Tag := tag; reflect.Anonymous := false |}.

Definition named (pkg name : string) (fs : list reflect.StructField) : reflect.StructDecl :=
  {| reflect.TypeName := name; reflect.TypePkgPath := pkg; reflect.Fields := fs |}.

(** cycles_test.go: [directSelfCycle], and [cyclicParent] with [cyclicChild]. *)
Definition env_directSelfCycle : decls :=
  {[ "defaultz.directSelfCycle" :=
       named "defaultz" "directSelfCycle"
         [exported "Self" (reflect.PointerTo (reflect.StructOf "defaultz.directSelfCycle")) []] ]}.

Definition env_cyclicParent : decls :=
  <[ "defaultz.cyclicParent" :=
       named "defaultz" "cyclicParent"
         [exported "Child" (reflect.StructOf "defaultz.cyclicChild") []] ]>
  {[ "defaultz.cyclicChild" :=
       named "defaultz" "cyclicChild"
         [exported "Parent" (reflect.PointerTo (reflect.StructOf "defaultz.cyclicParent")) []] ]}.

(** Two sibling fields, and a third through a pointer, of one nested
    struct type. *)
Definition env_siblings : decls :=
  <[ "main.Pair" :=
       named "main" "Pair"
         [exported "Left" (reflect.StructOf "main.Leaf") [];
          exported "Right" (reflect.StructOf "main.Leaf") [];
          exported "Spare" (reflect.PointerTo (reflect.StructOf "main.Leaf")) []] ]>
  {[ "main.Leaf" :=
       named "main" "Leaf"
         [exported "N" (reflect.Basic reflect.t_int) [("default", "7")]] ]}.

(** A library for the examples: no float and no duration parses. *)
Definition lib_none : library :=
  {| Quote := fun s => s;
     ParseFloat := fun _ _ => inr strconv.ErrSyntax;
     Float32bits := fun bits => bits;
     ParseDuration := fun _ => inr "time: invalid duration" |}.

(** defaultz_test.go: [cyclicParent1] and [cyclicChild1]. *)
Definition env_cyclicParent1 : decls :=
  <[ "defaultz_test.cyclicParent1" :=
       named "github.com/aliok/go-defaultz_test" "cyclicParent1"
         [exported "Field1" (reflect.Basic reflect.t_bool) [("default", "true")];
          exported "Child" (reflect.StructOf "defaultz_test.cyclicChild1") []] ]>
  {[ "defaultz_test.cyclicChild1" :=
       named "github.com/aliok/go-defaultz_test" "cyclicChild1"
         [exported "Field2" (reflect.Basic reflect.t_int) [("default", "123")];
          exported "Parent"
            (reflect.PointerTo (reflect.StructOf "defaultz_test.cyclicParent1")) []] ]}.

(** ** The chain of defaulters, as the specification tells it *)

(** The calls of [HandleField] that take place for a field: the defaulters
    in order, each on the field as the one before left it, up to the first
    that does not return [callNext] (or panics), or to the end. *)
Fixpoint chainCalls (ds : list DefaulterWithPriority) (defaultStr path : string)
    (field : reflect.StructField) (fieldValue : Value) : list handled :=
  match ds with
  | [] => []
  | d :: rest =>
      let h := HandleField (defaulter d) defaultStr path field fieldValue in
      h :: match h with
           | Returns true _ _ fieldValue' =>
               chainCalls rest defaultStr path field fieldValue'
           | _ => []
           end
  end.

Definition reportedError (h : handled) : option error :=
  match h with
  | Returns _ _ err _ => err
  | Panicked _ => None
  end.

Definition reportedSet (h : handled) : bool :=
  match h with
  | Returns _ set _ _ => set
  | Panicked _ => false
  end.

Definition askedToStop (h : handled) : bool :=
  match h with
  | Returns callNext _ _ _ => negb callNext
  | Panicked _ => false
  end.

Definition hasPanicked (h : handled) : bool :=
  match h with
  | Returns _ _ _ _ => false
  | Panicked _ => true
  end.

(** The errors collected from the calls, in order. *)
Definition collected (calls : list handled) : list error := omap reportedError calls.

Definition anySet (calls : list handled) : bool := existsb reportedSet calls.

(** A library in which the duration "1s" parses, for the examples. *)
Definition lib_seconds : library :=
  {| Quote := fun s => s;
     ParseFloat := fun _ _ => inr strconv.ErrSyntax;
     Float32bits := fun bits => bits;
     ParseDuration := fun s =>
       if String.eqb s "1s" then inl 1000000000%Z
       else inr "time: invalid duration" |}.

(** defaultz_test.go, "No pointer to pointer": a field of type [**int]. *)
Definition env_pointerToPointer : decls :=
  {[ "struct { Field **int }" :=
       named "" ""
         [exported "Field"
            (reflect.PointerTo (reflect.PointerTo (reflect.Basic reflect.t_int)))
            [("default", "3")]] ]}.

(** A record with a boolean field, a slice of integers with a default, one
    with an empty tag and one with a blank tag. *)
Definition env_flags : decls :=
  {[ "main.Flags" :=
       named "main" "Flags"
         [exported "On" (reflect.Basic reflect.t_bool) [("default", "true")];
          exported "Ports" (reflect.SliceOf (reflect.Basic reflect.t_int))
            [("default", "1 2 3")];
          exported "None" (reflect.SliceOf (reflect.Basic reflect.t_int))
            [("default", "")];
          exported "Blank" (reflect.SliceOf (reflect.Basic reflect.t_int))
            [("default", " ")]] ]}.

Definition env_badBool : decls :=
  {[ "main.Bad" :=
       named "main" "Bad"
         [exported "On" (reflect.Basic reflect.t_bool) [("default", "yes")]] ]}.

(** ** What the walk may write *)

(** The fields the walk descends into: structs and pointers to structs. *)
Definition isNested (t : reflect.rtype) : bool :=
  match t with
  | reflect.StructOf _ | reflect.PointerTo (reflect.StructOf _) => true
  | _ => false
  end.

(** [both p xs ys]: the lists have one length and [p] holds of the
    elements at each index. *)
Fixpoint both {A B : Type} (p : A -> B -> bool) (xs : list A) (ys : list B)
    {struct ys} : bool :=
  match xs, ys with
  | [], [] => true
  | x :: xs', y :: ys' => p x y && both p xs' ys'
  | _, _ => false
  end.

(** Every field of the record holds a value that is not zero, at every
    level: a field that is a struct has such fields, a pointer to a struct
    is not nil and the struct has such fields, any other field is not
    zero. *)
Fixpoint allSet (env : decls) (t : reflect.rtype) (v : Value) {struct v} : bool :=
  match t with
  | reflect.StructOf id =>
      match v with
      | VStruct vs =>
          both (fun f x => allSet env (reflect.Typ f) x) (fields_of env id) vs
      | _ => false
      end
  | reflect.PointerTo (reflect.StructOf id) =>
      match v with
      | VPtr (Some (VStruct vs)) =>
          both (fun f x => allSet env (reflect.Typ f) x) (fields_of env id) vs
      | _ => false
      end
  | _ => negb (IsZero v)
  end.

(** [untouched env t v v']: from [v] to [v'], of type [t], only fields
    that held the zero value were written, at every level.  A field that is
    neither a struct nor a pointer to one is the same unless it was zero; a
    struct is related field by field; a pointer to a struct that was not
    nil still points to its struct, related in turn; a nil one may have
    been allocated. *)
Inductive untouched (env : decls) : reflect.rtype -> Value -> Value -> Prop :=
| untouched_same t v : untouched env t v v
| untouched_zero t v v' :
    isNested t = false -> IsZero v = true -> untouched env t v v'
| untouched_struct id vs vs' :
    untouchedFields env (fields_of env id) vs vs' ->
    untouched env (reflect.StructOf id) (VStruct vs) (VStruct vs')
| untouched_pointer id x x' :
    untouched env (reflect.StructOf id) x x' ->
    untouched env (reflect.PointerTo (reflect.StructOf id))
      (VPtr (Some x)) (VPtr (Some x'))
| untouched_allocated id x' :
    untouched env (reflect.PointerTo (reflect.StructOf id))
      (VPtr None) (VPtr (Some x'))
with untouchedFields (env : decls)
  : list reflect.StructField -> list Value -> list Value -> Prop :=
| untouchedFields_same fs vs : untouchedFields env fs vs vs
| untouchedFields_cons f fs v v' vs vs' :
    untouched env (reflect.Typ f) v v' ->
    untouchedFields env fs vs vs' ->
    untouchedFields env (f :: fs) (v :: vs) (v' :: vs').

(** defaultz_test.go, "Should not overwrite existing values - nested
    struct". *)
Definition env_nested : decls :=
  <[ "struct { Field1 string; Nested struct {...} }" :=
       named "" ""
         [exported "Field1" (reflect.Basic reflect.t_string) [("default", "foo")];
          exported "Nested" (reflect.StructOf "struct { Field2 string; Field3 string }") []] ]>
  {[ "struct { Field2 string; Field3 string }" :=
       named "" ""
         [exported "Field2" (reflect.Basic reflect.t_string) [("default", "bar")];
          exported "Field3" (reflect.Basic reflect.t_string) [("default", "tmp")]] ]}.

(** ** Values of a type, defaulters that keep to their contract *)

(** Two values are of one basic sort. *)
Definition sameSort (z v : Value) : bool :=
  match z, v with
  | VBool _, VBool _ | VInt _, VInt _ | VUint _, VUint _
  | VFloat _, VFloat _ | VString _, VString _ | VOpaque _, VOpaque _ => true
  | _, _ => false
  end.

(** [fits env t v]: [v] has the form of a value of type [t]: the sort of a
    basic type, the length and the elements of an array, the target of a
    pointer, the fields of a struct (the elements of slices and maps are
    not looked at: the walk never reads them). *)
Fixpoint fits (env : decls) (t : reflect.rtype) (v : Value) {struct v} : bool :=
  match t with
  | reflect.Basic b => sameSort (basic_Zero b) v
  | reflect.SliceOf _ => match v with VSlice _ => true | _ => false end
  | reflect.MapOf _ _ => match v with VMap _ => true | _ => false end
  | reflect.ArrayOf n e =>
      match v with
      | VArray l => (length l =? n)%nat && forallb (fits env e) l
      | _ => false
      end
  | reflect.PointerTo e =>
      match v with
      | VPtr None => true
      | VPtr (Some x) => fits env e x
      | _ => false
      end
  | reflect.StructOf id =>
      match v with
      | VStruct vs => both (fun f x => fits env (reflect.Typ f) x) (fields_of env id) vs
      | _ => false
      end
  end.

(** The contract of [HandleField], for a field of a given type: the field
    keeps the form of its type, and is not written unless [set] is
    returned. *)
Definition behaves (env : decls) (d : Defaulter) (field : reflect.StructField) : Prop :=
  ∀ defaultStr path fieldValue,
    fits env (reflect.Typ field) fieldValue = true ->
    match HandleField d defaultStr path field fieldValue with
    | Returns _ set _ fieldValue' =>
        fits env (reflect.Typ field) fieldValue' = true
        ∧ (set = false -> fieldValue' = fieldValue)
    | Panicked _ => True
    end.

(** Every defaulter of the registry keeps to the contract on the fields
    it is called for. *)
Definition wellBehaved (env : decls) (r : defaulterRegistry) : Prop :=
  ∀ field ds d,
    defaulters r !! pointeeKind (reflect.Typ field) = Some ds ->
    d ∈ ds ->
    (∀ e, reflect.Typ field <> reflect.PointerTo (reflect.PointerTo e)) ->
    behaves env (defaulter d) field.

(** The defaulters that [WithBasicDefaulters] registers for a kind, in the
    order of their priorities. *)
Definition bundled (lib : library) (k : reflect.Kind) : option (list DefaulterWithPriority) :=
  let primitive d := {| defaulter := d; Priority := PriorityPrimitiveDefaulter |} in
  match k with
  | reflect.Bool => Some [primitive BoolDefaulter]
  | reflect.Int | reflect.Int8 | reflect.Int16 | reflect.Int32 =>
      Some [primitive (IntDefaulter lib)]
  | reflect.Int64 =>
      Some [primitive (IntDefaulter lib);
            {| defaulter := DurationDefaulter lib; Priority := PriorityOtherDefaulter |}]
  | reflect.Uint | reflect.Uint8 | reflect.Uint16 | reflect.Uint32 | reflect.Uint64 =>
      Some [primitive (UintDefaulter lib)]
  | reflect.Float32 | reflect.Float64 => Some [primitive (FloatDefaulter lib)]
  | reflect.Slice => Some [primitive (SliceDefaulter lib)]
  | reflect.Map => Some [primitive (MapDefaulter lib)]
  | reflect.String => Some [primitive StringDefaulter]
  | _ => None
  end.

(** The size of a value, for inductions along the fields. *)
Fixpoint vsize (v : Value) : nat :=
  match v with
  | VPtr (Some x) => S (vsize x)
  | VStruct l | VArray l => S (list_sum (List.map vsize l))
  | _ => 1
  end.

(** testtypes/types.go: [TestExportedWithUnexportedField]. *)
Definition env_unexported : decls :=
  {[ "testtypes.TestExportedWithUnexportedField" :=
       named "github.com/aliok/go-defaultz/testtypes" "TestExportedWithUnexportedField"
         [exported "ExportedField" (reflect.Basic reflect.t_string) [("default", "foo")];
          {| reflect.Name := "unexportedField";
             reflect.PkgPath := "github.com/aliok/go-defaultz/testtypes";
             reflect.Typ := reflect.Basic reflect.t_string;
             reflect.Tag := [("default", "bar")];
             reflect.Anonymous := false |}] ]}.

(** defaultz_test.go: [customDefaulter], which reads "yay" as [true] and
    stops the chain. *)
Definition customDefaulter : Defaulter :=
  {| Name := "test.customDefaulter";
     HandledKinds := [reflect.Bool];
     HandleField := fun value _ field fieldValue =>
       if String.eqb value "yay"
       then match reflect.kind (reflect.Typ field) with
            | reflect.Bool => Returns false true None (VBool true)
            | _ => Panicked fieldValue
            end
       else Returns true false None fieldValue |}.

Definition env_yay : decls :=
  {[ "struct { Field bool }" :=
       named "" "" [exported "Field" (reflect.Basic reflect.t_bool) [("default", "yay")]] ]}.

(** defaultz_test.go, [TestApplyDefaultsWithNamedStructs], with a map of
    integers for [Field4]. *)
Definition env_namedStructs : decls :=
  <[ "defaultz_test.Parent" :=
       named "github.com/aliok/go-defaultz_test" "Parent"
         [exported "Field1" (reflect.Basic reflect.t_bool) [("default", "true")];
          exported "Child" (reflect.StructOf "defaultz_test.Child") []] ]>
  (<[ "defaultz_test.Child" :=
       named "github.com/aliok/go-defaultz_test" "Child"
         [exported "Field2" (reflect.Basic reflect.t_int) [("default", "123")];
          exported "GrandChild" (reflect.StructOf "defaultz_test.GrandChild") []] ]>
  (<[ "defaultz_test.GrandChild" :=
       named "github.com/aliok/go-defaultz_test" "GrandChild"
         [exported "Field3" (reflect.Basic reflect.t_string) [("default", "abc")];
          {| reflect.Name := "Embedded1"; reflect.PkgPath := "";
             reflect.Typ := reflect.StructOf "defaultz_test.Embedded1";
             reflect.Tag := []; reflect.Anonymous := true |};
          {| reflect.Name := "Embedded2"; reflect.PkgPath := "";
             reflect.Typ := reflect.PointerTo (reflect.StructOf "defaultz_test.Embedded2");
             reflect.Tag := []; reflect.Anonymous := true |}] ]>
  (<[ "defaultz_test.Embedded1" :=
       named "github.com/aliok/go-defaultz_test" "Embedded1"
         [exported "Field4"
            (reflect.MapOf (reflect.Basic reflect.t_string) (reflect.Basic reflect.t_int))
            [("default", "a:3 b:-214")]] ]>
  {[ "defaultz_test.Embedded2" :=
       named "github.com/aliok/go-defaultz_test" "Embedded2"
         [exported "Field5" (reflect.SliceOf (reflect.Basic reflect.t_int))
            [("default", "1 2 3")]] ]}))).

(** defaultz_test.go, the invalid cases "Not convertible to the type" and
    "Array of structs". *)
Definition env_notConvertible : decls :=
  {[ "struct { Field int }" :=
       named "" "" [exported "Field" (reflect.Basic reflect.t_int) [("default", "abc")]] ]}.

Definition env_arrayOfStructs : decls :=
  <[ "struct { Field [5]struct { Foo string } }" :=
       named "" ""
         [exported "Field" (reflect.ArrayOf 5 (reflect.StructOf "struct { Foo string }"))
            [("default", "foo")]] ]>
  {[ "struct { Foo string }" :=
       named "" "" [exported "Foo" (reflect.Basic reflect.t_string) [("default", "bar")]] ]}.

(** ** The order of the defaulters of a kind *)

(** [notAfter a b]: [a] may come before [b], its priority is not greater. *)
Definition notAfter (a b : DefaulterWithPriority) : Prop :=
  (Priority a <= Priority b)%Z.

(** The defaulters of a list that have the priority [p], in their order. *)
Definition withPriority (p : Z) (l : list DefaulterWithPriority)
    : list DefaulterWithPriority :=
  List.filter (fun d => (Priority d =? p)%Z) l.

(** Every list of the registry is sorted. *)
Definition allSorted (r : defaulterRegistry) : Prop :=
  ∀ kind ds, defaulters r !! kind = Some ds -> StronglySorted notAfter ds.

(** The defaulters of a list whose priority is at most [p], and those
    whose priority is greater. *)
Definition upTo (p : Z) (l : list DefaulterWithPriority) : list DefaulterWithPriority :=
  List.filter (fun d => (Priority d <=? p)%Z) l.

Definition above (p : Z) (l : list DefaulterWithPriority) : list DefaulterWithPriority :=
  List.filter (fun d => negb (Priority d <=? p)%Z) l.


(** ** Where an error points *)

(** The errors that an outcome carries. *)
Definition errorsOf (o : outcome) : list error :=
  match o with
  | Fails e | FailsWrapped e => [e]
  | FailsAggregate es => es
  | Nil | Panics => []
  end.

(** [onPath env t fs f]: from a value of type [t] (a struct or a pointer
    to one) the fields [fs], each a field of the struct the one before
    holds or points to, lead to a struct that declares the field [f]. *)
Fixpoint onPath (env : decls) (t : reflect.rtype) (fs : list reflect.StructField)
    (f : reflect.StructField) : Prop :=
  match deref t with
  | reflect.StructOf id =>
      match fs with
      | [] => f ∈ fields_of env id
      | g :: fs' => g ∈ fields_of env id ∧ onPath env (reflect.Typ g) fs' f
      end
  | _ => False
  end.

(** A defaulter whose errors carry the path and the field it was given,
    as [NewError(d, ..., path, field, ...)] makes them. *)
Definition reportsField (d : Defaulter) : Prop :=
  ∀ value path field fieldValue callNext set e fieldValue',
    HandleField d value path field fieldValue
    = Returns callNext set (Some (defaultzError e)) fieldValue' ->
    FieldPath e = path ∧ Field e = field.

(** A record that points to a record whose field has a default out of
    the range of its type. *)
Definition env_server : decls :=
  <[ "main.Server" :=
       named "main" "Server"
         [exported "Name" (reflect.Basic reflect.t_string) [("default", "srv")];
          exported "Limits" (reflect.PointerTo (reflect.StructOf "main.Limits")) []] ]>
  {[ "main.Limits" :=
       named "main" "Limits"
         [exported "Burst" (reflect.Basic reflect.t_uint8) [("default", "300")]] ]}.

(** ** Defaulters that do not tell the zero values of a field apart *)

(** A field of a floating point type has two zero values, 0 and -0, and
    an array or a struct of such fields more.  [zeroBlind]: on two zero
    values of the field the defaulter returns the same [callNext], [set]
    and [err], sets the same value when it sets one, and panics on both
    or on none. *)
Definition zeroBlind (env : decls) (d : Defaulter) (field : reflect.StructField) : Prop :=
  ∀ defaultStr path x y,
    fits env (reflect.Typ field) x = true ->
    fits env (reflect.Typ field) y = true ->
    IsZero x = true ->
    IsZero y = true ->
    match HandleField d defaultStr path field x,
          HandleField d defaultStr path field y with
    | Returns callNext set err x', Returns callNext' set' err' y' =>
        callNext' = callNext ∧ set' = set ∧ err' = err
        ∧ (set = true -> y' = x')
    | Panicked _, Panicked _ => True
    | _, _ => False
    end.

(** Every defaulter of the registry is so on the fields it is called
    for. *)
Definition zerosAlike (env : decls) (r : defaulterRegistry) : Prop :=
  ∀ field ds d,
    defaulters r !! pointeeKind (reflect.Typ field) = Some ds ->
    d ∈ ds ->
    (∀ e, reflect.Typ field <> reflect.PointerTo (reflect.PointerTo e)) ->
    zeroBlind env (defaulter d) field.

(** A defaulter for [float64] that reads the field: it sets -0 where it
    finds the bits of 0, and 5 elsewhere. *)
Definition signDefaulter : Defaulter :=
  {| Name := "main.signDefaulter";
     HandledKinds := [reflect.Float64];
     HandleField := fun _ _ _ fieldValue =>
       match fieldValue with
       | VFloat bits =>
           if (bits =? 0)%Z
           then Returns true true None (VFloat 0x8000000000000000)
           else Returns true true None (VFloat 0x4014000000000000)
       | _ => Panicked fieldValue
       end |}.

Definition registry_sign : defaulterRegistry :=
  Register PriorityPrimitiveDefaulter signDefaulter
    (NewDefaulterRegistry [WithDefaultExtractor extractorInstance]).

Definition env_reading : decls :=
  {[ "main.Reading" :=
       named "main" "Reading"
         [exported "Level" (reflect.Basic reflect.t_float64) [("default", "5")]] ]}.

(** * Properties *)

(** ** Package [strings]: checks on the tags of the test suite *)

Example Split_comma : strings.Split "title=foo,default=m n, name=x" ","
                      = ["title=foo"; "default=m n"; " name=x"].
Proof. reflexivity. Qed.

Example Split_double : strings.Split "a;;b" ";;" = ["a"; "b"].
Proof. reflexivity. Qed.

Example Split_trailing : strings.Split "a," "," = ["a"; ""].
Proof. reflexivity. Qed.

Example TrimSpace_both : strings.TrimSpace "   hasDefault  " = "hasDefault".
Proof. reflexivity. Qed.

Example Fields_123 : strings.Fields " 1 2  3 " = ["1"; "2"; "3"].
Proof. reflexivity. Qed.

Example Fields_empty : strings.Fields "" = [].
Proof. reflexivity. Qed.

(** ** The extractor *)

Lemma firstPrefixed_find (prefix : string) (parts : list string) :
  firstPrefixed prefix parts =
  match List.find (fun tok => strings.HasPrefix tok prefix)
          (List.map strings.TrimSpace parts) with
  | Some tok => (strings.TrimPrefix tok prefix, true)
  | None => ("", false)
  end.
Proof.
  induction parts as [|p parts IH]; simpl; [reflexivity|].
  destruct (strings.HasPrefix (strings.TrimSpace p) prefix); auto.
Qed.

Lemma ExtractDefault_absent (d : DefaultzExtractor) (field : reflect.StructField) :
  reflect.Lookup (reflect.Tag field) (TagName d) = None ->
  DefaultzExtractor_ExtractDefault d field = ("", false, None).
Proof. unfold DefaultzExtractor_ExtractDefault. intros ->. reflexivity. Qed.

Lemma ExtractDefault_empty (d : DefaultzExtractor) (field : reflect.StructField) :
  reflect.Lookup (reflect.Tag field) (TagName d) = Some "" ->
  DefaultzExtractor_ExtractDefault d field = ("", false, None).
Proof. unfold DefaultzExtractor_ExtractDefault. intros ->. reflexivity. Qed.

(** ** The cycle detector *)

Section Detector.

Variable env : decls.

Abbreviation edge := (field_edge env).
Abbreviation detect := (detectPotentialCycles env).

Abbreviation meets := (meets_on env).
Abbreviation room := (room_of env).

Lemma edge_struct t u : edge t u -> ∃ id, t = reflect.StructOf id ∧ id ∈ dom env.
Proof.
  intros (id & f & -> & Hf & _). exists id. split; [reflexivity|].
  unfold fields_of in Hf. apply elem_of_dom.
  destruct (env !! id); [eauto|]. by apply elem_of_nil in Hf.
Qed.

Lemma room_mark id seen :
  id ∈ dom env -> reflect.StructOf id ∉ seen ->
  (room ({[reflect.StructOf id]} ∪ seen) < room seen)%nat.
Proof.
  intros Hid Hns. unfold room_of. apply subset_size.
  assert (Hin : reflect.StructOf id ∈ declared env).
  { unfold declared. apply elem_of_map. eauto. }
  set_solver.
Qed.

(** The map is restored on exit. *)
Lemma detectFields_seen rec fs :
  (∀ t seen b seen', rec t seen = Some (b, seen') -> seen' = seen) ->
  ∀ seen b seen', detectFields rec fs seen = Some (b, seen') -> seen' = seen.
Proof.
  intros Hrec. induction fs as [|f fs IH]; simpl; intros seen b seen' H.
  - congruence.
  - destruct (rec (reflect.Typ f) seen) as [[[] s1]|] eqn:E; try discriminate.
    + apply Hrec in E. congruence.
    + apply Hrec in E. subst s1. eauto.
Qed.

Lemma detect_seen fuel :
  ∀ t seen b seen', detect fuel t seen = Some (b, seen') -> seen' = seen.
Proof.
  induction fuel as [|fuel IH]; simpl; intros t seen b seen' H; [discriminate|].
  destruct (decide (deref t ∈ seen)) as [Hin|Hnin]; [congruence|].
  destruct (deref t) eqn:Et; try congruence.
  destruct (detectFields _ _ _) as [[b1 s1]|] eqn:E; [|discriminate].
  apply (detectFields_seen _ _ IH) in E. subst s1.
  inversion H; subst. set_solver.
Qed.

Lemma detectFields_true rec fs seen s' :
  detectFields rec fs seen = Some (true, s') ->
  (∀ t s b s1, rec t s = Some (b, s1) -> s1 = s) ->
  ∃ f s1, f ∈ fs ∧ rec (reflect.Typ f) seen = Some (true, s1).
Proof.
  intros H Hrec. induction fs as [|f fs IH]; simpl in H; [discriminate|].
  destruct (rec (reflect.Typ f) seen) as [[[] s1]|] eqn:E; try discriminate.
  - exists f, s1. split; [left|assumption].
  - apply Hrec in E as ->. destruct (IH H) as (g & s2 & Hg & Eg).
    exists g, s2. split; [by right|assumption].
Qed.

Lemma detectFields_found rec fs seen f :
  (∀ g, g ∈ fs -> ∃ b, rec (reflect.Typ g) seen = Some (b, seen)) ->
  f ∈ fs -> rec (reflect.Typ f) seen = Some (true, seen) ->
  detectFields rec fs seen = Some (true, seen).
Proof.
  induction fs as [|g fs IH]; intros Hall Hf Eq.
  - by apply elem_of_nil in Hf.
  - simpl. destruct (Hall g) as [bg Eg]; [left|]. rewrite Eg.
    destruct bg; [reflexivity|].
    apply elem_of_cons in Hf as [->|Hf]; [congruence|].
    apply IH; auto. intros h Hh. apply Hall. by right.
Qed.

Lemma detectFields_total rec fs seen :
  (∀ g, g ∈ fs -> ∃ b, rec (reflect.Typ g) seen = Some (b, seen)) ->
  ∃ b, detectFields rec fs seen = Some (b, seen).
Proof.
  induction fs as [|g fs IH]; intros Hall; simpl; [eauto|].
  destruct (Hall g) as [bg Eg]; [left|]. rewrite Eg.
  destruct bg; [eauto|]. apply IH. intros h Hh. apply Hall. by right.
Qed.

(** The recursion is never deeper than the number of declared struct
    types still unmarked, plus one. *)
Lemma detect_total fuel :
  ∀ t seen, (room seen < fuel)%nat -> ∃ b, detect fuel t seen = Some (b, seen).
Proof.
  induction fuel as [|fuel IH]; intros t seen Hroom; [lia|]. simpl.
  destruct (decide (deref t ∈ seen)) as [Hin|Hnin]; [eauto|].
  destruct (deref t) as [| | | | |id] eqn:Et; eauto.
  destruct (decide (id ∈ dom env)) as [Hid|Hid].
  - destruct (detectFields_total (detect fuel) (fields_of env id)
                ({[reflect.StructOf id]} ∪ seen)) as [b Eb].
    { intros g _. apply IH. pose proof (room_mark id seen Hid Hnin). lia. }
    rewrite Eb. exists b. f_equal. f_equal. set_solver.
  - unfold fields_of. apply not_elem_of_dom in Hid. rewrite Hid. simpl.
    exists false. f_equal. f_equal. set_solver.
Qed.

Lemma detect_sound fuel :
  ∀ t seen seen', detect fuel t seen = Some (true, seen') -> meets seen t.
Proof.
  induction fuel as [|fuel IH]; simpl; intros t seen seen' H; [discriminate|].
  unfold meets_on.
  destruct (decide (deref t ∈ seen)) as [Hin|Hnin].
  { exists (deref t). split; [apply rtc_refl|by left]. }
  destruct (deref t) as [| | | | |id] eqn:Et; try discriminate.
  destruct (detectFields _ _ _) as [[b1 s1]|] eqn:E; [|discriminate].
  assert (b1 = true) as -> by congruence.
  apply detectFields_true in E as (f & s2 & Hf & Ef); [|apply detect_seen].
  apply IH in Ef as (s & Hrtc & Hs).
  assert (Hedge : edge (reflect.StructOf id) (deref (reflect.Typ f))).
  { exists id, f. auto. }
  destruct Hs as [Hs|Hs].
  - apply elem_of_union in Hs as [Hs|Hs].
    + apply elem_of_singleton in Hs. subst s.
      exists (reflect.StructOf id). split; [apply rtc_refl|right].
      eapply tc_rtc_r; [apply tc_once; exact Hedge|exact Hrtc].
    + exists s. split; [eapply rtc_l; eauto|by left].
  - exists s. split; [eapply rtc_l; eauto|by right].
Qed.

(** A descent that meets something starts with a field. *)
Lemma meets_step t seen :
  deref t ∉ seen -> meets seen t ->
  ∃ id f, deref t = reflect.StructOf id ∧ f ∈ fields_of env id
          ∧ meets ({[deref t]} ∪ seen) (reflect.Typ f).
Proof.
  intros Hnin (s & Hrtc & Hs).
  assert (Hfirst : ∀ y, edge (deref t) y -> rtc edge y s ∨ y = s ->
            (s ∈ {[deref t]} ∪ seen ∨ tc edge s s) ->
            ∃ id f, deref t = reflect.StructOf id ∧ f ∈ fields_of env id
                    ∧ meets ({[deref t]} ∪ seen) (reflect.Typ f)).
  { intros y (id & f & E1 & Hf & E2) Hys Hs'. exists id, f.
    split; [assumption|]. split; [assumption|].
    exists s. rewrite <- E2. split; [|assumption].
    destruct Hys as [?| ->]; [assumption|apply rtc_refl]. }
  inversion Hrtc as [|x y z Hxy Hyz]; subst.
  - destruct Hs as [Hs|Hs]; [contradiction|].
    inversion Hs as [x y Hxy|x y z Hxy Hyz]; subst.
    + apply (Hfirst _ Hxy); [by right|]. left. set_solver.
    + apply (Hfirst _ Hxy); [left; by apply tc_rtc|]. left. set_solver.
  - apply (Hfirst _ Hxy); [by left|].
    destruct Hs; [left; set_solver|by right].
Qed.

Lemma detect_complete fuel :
  ∀ t seen, (room seen < fuel)%nat -> meets seen t ->
            detect fuel t seen = Some (true, seen).
Proof.
  induction fuel as [|fuel IH]; intros t seen Hroom Hm; [lia|]. simpl.
  destruct (decide (deref t ∈ seen)) as [Hin|Hnin]; [reflexivity|].
  destruct (meets_step t seen Hnin Hm) as (id & f & Et & Hf & Hmf).
  rewrite Et in *.
  assert (Hid : id ∈ dom env).
  { apply elem_of_dom. unfold fields_of in Hf.
    destruct (env !! id); [eauto|]. by apply elem_of_nil in Hf. }
  pose proof (room_mark id seen Hid Hnin) as Hlt.
  rewrite (detectFields_found (detect fuel) (fields_of env id) _ f).
  - f_equal. f_equal. set_solver.
  - intros g _. apply detect_total. lia.
  - assumption.
  - apply IH; [lia|assumption].
Qed.

End Detector.

Lemma room_empty (env : decls) : room_of env ∅ = size (declared env).
Proof. unfold room_of. f_equal. set_solver. Qed.

Lemma meets_empty (env : decls) (t : reflect.rtype) :
  meets_on env ∅ t <-> recurs_on_path env t.
Proof.
  unfold meets_on, recurs_on_path. split; intros (s & Hrtc & Hs); exists s.
  - split; [assumption|]. destruct Hs as [Hs|Hs]; [set_solver|assumption].
  - split; [assumption|by right].
Qed.

(** The depth that [typeHasCycles] allows is never reached. *)
Lemma typeHasCycles_total (env : decls) (t : reflect.rtype) :
  ∃ b, detectPotentialCycles env (S (size (declared env))) t ∅ = Some (b, ∅).
Proof. apply detect_total. rewrite room_empty. lia. Qed.

Lemma typeHasCycles_sound (env : decls) (t : reflect.rtype) :
  typeHasCycles env t = true -> recurs_on_path env t.
Proof.
  unfold typeHasCycles. destruct (typeHasCycles_total env t) as [b Eb].
  rewrite Eb. intros ->. apply meets_empty. eapply detect_sound. exact Eb.
Qed.

Lemma typeHasCycles_complete (env : decls) (t : reflect.rtype) :
  recurs_on_path env t -> typeHasCycles env t = true.
Proof.
  intros H. unfold typeHasCycles.
  rewrite (detect_complete env (S (size (declared env))) t ∅).
  - reflexivity.
  - rewrite room_empty. lia.
  - by apply meets_empty.
Qed.

(** C6. Whatever map a call of the detector starts from, it leaves the
    map as it found it (a type is marked for the time of the descent
    below it only), and it answers [true] only when the descent from the
    type meets a marked type or a type that recurs; started from the empty
    map, only when a type recurs along one descent.  Two sibling fields of
    one struct type, without a reference back, are no such descent
    ([siblings_not_cyclic]). *)
Theorem cycle_only_along_one_path (env : decls) (fuel : nat) (t : reflect.rtype)
    (seen seen' : gset reflect.rtype) (b : bool) :
  detectPotentialCycles env fuel t seen = Some (b, seen') ->
  seen' = seen
  ∧ (b = true -> meets_on env seen t)
  ∧ (b = true -> seen = ∅ -> recurs_on_path env t).
Proof.
  intros H. pose proof (detect_seen env fuel t seen b seen' H) as ->.
  split; [reflexivity|].
  assert (Hm : b = true -> meets_on env seen t).
  { intros ->. eapply detect_sound. exact H. }
  split; [exact Hm|].
  intros Hb ->. apply meets_empty. auto.
Qed.

Lemma cycle_only_along_one_path_witness :
  recurs_on_path env_directSelfCycle (reflect.StructOf "defaultz.directSelfCycle").
Proof.
  refine (proj2 (proj2 (cycle_only_along_one_path env_directSelfCycle 2
                          (reflect.StructOf "defaultz.directSelfCycle") ∅ ∅ true _))
            eq_refl eq_refl).
  vm_compute. reflexivity.
Defined.

Example siblings_not_cyclic :
  typeHasCycles env_siblings (reflect.StructOf "main.Pair") = false.
Proof. vm_compute. reflexivity. Qed.

Example siblings_seen_restored :
  detectPotentialCycles env_siblings 3 (reflect.StructOf "main.Pair") ∅
  = Some (false, ∅).
Proof. vm_compute. reflexivity. Qed.

Example cyclicParent_cyclic :
  typeHasCycles env_cyclicParent (reflect.StructOf "defaultz.cyclicParent") = true.
Proof. vm_compute. reflexivity. Qed.

(** ** [ApplyDefaults] and the cycle check *)

(** C2. When a struct type recurs along a descent through the fields of
    the record's type (a field, a chain of nested struct types, one pointer
    at each step), [ApplyDefaults] returns the error of the cycle check and
    the record is as it was; this holds for every registry, the check
    comes before the walk. *)
Theorem cyclic_type_rejected (r : defaulterRegistry) (env : decls)
    (id : string) (target : Value) :
  recurs_on_path env (reflect.StructOf id) ->
  ApplyDefaults r env (reflect.PointerTo (reflect.StructOf id)) (VPtr (Some target))
  = (Fails (errorString "type definition must not have cycles"),
     VPtr (Some target)).
Proof.
  intros H. unfold ApplyDefaults.
  rewrite (typeHasCycles_complete env _ H). reflexivity.
Qed.

Lemma cyclic_type_rejected_witness :
  recurs_on_path env_cyclicParent1 (reflect.StructOf "defaultz_test.cyclicParent1")
  ∧ ApplyDefaults (instance lib_none) env_cyclicParent1
      (reflect.PointerTo (reflect.StructOf "defaultz_test.cyclicParent1"))
      (VPtr (Some (VStruct [VBool false; VStruct [VInt 0; VPtr None]])))
    = (Fails (errorString "type definition must not have cycles"),
       VPtr (Some (VStruct [VBool false; VStruct [VInt 0; VPtr None]]))).
Proof.
  assert (H : recurs_on_path env_cyclicParent1
                (reflect.StructOf "defaultz_test.cyclicParent1")).
  { apply typeHasCycles_sound. vm_compute. reflexivity. }
  split; [exact H|].
  apply (cyclic_type_rejected (instance lib_none) env_cyclicParent1
           "defaultz_test.cyclicParent1" _ H).
Defined.

(** cycles_test.go, "Nested Pointer Cycle": a reference to the type itself
    through two pointers is not on the detector's graph. *)
Example nestedPointerCycle_not_flagged :
  typeHasCycles
    {[ "defaultz.nestedPointerCycle" :=
         named "defaultz" "nestedPointerCycle"
           [exported "Ref"
              (reflect.PointerTo (reflect.PointerTo
                 (reflect.StructOf "defaultz.nestedPointerCycle"))) []] ]}
    (reflect.StructOf "defaultz.nestedPointerCycle") = false.
Proof. vm_compute. reflexivity. Qed.

(** ** The extractor and the claims on it *)

(** C9, as the specification words it, fails on the empty tag with the
    empty prefix: the one token of the split, the empty string, carries the
    empty prefix, and the extractor finds nothing. *)
Lemma extract_by_words_fails_on_empty_tag :
  let d := {| TagName := "default"; Prefix := ""; Separator := "," |} in
  let field := exported "StringField3" (reflect.Basic reflect.t_string)
                 [("default", "")] in
  reflect.Lookup (reflect.Tag field) (TagName d) = Some ""
  ∧ extract_by_words d "" = ("", true)
  ∧ DefaultzExtractor_ExtractDefault d field = ("", false, None)
  ∧ DefaultzExtractor_ExtractDefault d field <> (extract_by_words d "", None).
Proof. vm_compute. repeat split; discriminate. Qed.

(** C9, amended.  For a tag that is present and not empty, the extractor
    splits its value on the separator, trims every token and returns the
    first token that carries the prefix, without the prefix, as found; it
    returns not found when no token carries it; it never fails. *)
Theorem ExtractDefault_first_prefixed_token (d : DefaultzExtractor)
    (field : reflect.StructField) (tag : string) :
  reflect.Lookup (reflect.Tag field) (TagName d) = Some tag ->
  tag <> "" ->
  DefaultzExtractor_ExtractDefault d field = (extract_by_words d tag, None).
Proof.
  intros Htag Hne. unfold DefaultzExtractor_ExtractDefault, extract_by_words.
  rewrite Htag. destruct (String.eqb_spec tag ""); [contradiction|].
  rewrite firstPrefixed_find. reflexivity.
Qed.

Lemma ExtractDefault_first_prefixed_token_witness :
  let d := {| TagName := "customTag"; Prefix := "default="; Separator := "," |} in
  let field := exported "MultipleDefaults" (reflect.Basic reflect.t_string)
                 [("customTag", "title=foo,default=m n, name=x")] in
  DefaultzExtractor_ExtractDefault d field = ("m n", true, None).
Proof.
  intros d field.
  apply (ExtractDefault_first_prefixed_token d field "title=foo,default=m n, name=x").
  - reflexivity.
  - discriminate.
Defined.

(** C10. A tag that is present with the empty value is not found, without
    an error, as an absent tag is; the walk then leaves the field as it
    is and returns no error for it, whatever the registry. *)
Theorem empty_tag_is_not_found (d : DefaultzExtractor) (field : reflect.StructField) :
  reflect.Lookup (reflect.Tag field) (TagName d) = Some "" ->
  DefaultzExtractor_ExtractDefault d field = ("", false, None)
  ∧ (∀ field', reflect.Lookup (reflect.Tag field') (TagName d) = None ->
               DefaultzExtractor_ExtractDefault d field'
               = DefaultzExtractor_ExtractDefault d field)
  ∧ (∀ r canSet path fieldValue,
       applyLeaf r {| ExtractDefault := DefaultzExtractor_ExtractDefault d |}
         canSet path field fieldValue
       = (Nil, fieldValue)).
Proof.
  intros H. pose proof (ExtractDefault_empty d field H) as E.
  split; [exact E|]. split.
  - intros field' H'. rewrite E. by apply ExtractDefault_absent.
  - intros r canSet path fieldValue. unfold applyLeaf. simpl. rewrite E.
    destruct (IsZero fieldValue); reflexivity.
Qed.

Lemma empty_tag_is_not_found_witness :
  let d := {| TagName := "default"; Prefix := ""; Separator := "," |} in
  let field := exported "StringField3" (reflect.Basic reflect.t_string)
                 [("default", "")] in
  DefaultzExtractor_ExtractDefault d field = ("", false, None).
Proof.
  intros d field.
  exact (proj1 (empty_tag_is_not_found d field eq_refl)).
Defined.

(** ** The chain of defaulters *)

Lemma runChain_calls (ds : list DefaulterWithPriority) (defaultStr path : string)
    (field : reflect.StructField) :
  ∀ fieldValue result somethingSet,
    existsb hasPanicked (chainCalls ds defaultStr path field fieldValue) = false ->
    ∃ fieldValue',
      runChain ds defaultStr path field fieldValue result somethingSet
      = ChainDone
          (result ++ collected (chainCalls ds defaultStr path field fieldValue))
          (somethingSet || anySet (chainCalls ds defaultStr path field fieldValue))
          fieldValue'.
Proof.
  induction ds as [|d ds IH]; intros fv result s Hp; simpl.
  - exists fv. unfold collected, anySet. simpl.
    by rewrite app_nil_r, orb_false_r.
  - simpl in Hp.
    destruct (HandleField (defaulter d) defaultStr path field fv)
      as [callNext set err fv'|fv'] eqn:E; simpl in Hp; [|discriminate].
    unfold collected, anySet. simpl.
    destruct callNext.
    + destruct (IH fv' (match err with Some e => result ++ [e] | None => result end)
                  (if set then true else s) Hp) as [fv'' ->].
      exists fv''. f_equal.
      * unfold collected. destruct err; simpl; [by rewrite <- app_assoc|reflexivity].
      * unfold anySet. destruct set, s; reflexivity.
    + exists fv'. simpl. f_equal.
      * destruct err; simpl; [reflexivity|by rewrite app_nil_r].
      * destruct set, s; reflexivity.
Qed.

(** The calls stop early only at a defaulter that asked to stop. *)
Lemma chainCalls_stop (ds : list DefaulterWithPriority) (defaultStr path : string)
    (field : reflect.StructField) :
  ∀ fieldValue,
    let calls := chainCalls ds defaultStr path field fieldValue in
    existsb hasPanicked calls = false ->
    (length calls <= length ds)%nat
    ∧ (∀ i h, calls !! i = Some h -> (S i < length calls)%nat -> askedToStop h = false)
    ∧ ((length calls < length ds)%nat ->
       ∃ h, last calls = Some h ∧ askedToStop h = true).
Proof.
  induction ds as [|d ds IH]; intros fv calls Hp; subst calls; simpl in *.
  - split; [lia|]. split; [intros i h H; by rewrite lookup_nil in H|lia].
  - destruct (HandleField (defaulter d) defaultStr path field fv)
      as [callNext set err fv'|fv'] eqn:E; simpl in Hp; [|discriminate].
    destruct callNext.
    + destruct (IH fv' Hp) as (Hlen & Hmid & Hlast). simpl. split; [lia|]. split.
      * intros [|i] h Hi Hlt; simpl in *.
        -- by inversion Hi.
        -- apply (Hmid i h Hi). lia.
      * intros Hlt. destruct Hlast as (h & Hl & Hs); [lia|]. exists h.
        split; [|assumption].
        destruct (chainCalls ds defaultStr path field fv'); [discriminate|].
        exact Hl.
    + simpl. split; [lia|]. split.
      * intros [|i] h Hi Hlt; simpl in *; [lia|]. by rewrite lookup_nil in Hi.
      * intros _. eexists. split; reflexivity.
Qed.

Lemma chainOutcome_cases (result : list error) (somethingSet : bool) :
  (chainOutcome result somethingSet <> Nil <-> somethingSet = false ∧ result <> [])
  ∧ (somethingSet = true -> chainOutcome result somethingSet = Nil)
  ∧ (∀ e, somethingSet = false -> result = [e] ->
          chainOutcome result somethingSet = FailsWrapped e)
  ∧ (somethingSet = false -> (2 <= length result)%nat ->
     chainOutcome result somethingSet = FailsAggregate result).
Proof.
  unfold chainOutcome. destruct somethingSet; simpl.
  - repeat split; try congruence. intros [? _]. discriminate.
  - destruct result as [|e [|e' rest]]; simpl; repeat split;
      try congruence; try lia; intros; try discriminate;
      try (match goal with H : _ ∧ _ |- _ => destruct H; congruence end).
Qed.

Lemma applyLeaf_chain (r : defaulterRegistry) (extract : DefaultExtractor)
    (path : string) (field : reflect.StructField) (fieldValue : Value)
    (defaultStr : string) (ds : list DefaulterWithPriority) :
  IsZero fieldValue = true ->
  ExtractDefault extract field = (defaultStr, true, None) ->
  (∀ e, reflect.Typ field <> reflect.PointerTo (reflect.PointerTo e)) ->
  defaulters r !! pointeeKind (reflect.Typ field) = Some ds ->
  applyLeaf r extract true path field fieldValue
  = match runChain ds defaultStr path field fieldValue [] false with
    | ChainPanicked fieldValue' => (Panics, fieldValue')
    | ChainDone result somethingSet fieldValue' =>
        (chainOutcome result somethingSet, fieldValue')
    end.
Proof.
  intros Hz He Hpp Hds. unfold applyLeaf. rewrite Hz, He. simpl.
  destruct (reflect.Typ field) as [b|e|n e|k e|e|id] eqn:Et;
    try (rewrite Hds; reflexivity).
  destruct e; try (rewrite Hds; reflexivity).
  exfalso. eapply Hpp. reflexivity.
Qed.

(** C4. For a field whose chain runs (the field is zero, a default is
    found, the type is no pointer to a pointer, the kind has defaulters
    and the field can be set) and in which no defaulter panics: the
    defaulters are called in order up to the first that does not return
    [callNext], or to the end; every error they return is collected; the
    field fails if and only if none of them set a value and an error was
    collected, with the only error wrapped alone and several as the
    aggregate; when one of them set a value, the field does not fail. *)
Theorem chain_of_defaulters (r : defaulterRegistry) (extract : DefaultExtractor)
    (path : string) (field : reflect.StructField) (fieldValue : Value)
    (defaultStr : string) (ds : list DefaulterWithPriority) :
  IsZero fieldValue = true ->
  ExtractDefault extract field = (defaultStr, true, None) ->
  (∀ e, reflect.Typ field <> reflect.PointerTo (reflect.PointerTo e)) ->
  defaulters r !! pointeeKind (reflect.Typ field) = Some ds ->
  existsb hasPanicked (chainCalls ds defaultStr path field fieldValue) = false ->
  let calls := chainCalls ds defaultStr path field fieldValue in
  let result := collected calls in
  let somethingSet := anySet calls in
  (∃ fieldValue',
     runChain ds defaultStr path field fieldValue [] false
     = ChainDone result somethingSet fieldValue'
     ∧ applyLeaf r extract true path field fieldValue
       = (chainOutcome result somethingSet, fieldValue'))
  ∧ (length calls <= length ds)%nat
  ∧ (∀ i h, calls !! i = Some h -> (S i < length calls)%nat -> askedToStop h = false)
  ∧ ((length calls < length ds)%nat -> ∃ h, last calls = Some h ∧ askedToStop h = true)
  ∧ (chainOutcome result somethingSet <> Nil <-> somethingSet = false ∧ result <> [])
  ∧ (somethingSet = true -> chainOutcome result somethingSet = Nil)
  ∧ (∀ e, somethingSet = false -> result = [e] ->
          chainOutcome result somethingSet = FailsWrapped e)
  ∧ (somethingSet = false -> (2 <= length result)%nat ->
     chainOutcome result somethingSet = FailsAggregate result).
Proof.
  intros Hz He Hpp Hds Hp calls result somethingSet.
  split.
  - destruct (runChain_calls ds defaultStr path field fieldValue [] false Hp)
      as [fv' E].
    exists fv'. split; [exact E|].
    rewrite (applyLeaf_chain r extract path field fieldValue defaultStr ds Hz He Hpp Hds).
    rewrite E. reflexivity.
  - destruct (chainCalls_stop ds defaultStr path field fieldValue Hp) as (H1 & H2 & H3).
    destruct (chainOutcome_cases result somethingSet) as (H4 & H5 & H6 & H7).
    split; [exact H1|]. split; [exact H2|]. split; [exact H3|].
    split; [exact H4|]. split; [exact H5|]. split; [exact H6|exact H7].
Qed.

(** An [int64] field with the default "1s": the [IntDefaulter] reports an
    error, the [DurationDefaulter] after it sets the value, and the field
    does not fail. *)
Lemma chain_of_defaulters_witness :
  let field := exported "Timeout" (reflect.Basic reflect.t_int64) [("default", "1s")] in
  applyLeaf (instance lib_seconds) extractorInstance true "<root>" field (VInt 0)
  = (Nil, VInt 1000000000).
Proof.
  intros field.
  destruct (chain_of_defaulters (instance lib_seconds) extractorInstance
              "<root>" field (VInt 0) "1s"
              [{| defaulter := IntDefaulter lib_seconds; Priority := 1000 |};
               {| defaulter := DurationDefaulter lib_seconds; Priority := 2000 |}]
              eq_refl eq_refl ltac:(discriminate) eq_refl eq_refl)
    as [(fv' & Hrun & Hleaf) _].
  rewrite Hleaf. vm_compute in Hrun. inversion Hrun. reflexivity.
Defined.

(** ** The registry of the package *)

Lemma instance_extractor (lib : library) :
  extractor (instance lib) = Some extractorInstance.
Proof. reflexivity. Qed.

Lemma instance_Bool (lib : library) :
  defaulters (instance lib) !! reflect.Bool
  = Some [{| defaulter := BoolDefaulter; Priority := 1000 |}].
Proof. reflexivity. Qed.


Lemma instance_Int64 (lib : library) :
  defaulters (instance lib) !! reflect.Int64
  = Some [{| defaulter := IntDefaulter lib; Priority := 1000 |};
          {| defaulter := DurationDefaulter lib; Priority := 2000 |}].
Proof. reflexivity. Qed.

Lemma instance_size (lib : library) : size (defaulters (instance lib)) = 16%nat.
Proof. vm_compute. reflexivity. Qed.

(** ** Pointers to pointers *)

(** C5, as stated, fails: a field of type [**int] that is not nil, with a
    default in its tag, is skipped like every field that is not zero, and
    [ApplyDefaults] returns no error. *)
Lemma pointer_to_pointer_not_nil_is_skipped :
  ApplyDefaults (instance lib_none) env_pointerToPointer
    (reflect.PointerTo (reflect.StructOf "struct { Field **int }"))
    (VPtr (Some (VStruct [VPtr (Some (VPtr None))])))
  = (Nil, VPtr (Some (VStruct [VPtr (Some (VPtr None))]))).
Proof. vm_compute. reflexivity. Qed.

(** The case of the test suite: the field is nil. *)
Example pointer_to_pointer_nil_is_rejected :
  fst (ApplyDefaults (instance lib_none) env_pointerToPointer
         (reflect.PointerTo (reflect.StructOf "struct { Field **int }"))
         (VPtr (Some (VStruct [VPtr None]))))
  = Fails (defaultzError
             (NewError None ErrNotSupported "<root>"
                (exported "Field"
                   (reflect.PointerTo (reflect.PointerTo (reflect.Basic reflect.t_int)))
                   [("default", "3")])
                "pointer to pointer is not allowed")).
Proof. vm_compute. reflexivity. Qed.

(** C5, amended.  A field whose type is a pointer to a pointer, that is
    nil and for which the extractor finds a default, is rejected with
    [ErrNotSupported] and left as it is: whatever the defaulters of the
    registry are, none is called. *)
Theorem pointer_to_pointer_rejected (r : defaulterRegistry) (extract : DefaultExtractor)
    (rec : bool -> reflect.rtype -> Value -> string -> option (outcome * Value))
    (zero : reflect.rtype -> option Value) (ro : bool) (path : string)
    (field : reflect.StructField) (e : reflect.rtype) (fieldValue : Value)
    (defaultStr : string) :
  reflect.Typ field = reflect.PointerTo (reflect.PointerTo e) ->
  IsZero fieldValue = true ->
  ExtractDefault extract field = (defaultStr, true, None) ->
  applyField r extract rec zero ro path field fieldValue
  = Some (Fails (defaultzError
                   (NewError None ErrNotSupported path field
                      "pointer to pointer is not allowed")),
          fieldValue).
Proof.
  intros Ht Hz He. unfold applyField, applyLeaf. rewrite Ht, Hz, He. reflexivity.
Qed.

Lemma pointer_to_pointer_rejected_witness :
  let field := exported "Field"
                 (reflect.PointerTo (reflect.PointerTo (reflect.Basic reflect.t_int)))
                 [("default", "3")] in
  applyField (instance lib_none) extractorInstance
    (DoApplyDefaults (instance lib_none) env_pointerToPointer 1)
    (Zero env_pointerToPointer 1) false "<root>" field (VPtr None)
  = Some (Fails (defaultzError
                   (NewError None ErrNotSupported "<root>" field
                      "pointer to pointer is not allowed")),
          VPtr None).
Proof.
  intros field.
  apply (pointer_to_pointer_rejected (instance lib_none) extractorInstance _ _
           false "<root>" field (reflect.Basic reflect.t_int) (VPtr None) "3");
    reflexivity.
Defined.

(** The other fields of that type are skipped. *)
Lemma pointer_to_pointer_skipped (r : defaulterRegistry) (extract : DefaultExtractor)
    (rec : bool -> reflect.rtype -> Value -> string -> option (outcome * Value))
    (zero : reflect.rtype -> option Value) (ro : bool) (path : string)
    (field : reflect.StructField) (e : reflect.rtype) (fieldValue : Value) :
  reflect.Typ field = reflect.PointerTo (reflect.PointerTo e) ->
  IsZero fieldValue = false
  ∨ (∃ s, ExtractDefault extract field = (s, false, None)) ->
  applyField r extract rec zero ro path field fieldValue = Some (Nil, fieldValue).
Proof.
  intros Ht H. unfold applyField, applyLeaf. rewrite Ht.
  destruct H as [Hz|[s He]].
  - rewrite Hz. reflexivity.
  - rewrite He. destruct (IsZero fieldValue); reflexivity.
Qed.

(** ** Booleans and slices under the registry of the package *)


(** C8. Under the registry of the package, a boolean field that holds
    [false], can be set and has the default "true" becomes [true]; with a
    default that is neither "true" nor "false" the field fails with
    [ErrInvalidDefaultValue], reported by the [BoolDefaulter] for the path
    of the field, and the field is left as it is. *)
Theorem bool_default (lib : library)
    (rec : bool -> reflect.rtype -> Value -> string -> option (outcome * Value))
    (zero : reflect.rtype -> option Value) (path : string)
    (field : reflect.StructField) (spec : string) :
  reflect.Typ field = reflect.Basic reflect.t_bool ->
  reflect.IsExported field = true ->
  ExtractDefault extractorInstance field = (spec, true, None) ->
  (spec = "true" ->
   applyField (instance lib) extractorInstance rec zero false path field (VBool false)
   = Some (Nil, VBool true))
  ∧ (spec <> "true" -> spec <> "false" ->
     ∃ e, applyField (instance lib) extractorInstance rec zero false path field
            (VBool false)
          = Some (FailsWrapped (defaultzError e), VBool false)
          ∧ Err e = ErrInvalidDefaultValue
          ∧ Defaulter_Name e = Some "defaultz.BoolDefaulter"
          ∧ Field e = field
          ∧ Error_path e = addFieldToPath path field).
Proof.
  intros Ht Hx He.
  assert (Hleaf : applyField (instance lib) extractorInstance rec zero false path
                    field (VBool false)
                  = Some (match runChain [{| defaulter := BoolDefaulter;
                                             Priority := 1000 |}]
                                  spec path field (VBool false) [] false with
                          | ChainPanicked fv' => (Panics, fv')
                          | ChainDone result somethingSet fv' =>
                              (chainOutcome result somethingSet, fv')
                          end)).
  { unfold applyField. rewrite Ht, Hx. cbv beta iota zeta. cbn [orb negb]. f_equal.
    apply applyLeaf_chain; try assumption; try reflexivity.
    - intros e. rewrite Ht. discriminate.
    - rewrite Ht. apply instance_Bool. }
  rewrite Hleaf. simpl. unfold setThroughPointer. rewrite Ht. simpl. split.
  - intros ->. reflexivity.
  - intros H1 H2.
    destruct (String.eqb_spec spec "true"); [contradiction|].
    destruct (String.eqb_spec spec "false"); [contradiction|].
    eexists. split; [reflexivity|]. repeat split.
Qed.

Lemma bool_default_witness :
  let field := exported "BoolField1" (reflect.Basic reflect.t_bool)
                 [("default", "true")] in
  applyField (instance lib_none) extractorInstance
    (DoApplyDefaults (instance lib_none) env_flags 1) (Zero env_flags 1)
    false "<root>" field (VBool false)
  = Some (Nil, VBool true).
Proof.
  intros field.
  apply (proj1 (bool_default lib_none _ _ "<root>" field "true"
                  eq_refl eq_refl eq_refl)).
  reflexivity.
Defined.

Example ApplyDefaults_flags :
  ApplyDefaults (instance lib_none) env_flags
    (reflect.PointerTo (reflect.StructOf "main.Flags"))
    (VPtr (Some (VStruct [VBool false; VSlice None; VSlice None; VSlice None])))
  = (Nil,
     VPtr (Some (VStruct [VBool true; VSlice (Some [VInt 1; VInt 2; VInt 3]);
                          VSlice None; VSlice (Some [])]))).
Proof. vm_compute. reflexivity. Qed.

Example ApplyDefaults_badBool :
  ∃ e, ApplyDefaults (instance lib_none) env_badBool
         (reflect.PointerTo (reflect.StructOf "main.Bad"))
         (VPtr (Some (VStruct [VBool false])))
       = (FailsWrapped (defaultzError e), VPtr (Some (VStruct [VBool false])))
       ∧ Err e = ErrInvalidDefaultValue
       ∧ Error_path e = "main.(Bad).On".
Proof. eexists. vm_compute. repeat split. Qed.



(** A default that is empty once extracted (a blank tag value) is another
    matter: the [SliceDefaulter] then sets an allocated, empty slice. *)
Example blank_tag_allocates :
  HandleField (SliceDefaulter lib_none) "" "<root>"
    (exported "Blank" (reflect.SliceOf (reflect.Basic reflect.t_int)) [("default", " ")])
    (VSlice None)
  = Returns true true None (VSlice (Some [])).
Proof. reflexivity. Qed.

(** ** Only zero fields are written *)

Section Walk.

Variable r : defaulterRegistry.
Variable env : decls.

(** A field that is not zero comes out of the loop body as it went in. *)
Lemma applyLeaf_not_zero (extract : DefaultExtractor) (canSet : bool)
    (path : string) (field : reflect.StructField) (fieldValue : Value) :
  IsZero fieldValue = false ->
  applyLeaf r extract canSet path field fieldValue = (Nil, fieldValue).
Proof. intros H. unfold applyLeaf. rewrite H. reflexivity. Qed.

Lemma applyFields_untouched
    (step : reflect.StructField -> Value -> option (outcome * Value))
    (fs : list reflect.StructField) :
  (∀ f x o x', step f x = Some (o, x') -> untouched env (reflect.Typ f) x x') ->
  ∀ vs o vs', applyFields step fs vs = Some (o, vs') ->
              untouchedFields env fs vs vs'.
Proof.
  intros Hstep. induction fs as [|f fs IH]; intros vs o vs' H.
  - destruct vs; simpl in H; inversion H; apply untouchedFields_same.
  - destruct vs as [|x vs]; simpl in H; [inversion H; apply untouchedFields_same|].
    destruct (step f x) as [[o1 x1]|] eqn:E; [|discriminate].
    pose proof (Hstep _ _ _ _ E) as Hx.
    destruct o1;
      try (inversion H; subst; apply untouchedFields_cons;
           [exact Hx|apply untouchedFields_same]).
    destruct (applyFields step fs vs) as [[o2 vs2]|] eqn:E2; [|discriminate].
    inversion H; subst. apply untouchedFields_cons; [exact Hx|]. eapply IH. exact E2.
Qed.

Lemma applyField_untouched (extract : DefaultExtractor)
    (rec : bool -> reflect.rtype -> Value -> string -> option (outcome * Value))
    (zero : reflect.rtype -> option Value) (ro : bool) (path : string) :
  (∀ ro t v path o v', rec ro t v path = Some (o, v') -> untouched env t v v') ->
  ∀ f x o x', applyField r extract rec zero ro path f x = Some (o, x') ->
              untouched env (reflect.Typ f) x x'.
Proof.
  intros Hrec f x o x' H. unfold applyField in H.
  assert (Hleaf : isNested (reflect.Typ f) = false ->
                  Some (applyLeaf r extract
                          (negb (ro || negb (reflect.IsExported f))) path f x)
                  = Some (o, x') -> untouched env (reflect.Typ f) x x').
  { intros Hn E. destruct (IsZero x) eqn:Hz.
    - by apply untouched_zero.
    - rewrite applyLeaf_not_zero in E by assumption. inversion E. apply untouched_same. }
  destruct (reflect.Typ f) as [b|e|n e|k e|e|id] eqn:Et;
    try (apply Hleaf; [reflexivity|exact H]).
  - destruct e as [b|e|n e|k e|e|id];
      try (apply Hleaf; [reflexivity|exact H]).
    destruct x as [| | | | | | | |[y|]| |]; try (inversion H; apply untouched_same).
    + destruct (rec _ _ y _) as [[o1 y1]|] eqn:E; [|discriminate].
      inversion H; subst. apply untouched_pointer. eapply Hrec. exact E.
    + destruct (negb (ro || negb (reflect.IsExported f)));
        [|inversion H; apply untouched_same].
      destruct (zero _) as [z|]; [|discriminate].
      destruct (rec _ _ z _) as [[o1 y1]|] eqn:E; [|discriminate].
      inversion H; subst. apply untouched_allocated.
  - eapply Hrec. exact H.
Qed.

Lemma DoApplyDefaults_untouched (fuel : nat) :
  ∀ ro t v path o v',
    DoApplyDefaults r env fuel ro t v path = Some (o, v') -> untouched env t v v'.
Proof.
  induction fuel as [|fuel IH]; intros ro t v path o v' H; simpl in H; [discriminate|].
  destruct (extractor r) as [extract|]; [|inversion H; apply untouched_same].
  destruct (decide (size (defaulters r) = 0%nat)) as [Hsz|Hsz];
    [inversion H; apply untouched_same|].
  assert (Hwalk : ∀ id vs o vs',
            applyFields (applyField r extract (DoApplyDefaults r env fuel)
                           (Zero env (S (size (declared env)))) ro path) (fields_of env id) vs
            = Some (o, vs') -> untouchedFields env (fields_of env id) vs vs').
  { intros id vs o1 vs1. apply applyFields_untouched.
    apply applyField_untouched. exact IH. }
  destruct t as [b|e|m e|k e|e|id]; try (inversion H; apply untouched_same).
  - destruct e as [b|e|m e|k e|e|id]; try (inversion H; apply untouched_same).
    destruct v as [| | | | | | | |[y|]| |]; try (inversion H; apply untouched_same).
    destruct y; try (inversion H; apply untouched_same).
    destruct (applyFields _ _ _) as [[o1 vs1]|] eqn:E; [|discriminate].
    inversion H; subst. apply untouched_pointer, untouched_struct. eapply Hwalk. exact E.
  - destruct v; try (inversion H; apply untouched_same).
    destruct (applyFields _ _ _) as [[o1 vs1]|] eqn:E; [|discriminate].
    inversion H; subst. apply untouched_struct. eapply Hwalk. exact E.
Qed.

End Walk.

Lemma meets_field (env : decls) (seen : gset reflect.rtype) (id : string)
    (f : reflect.StructField) :
  f ∈ fields_of env id ->
  meets_on env ({[reflect.StructOf id]} ∪ seen) (reflect.Typ f) ->
  meets_on env seen (reflect.StructOf id).
Proof.
  intros Hf (s & Hrtc & Hs). unfold meets_on. simpl.
  assert (Hedge : field_edge env (reflect.StructOf id) (deref (reflect.Typ f))).
  { exists id, f. auto. }
  destruct Hs as [Hs|Hs].
  - apply elem_of_union in Hs as [Hs|Hs].
    + apply elem_of_singleton in Hs. subst s.
      exists (reflect.StructOf id). split; [apply rtc_refl|right].
      eapply tc_rtc_r; [apply tc_once; exact Hedge|exact Hrtc].
    + exists s. split; [eapply rtc_l; eauto|by left].
  - exists s. split; [eapply rtc_l; eauto|by right].
Qed.

Lemma fields_declared (env : decls) (id : string) (f : reflect.StructField) :
  f ∈ fields_of env id -> id ∈ dom env.
Proof.
  unfold fields_of. intros Hf. apply elem_of_dom.
  destruct (env !! id); [eauto|]. by apply elem_of_nil in Hf.
Qed.

Lemma applyFields_same
    (step : reflect.StructField -> Value -> option (outcome * Value))
    (p : reflect.StructField -> Value -> bool) (fs : list reflect.StructField) :
  (∀ f x, f ∈ fs -> p f x = true -> step f x = Some (Nil, x)) ->
  ∀ vs, both p fs vs = true -> applyFields step fs vs = Some (Nil, vs).
Proof.
  induction fs as [|f fs IH]; intros Hstep vs Hb.
  - destruct vs; [reflexivity|discriminate].
  - destruct vs as [|x vs]; [discriminate|]. simpl in Hb.
    apply andb_true_iff in Hb as [Hx Hb]. simpl.
    rewrite (Hstep f x) by (auto; left).
    rewrite IH; [reflexivity| |assumption].
    intros g y Hg. apply Hstep. by right.
Qed.

Lemma allSet_leaf (env : decls) (t : reflect.rtype) (v : Value) :
  isNested t = false -> allSet env t v = negb (IsZero v).
Proof.
  intros Hn. destruct t as [b|e|m e|k e|e|id]; try discriminate Hn;
    try (destruct v; reflexivity).
  destruct e; try discriminate Hn; destruct v; reflexivity.
Qed.

Section AllSet.

Variable r : defaulterRegistry.
Variable env : decls.
Variable extract : DefaultExtractor.
Hypothesis Hextract : extractor r = Some extract.
Hypothesis Hdefaulters : size (defaulters r) <> 0%nat.

Lemma DoApplyDefaults_allSet (fuel : nat) :
  ∀ seen ro id v path,
    ¬ meets_on env seen (reflect.StructOf id) ->
    (room_of env seen < fuel)%nat ->
    allSet env (reflect.StructOf id) v = true ->
    DoApplyDefaults r env fuel ro (reflect.StructOf id) v path = Some (Nil, v).
Proof.
  induction fuel as [|fuel IH]; intros seen ro id v path Hm Hroom Hall; [lia|].
  simpl. rewrite Hextract.
  destruct (decide (size (defaulters r) = 0%nat)) as [Hsz|_]; [contradiction|].
  destruct v as [| | | | | | | | |vs|]; try discriminate Hall. simpl in Hall.
  assert (Hns : reflect.StructOf id ∉ seen).
  { intros Hin. apply Hm. exists (reflect.StructOf id).
    split; [apply rtc_refl|by left]. }
  rewrite (applyFields_same _ (fun f x => allSet env (reflect.Typ f) x));
    [reflexivity| |assumption].
  intros f x Hf Hx.
  assert (Hrec : ∀ ro' id' y path',
            deref (reflect.Typ f) = reflect.StructOf id' ->
            allSet env (reflect.StructOf id') y = true ->
            DoApplyDefaults r env fuel ro' (reflect.StructOf id') y path'
            = Some (Nil, y)).
  { intros ro' id' y path' Hd Hy.
    apply (IH ({[reflect.StructOf id]} ∪ seen)); [| |assumption].
    - intros Hmeets. apply Hm. apply (meets_field env seen id f Hf).
      destruct Hmeets as (s & Hrtc & Hs). exists s. rewrite Hd. auto.
    - pose proof (room_mark env id seen (fields_declared env id f Hf) Hns). lia. }
  unfold applyField.
  destruct (reflect.Typ f) as [b|e|m e|k e|e|id'] eqn:Et;
    try (rewrite applyLeaf_not_zero; [reflexivity|];
         rewrite allSet_leaf in Hx by reflexivity; by apply negb_true_iff in Hx).
  - destruct e as [b|e|m e|k e|e|id'];
      try (rewrite applyLeaf_not_zero; [reflexivity|];
           rewrite allSet_leaf in Hx by reflexivity; by apply negb_true_iff in Hx).
    simpl in Hx. destruct x as [| | | | | | | |[y|]| |]; try discriminate Hx.
    destruct y; try discriminate Hx.
    rewrite Hrec; [reflexivity|reflexivity|exact Hx].
  - apply Hrec; [reflexivity|exact Hx].
Qed.

End AllSet.

(** A record whose fields are all set, at every level, is a finite tree:
    no struct type recurs along a descent through the fields of its type. *)
Lemma both_elem {A B : Type} (p : A -> B -> bool) (xs : list A) (ys : list B) (x : A) :
  both p xs ys = true -> x ∈ xs -> ∃ y, y ∈ ys ∧ p x y = true.
Proof.
  revert ys. induction xs as [|a xs IH]; intros [|b ys] Hb Hx; try discriminate.
  - by apply elem_of_nil in Hx.
  - simpl in Hb. apply andb_true_iff in Hb as [Hab Hb].
    apply elem_of_cons in Hx as [->|Hx].
    + exists b. split; [left|assumption].
    + destruct (IH ys Hb Hx) as (y & Hy & Hp). exists y. split; [by right|assumption].
Qed.

Lemma vsize_elem (x : Value) (l : list Value) :
  x ∈ l -> (vsize x <= list_sum (List.map vsize l))%nat.
Proof.
  induction l as [|a l IH]; intros Hx; [by apply elem_of_nil in Hx|].
  simpl. apply elem_of_cons in Hx as [->|Hx]; [lia|]. specialize (IH Hx). lia.
Qed.

Lemma allSet_field (env : decls) (id id' : string) (v : Value)
    (f : reflect.StructField) :
  allSet env (reflect.StructOf id) v = true ->
  f ∈ fields_of env id ->
  deref (reflect.Typ f) = reflect.StructOf id' ->
  ∃ v', allSet env (reflect.StructOf id') v' = true ∧ (vsize v' < vsize v)%nat.
Proof.
  intros Hall Hf Hd.
  destruct v as [| | | | | | | | |vs|]; try discriminate Hall. simpl in Hall.
  destruct (both_elem _ _ _ f Hall Hf) as (x & Hx & Hp).
  pose proof (vsize_elem x vs Hx) as Hsz.
  destruct (reflect.Typ f) as [b|e|m e|k e|e|id1] eqn:Et; try discriminate Hd.
  - simpl in Hd. subst e.
    destruct x as [| | | | | | | |[y|]| |]; try discriminate Hp.
    destruct y; try discriminate Hp.
    exists (VStruct fieldValues). split; [exact Hp|]. simpl in *. lia.
  - simpl in Hd. inversion Hd; subst id1.
    exists x. split; [exact Hp|]. simpl. lia.
Qed.

Lemma allSet_reach (env : decls) (t s : reflect.rtype) :
  rtc (field_edge env) t s ->
  ∀ id v, t = reflect.StructOf id -> allSet env t v = true ->
    (∃ id' v', s = reflect.StructOf id' ∧ allSet env s v' = true
               ∧ (vsize v' <= vsize v)%nat)
    ∨ (∀ w, ¬ field_edge env s w).
Proof.
  induction 1 as [t|t u s Htu Hus IH]; intros id v -> Hall.
  - left. exists id, v. auto.
  - destruct Htu as (id0 & f & E & Hf & ->). inversion E; subst id0.
    destruct (deref (reflect.Typ f)) as [b|e|m e|k e|e|id1] eqn:Hd;
      try (right; inversion Hus as [|? y ? Hxy]; subst;
           [intros w Hw|]; [apply edge_struct in Hw|apply edge_struct in Hxy];
           match goal with
           | H : ∃ id, _ = reflect.StructOf id ∧ _ |- _ =>
               destruct H as (? & H & _); discriminate H
           end).
    destruct (allSet_field env id id1 v f Hall Hf Hd) as (v1 & Hall1 & Hlt).
    destruct (IH id1 v1 eq_refl Hall1) as [(id' & v' & -> & Hall' & Hle)|Hno];
      [left|right; assumption].
    exists id', v'. repeat split; [assumption|lia].
Qed.

Lemma allSet_no_cycle (env : decls) (n : nat) :
  ∀ id v, (vsize v < n)%nat -> allSet env (reflect.StructOf id) v = true ->
          ¬ tc (field_edge env) (reflect.StructOf id) (reflect.StructOf id).
Proof.
  induction n as [|n IH]; intros id v Hn Hall Htc; [lia|].
  assert (Hstep : ∃ u, field_edge env (reflect.StructOf id) u
                       ∧ rtc (field_edge env) u (reflect.StructOf id)).
  { inversion Htc as [? ? Hxy|? y ? Hxy Hyz]; subst.
    - exists (reflect.StructOf id). split; [assumption|apply rtc_refl].
    - exists y. split; [assumption|by apply tc_rtc]. }
  destruct Hstep as (u & (id0 & f & E & Hf & ->) & Hrtc). inversion E; subst id0.
  destruct (deref (reflect.Typ f)) as [b|e|m e|k e|e|id1] eqn:Hd;
    try (inversion Hrtc as [|? y ? Hxy]; subst;
         apply edge_struct in Hxy; match goal with
           | H : ∃ id, _ = reflect.StructOf id ∧ _ |- _ =>
               destruct H as (? & H & _); discriminate H
           end).
  destruct (allSet_field env id id1 v f Hall Hf Hd) as (v1 & Hall1 & Hlt).
  destruct (allSet_reach env _ _ Hrtc id1 v1 eq_refl Hall1)
    as [(id' & v' & E' & Hall' & Hle)|Hno].
  - inversion E'; subst id'. apply (IH id v'); [lia|assumption|assumption].
  - inversion Htc as [? ? Hxy|? y ? Hxy Hyz]; subst; eapply Hno; eauto.
Qed.

Lemma allSet_typeHasCycles (env : decls) (id : string) (v : Value) :
  allSet env (reflect.StructOf id) v = true ->
  typeHasCycles env (reflect.StructOf id) = false.
Proof.
  intros Hall. destruct (typeHasCycles env (reflect.StructOf id)) eqn:Hc;
    [|reflexivity].
  exfalso. apply typeHasCycles_sound in Hc as (s & Hrtc & Htc). simpl in Hrtc.
  destruct (allSet_reach env _ _ Hrtc id v eq_refl Hall)
    as [(id' & v' & -> & Hall' & _)|Hno].
  - eapply (allSet_no_cycle env (S (vsize v'))); eauto.
  - inversion Htc as [? ? Hxy|? y ? Hxy Hyz]; subst; eapply Hno; eauto.
Qed.

(** What [untouched] says of a field that is not nested and not zero. *)
Lemma untouched_not_zero (env : decls) (t : reflect.rtype) (v v' : Value) :
  untouched env t v v' -> isNested t = false -> IsZero v = false -> v' = v.
Proof.
  intros H Hn Hz. inversion H; subst; try reflexivity; try discriminate.
  congruence.
Qed.

(** C1. [ApplyDefaults] writes only fields that hold the zero value, at
    every level: whatever its outcome, the record afterwards is
    [untouched] with respect to the record before.  And for a registry that
    has an extractor and defaulters, when every field of the record is set
    at every level, it returns [nil] and the record is the same.  (Such a
    record, a finite tree, has a type that passes the cycle check.) *)
Theorem defaults_only_for_zero_fields (r : defaulterRegistry) (env : decls)
    (id : string) (target : Value) :
  (∃ o target',
     ApplyDefaults r env (reflect.PointerTo (reflect.StructOf id)) (VPtr (Some target))
     = (o, VPtr (Some target'))
     ∧ untouched env (reflect.StructOf id) target target')
  ∧ (extractor r <> None ->
     size (defaulters r) <> 0%nat ->
     allSet env (reflect.StructOf id) target = true ->
     ApplyDefaults r env (reflect.PointerTo (reflect.StructOf id)) (VPtr (Some target))
     = (Nil, VPtr (Some target))).
Proof.
  split.
  - unfold ApplyDefaults.
    destruct (typeHasCycles env (reflect.StructOf id)).
    { eexists _, _. split; [reflexivity|apply untouched_same]. }
    destruct (DoApplyDefaults _ _ _ _ _ _ _) as [[o target']|] eqn:E.
    + exists o, target'. split; [reflexivity|].
      eapply DoApplyDefaults_untouched. exact E.
    + eexists _, _. split; [reflexivity|apply untouched_same].
  - intros Hex Hds Hall. pose proof (allSet_typeHasCycles env id target Hall) as Hcyc.
    unfold ApplyDefaults. rewrite Hcyc.
    destruct (extractor r) as [extract|] eqn:Hextract; [|contradiction].
    rewrite (DoApplyDefaults_allSet r env extract Hextract Hds _ ∅);
      [reflexivity| | |assumption].
    + intros Hm. apply meets_empty in Hm.
      apply typeHasCycles_complete in Hm. congruence.
    + rewrite room_empty. lia.
Qed.

Lemma defaults_only_for_zero_fields_witness :
  ApplyDefaults (instance lib_none) env_nested
    (reflect.PointerTo (reflect.StructOf "struct { Field1 string; Nested struct {...} }"))
    (VPtr (Some (VStruct [VString "baz"; VStruct [VString "qux"; VString "set"]])))
  = (Nil, VPtr (Some (VStruct [VString "baz"; VStruct [VString "qux"; VString "set"]]))).
Proof.
  apply (proj2 (defaults_only_for_zero_fields (instance lib_none) env_nested
                  "struct { Field1 string; Nested struct {...} }"
                  (VStruct [VString "baz"; VStruct [VString "qux"; VString "set"]]))).
  - discriminate.
  - rewrite instance_size. discriminate.
  - vm_compute. reflexivity.
Defined.

(** The test itself: [Field3] is zero and gets its default, the others
    keep their values. *)
Example ApplyDefaults_nested :
  ApplyDefaults (instance lib_none) env_nested
    (reflect.PointerTo (reflect.StructOf "struct { Field1 string; Nested struct {...} }"))
    (VPtr (Some (VStruct [VString "baz"; VStruct [VString "qux"; VString ""]])))
  = (Nil, VPtr (Some (VStruct [VString "baz"; VStruct [VString "qux"; VString "tmp"]]))).
Proof. vm_compute. reflexivity. Qed.

(** ** Applying the defaults twice *)

Lemma Zero_Array (env : decls) (fuel n : nat) (e : reflect.rtype) :
  Zero env fuel (reflect.ArrayOf n e)
  = match Zero env fuel e with
    | Some z => Some (VArray (replicate n z))
    | None => None
    end.
Proof. destruct fuel; reflexivity. Qed.

Lemma Zero_Struct (env : decls) (fuel : nat) (id : string) :
  Zero env (S fuel) (reflect.StructOf id)
  = match mapM (fun f => Zero env fuel (reflect.Typ f)) (fields_of env id) with
    | Some zs => Some (VStruct zs)
    | None => None
    end.
Proof. reflexivity. Qed.

Lemma both_Forall2 {A B : Type} (p : A -> B -> bool) (xs : list A) (ys : list B) :
  Forall2 (fun x y => p x y = true) xs ys -> both p xs ys = true.
Proof.
  induction 1 as [|x y xs ys Hxy _ IH]; simpl; [reflexivity|].
  by rewrite Hxy, IH.
Qed.

(** The zero value of a type has the form of the type. *)
Lemma Zero_fits (env : decls) (fuel : nat) :
  ∀ t z, Zero env fuel t = Some z -> fits env t z = true.
Proof.
  induction fuel as [|fuel IHf]; induction t as [b|e IHe|n e IHe|k _ e _|e _|id];
    intros z H;
    try (inversion H; subst; try destruct b; reflexivity).
  - rewrite Zero_Array in H. destruct (Zero env 0 e) as [z0|]; [|discriminate].
    inversion H; subst. simpl. rewrite length_replicate, Nat.eqb_refl. simpl.
    specialize (IHe z0 eq_refl). clear H. induction n; simpl; [reflexivity|].
    by rewrite IHe.
  - rewrite Zero_Array in H. destruct (Zero env (S fuel) e) as [z0|]; [|discriminate].
    inversion H; subst. simpl. rewrite length_replicate, Nat.eqb_refl. simpl.
    specialize (IHe z0 eq_refl). clear H. induction n; simpl; [reflexivity|].
    by rewrite IHe.
  - rewrite Zero_Struct in H.
    destruct (mapM _ _) as [zs|] eqn:E; [|discriminate].
    inversion H; subst. simpl. apply both_Forall2.
    apply mapM_Some in E. eapply Forall2_impl; [exact E|].
    intros f x Hx. apply IHf. exact Hx.
Qed.

#[local] Arguments Zero : simpl never.

Section Twice.

Variable r : defaulterRegistry.
Variable env : decls.
Hypothesis Hbehaved : wellBehaved env r.
Hypothesis Halike : zerosAlike env r.

(** A chain of defaulters that keep to the contract leaves a value of the
    type, and the value it found when none of them set one. *)
Lemma runChain_behaved (field : reflect.StructField) (defaultStr path : string)
    (ds : list DefaulterWithPriority) :
  (∀ d, d ∈ ds -> behaves env (defaulter d) field) ->
  ∀ fieldValue result somethingSet result' somethingSet' fieldValue',
    fits env (reflect.Typ field) fieldValue = true ->
    runChain ds defaultStr path field fieldValue result somethingSet
    = ChainDone result' somethingSet' fieldValue' ->
    fits env (reflect.Typ field) fieldValue' = true
    ∧ (somethingSet' = false -> fieldValue' = fieldValue ∧ somethingSet = false).
Proof.
  induction ds as [|d ds IH]; intros Hds fv result s result' s' fv' Hfit H;
    simpl in H.
  - inversion H; subst. auto.
  - pose proof (Hds d ltac:(left) defaultStr path fv Hfit) as Hd.
    destruct (HandleField (defaulter d) defaultStr path field fv)
      as [callNext set err fv1|fv1]; [|discriminate].
    destruct Hd as [Hfit1 Hsame].
    destruct callNext.
    + apply IH in H as [Hfit' Hsame']; [|intros; apply Hds; by right|assumption].
      split; [assumption|]. intros Hs'. destruct (Hsame' Hs') as [-> Hset].
      destruct set; [discriminate|]. auto.
    + inversion H; subst. split; [assumption|].
      intros Hs. destruct set; [discriminate|]. auto.
Qed.

Lemma pointerToPointer_dec (t : reflect.rtype) :
  (∃ e, t = reflect.PointerTo (reflect.PointerTo e))
  ∨ (∀ e, t <> reflect.PointerTo (reflect.PointerTo e)).
Proof.
  destruct t as [b|e|n e|k e|e|id]; try (right; intros; discriminate).
  destruct e as [b|e|n e|k e|e|id]; try (right; intros; discriminate).
  left. eauto.
Qed.

(** The loop body, for a zero field with a default whose type is not a
    pointer to a pointer. *)
Lemma applyLeaf_found (extract : DefaultExtractor) (canSet : bool)
    (path : string) (field : reflect.StructField) (fieldValue : Value)
    (defaultStr : string) :
  IsZero fieldValue = true ->
  ExtractDefault extract field = (defaultStr, true, None) ->
  (∀ e, reflect.Typ field <> reflect.PointerTo (reflect.PointerTo e)) ->
  applyLeaf r extract canSet path field fieldValue
  = match defaulters r !! pointeeKind (reflect.Typ field) with
    | Some ds =>
        if negb canSet
        then if ignoreCannotSet r then (Nil, fieldValue)
             else (Fails (defaultzError
                            (NewError None ErrCannotSetField path field
                               "cannot set field")),
                   fieldValue)
        else
          match runChain ds defaultStr path field fieldValue [] false with
          | ChainPanicked fieldValue' => (Panics, fieldValue')
          | ChainDone result somethingSet fieldValue' =>
              (chainOutcome result somethingSet, fieldValue')
          end
    | None =>
        (Fails (defaultzError
                  (NewError None ErrNotSupported path field
                     (String.concat ""
                        ["no defaulters found for kind '";
                         Kind_String (pointeeKind (reflect.Typ field)); "'"]))),
         fieldValue)
    end.
Proof.
  intros Hz He Hpp. unfold applyLeaf. rewrite Hz, He. simpl.
  destruct (reflect.Typ field) as [b|e|n e|k e|e|id] eqn:Et; try reflexivity.
  destruct e; try reflexivity. exfalso. eapply Hpp. reflexivity.
Qed.

(** A chain of defaulters that do not tell the zero values apart ends in
    the same way on two of them: with the same errors and the same value,
    or with each value as it was when none of them set one. *)
Lemma runChain_alike (field : reflect.StructField) (defaultStr path : string)
    (ds : list DefaulterWithPriority) :
  (∀ d, d ∈ ds -> behaves env (defaulter d) field) ->
  (∀ d, d ∈ ds -> zeroBlind env (defaulter d) field) ->
  ∀ x y result somethingSet result' somethingSet' x',
    fits env (reflect.Typ field) x = true ->
    fits env (reflect.Typ field) y = true ->
    IsZero x = true ->
    IsZero y = true ->
    runChain ds defaultStr path field x result somethingSet
    = ChainDone result' somethingSet' x' ->
    ∃ y', runChain ds defaultStr path field y result somethingSet
          = ChainDone result' somethingSet' y'
          ∧ (y' = x' ∨ (x' = x ∧ y' = y ∧ somethingSet' = somethingSet)).
Proof.
  induction ds as [|d ds IH];
    intros Hb Hblind x y result st result' st' x' Hfx Hfy Hzx Hzy H;
    cbn [runChain] in H |- *.
  - inversion H; subst. exists y. split; [reflexivity|]. right. auto.
  - pose proof (Hblind d ltac:(left) defaultStr path x y Hfx Hfy Hzx Hzy) as Hd.
    pose proof (Hb d ltac:(left) defaultStr path x Hfx) as Hbx.
    pose proof (Hb d ltac:(left) defaultStr path y Hfy) as Hby.
    destruct (HandleField (defaulter d) defaultStr path field x)
      as [callNext set err x1|x1]; [|discriminate].
    destruct (HandleField (defaulter d) defaultStr path field y)
      as [callNext' set' err' y1|y1]; [|contradiction].
    destruct Hd as (-> & -> & -> & Hset).
    destruct Hbx as [Hfx1 Hux], Hby as [Hfy1 Huy].
    cbv zeta in H |- *. destruct set.
    + rewrite (Hset eq_refl). exists x'. split; [exact H|]. left. reflexivity.
    + rewrite (Hux eq_refl) in H. rewrite (Huy eq_refl).
      destruct callNext.
      * apply (IH (fun d' Hd' => Hb d' (list_elem_of_further _ _ _ Hd'))
                  (fun d' Hd' => Hblind d' (list_elem_of_further _ _ _ Hd'))
                  x y _ _ _ _ _ Hfx Hfy Hzx Hzy H).
      * inversion H; subst. exists y. split; [reflexivity|]. right. auto.
Qed.

(** The loop body a second time, on the field as the first time left it. *)
Lemma applyLeaf_twice (extract : DefaultExtractor) (canSet : bool)
    (path : string) (field : reflect.StructField) (x x' : Value) (o : outcome) :
  applyLeaf r extract canSet path field x = (o, x') ->
  o <> Panics ->
  fits env (reflect.Typ field) x = true ->
  applyLeaf r extract canSet path field x' = (o, x').
Proof.
  intros H Hnp Hfit.
  assert (Hsame : x' = x -> applyLeaf r extract canSet path field x' = (o, x')).
  { intros ->. exact H. }
  destruct (IsZero x) eqn:Hz.
  2: { rewrite applyLeaf_not_zero in H by assumption. inversion H; subst. auto. }
  destruct (ExtractDefault extract field) as [[defaultStr found] err] eqn:He.
  destruct err as [err|].
  { unfold applyLeaf in H. rewrite Hz, He in H.
    destruct found; simpl in H; inversion H; subst; auto. }
  destruct found.
  2: { unfold applyLeaf in H. rewrite Hz, He in H. simpl in H. inversion H; subst; auto. }
  destruct (pointerToPointer_dec (reflect.Typ field)) as [[e Et]|Hpp].
  { unfold applyLeaf in H. rewrite Hz, He, Et in H. simpl in H. inversion H; subst; auto. }
  rewrite (applyLeaf_found extract canSet path field x defaultStr Hz He Hpp) in H.
  destruct (defaulters r !! pointeeKind (reflect.Typ field)) as [ds|] eqn:Hds.
  2: { inversion H; subst; auto. }
  destruct canSet; simpl in H.
  2: { destruct (ignoreCannotSet r); inversion H; subst; auto. }
  destruct (runChain ds defaultStr path field x [] false)
    as [result somethingSet x1|x1] eqn:Ec.
  2: { inversion H; subst. contradiction. }
  inversion H; subst x1 o. clear H.
  destruct (runChain_behaved field defaultStr path ds
              (fun d Hd => Hbehaved field ds d Hds Hd Hpp)
              x [] false result somethingSet x' Hfit Ec) as [Hfit' Hunset].
  destruct (IsZero x') eqn:Hz'.
  - destruct (runChain_alike field defaultStr path ds
                (fun d Hd => Hbehaved field ds d Hds Hd Hpp)
                (fun d Hd => Halike field ds d Hds Hd Hpp)
                x x' [] false result somethingSet x' Hfit Hfit' Hz Hz' Ec)
      as (y' & Ec' & Hy').
    rewrite (applyLeaf_found extract true path field x' defaultStr Hz' He Hpp).
    rewrite Hds. simpl. rewrite Ec'. f_equal.
    destruct Hy' as [->|(_ & -> & _)]; reflexivity.
  - rewrite applyLeaf_not_zero by assumption. f_equal.
    destruct somethingSet; [reflexivity|].
    destruct (Hunset eq_refl) as [-> _]. congruence.
Qed.

Lemma applyFields_twice
    (step : reflect.StructField -> Value -> option (outcome * Value))
    (fs : list reflect.StructField) :
  (∀ f x o x', step f x = Some (o, x') -> o <> Panics ->
               fits env (reflect.Typ f) x = true -> step f x' = Some (o, x')) ->
  ∀ vs o vs', applyFields step fs vs = Some (o, vs') -> o <> Panics ->
              both (fun f x => fits env (reflect.Typ f) x) fs vs = true ->
              applyFields step fs vs' = Some (o, vs').
Proof.
  intros Hstep. induction fs as [|f fs IH]; intros vs o vs' H Hnp Hfit.
  - destruct vs; simpl in H; inversion H; subst; reflexivity.
  - destruct vs as [|x vs]; [discriminate Hfit|]. simpl in H, Hfit.
    apply andb_true_iff in Hfit as [Hx Hfit].
    destruct (step f x) as [[o1 x1]|] eqn:E; [|discriminate].
    destruct o1.
    + destruct (applyFields step fs vs) as [[o2 vs2]|] eqn:E2; [|discriminate].
      inversion H; subst. simpl.
      rewrite (Hstep f x Nil x1 E ltac:(discriminate) Hx).
      rewrite (IH vs o vs2 E2 Hnp Hfit). reflexivity.
    + inversion H; subst. simpl. by rewrite (Hstep f x _ x1 E Hnp Hx).
    + inversion H; subst. simpl. by rewrite (Hstep f x _ x1 E Hnp Hx).
    + inversion H; subst. simpl. by rewrite (Hstep f x _ x1 E Hnp Hx).
    + inversion H; subst. contradiction.
Qed.

Lemma applyField_twice (extract : DefaultExtractor)
    (rec : bool -> reflect.rtype -> Value -> string -> option (outcome * Value))
    (fuel : nat) (ro : bool) (path : string) :
  (∀ ro t v path o v', rec ro t v path = Some (o, v') -> o <> Panics ->
                       fits env t v = true -> rec ro t v' path = Some (o, v')) ->
  ∀ f x o x',
    applyField r extract rec (Zero env fuel) ro path f x = Some (o, x') ->
    o <> Panics ->
    fits env (reflect.Typ f) x = true ->
    applyField r extract rec (Zero env fuel) ro path f x' = Some (o, x').
Proof.
  intros Hrec f x o x' H Hnp Hfit. unfold applyField in *.
  assert (Hleaf : ∀ canSet,
            Some (applyLeaf r extract canSet path f x) = Some (o, x') ->
            Some (applyLeaf r extract canSet path f x') = Some (o, x')).
  { intros canSet E. f_equal. eapply applyLeaf_twice; eauto. congruence. }
  destruct (reflect.Typ f) as [b|e|m e|k e|e|id] eqn:Et;
    try (apply Hleaf; exact H).
  - destruct e as [b|e|m e|k e|e|id]; try (apply Hleaf; exact H).
    destruct x as [| | | | | | | |[y|]| |];
      try (inversion H; subst; contradiction).
    + destruct (rec _ _ y _) as [[o1 y1]|] eqn:E; [|discriminate].
      inversion H; subst.
      rewrite (Hrec _ _ _ _ _ _ E Hnp Hfit). reflexivity.
    + destruct (negb (ro || negb (reflect.IsExported f)));
        [|inversion H; subst; contradiction].
      destruct (Zero env fuel (reflect.StructOf id)) as [z|] eqn:Ez; [|discriminate].
      destruct (rec _ _ z _) as [[o1 y1]|] eqn:E; [|discriminate].
      inversion H; subst.
      rewrite (Hrec _ _ _ _ _ _ E Hnp (Zero_fits env fuel _ _ Ez)). reflexivity.
  - eapply Hrec; eauto.
Qed.

(** [DoApplyDefaults] a second time, on the value as the first call left
    it, has the outcome of the first call and changes nothing. *)
Lemma DoApplyDefaults_twice (fuel : nat) :
  ∀ ro t v path o v',
    DoApplyDefaults r env fuel ro t v path = Some (o, v') ->
    o <> Panics ->
    fits env t v = true ->
    DoApplyDefaults r env fuel ro t v' path = Some (o, v').
Proof.
  induction fuel as [|fuel IH]; intros ro t v path o v' H Hnp Hfit;
    [discriminate|].
  assert (Hsame : v' = v ->
            DoApplyDefaults r env (S fuel) ro t v' path = Some (o, v')).
  { intros ->. exact H. }
  simpl in H |- *.
  destruct (extractor r) as [extract|]; [|inversion H; subst; auto].
  destruct (decide (size (defaulters r) = 0%nat)) as [Hsz|Hsz];
    [inversion H; subst; auto|].
  assert (Hwalk : ∀ id vs o vs',
            applyFields (applyField r extract (DoApplyDefaults r env fuel)
                           (Zero env (S (size (declared env)))) ro path) (fields_of env id) vs
            = Some (o, vs') -> o <> Panics ->
            both (fun f x => fits env (reflect.Typ f) x) (fields_of env id) vs = true ->
            applyFields (applyField r extract (DoApplyDefaults r env fuel)
                           (Zero env (S (size (declared env)))) ro path) (fields_of env id) vs'
            = Some (o, vs')).
  { intros id vs o1 vs1. apply applyFields_twice.
    apply applyField_twice. exact IH. }
  destruct t as [b|e|m e|k e|e|id]; try solve [inversion H; subst; auto].
  - destruct e as [b|e|m e|k e|e|id]; try solve [inversion H; subst; auto].
    destruct v as [| | | | | | | |[y|]| |]; try solve [inversion H; subst; auto].
    destruct y; try solve [inversion H; subst; auto].
    destruct (applyFields _ _ _) as [[o1 vs1]|] eqn:E; [|discriminate].
    inversion H; subst. rewrite (Hwalk _ _ _ _ E Hnp Hfit). reflexivity.
  - destruct v; try solve [inversion H; subst; auto].
    destruct (applyFields _ _ _) as [[o1 vs1]|] eqn:E; [|discriminate].
    inversion H; subst. rewrite (Hwalk _ _ _ _ E Hnp Hfit). reflexivity.
Qed.

End Twice.

(** ** The bundled defaulters keep to the contract *)

Lemma instance_lookup (lib : library) (k : reflect.Kind) :
  defaulters (instance lib) !! k = bundled lib k.
Proof. destruct k; reflexivity. Qed.

Ltac bundled_member Hd :=
  repeat (apply elem_of_cons in Hd as [->|Hd]);
  try (by apply elem_of_nil in Hd).

Ltac handle_cases :=
  repeat (first [progress simplify_eq/= | case_match]);
  repeat split; intros; try assumption; try reflexivity; try congruence.

Lemma instance_wellBehaved (lib : library) (env : decls) :
  wellBehaved env (instance lib).
Proof.
  intros field ds d Hds Hd Hpp s path fv Hfit.
  rewrite instance_lookup in Hds.
  destruct (reflect.Typ field) as [b|e|m e|k e|e|id] eqn:Et.
  - destruct b; simpl in Hds; inversion Hds; subst ds; bundled_member Hd;
      simpl; unfold setThroughPointer, pointeeKind; rewrite ?Et;
      handle_cases.
  - simpl in Hds; inversion Hds; subst ds; bundled_member Hd.
    simpl. rewrite Et. handle_cases.
  - discriminate Hds.
  - simpl in Hds; inversion Hds; subst ds; bundled_member Hd.
    simpl. rewrite Et. handle_cases.
  - destruct e as [b|e|m e|k e|e|id]; simpl in Hds; try discriminate Hds.
    + destruct b; simpl in Hds; inversion Hds; subst ds; bundled_member Hd;
        simpl; unfold setThroughPointer, pointeeKind; rewrite ?Et;
        handle_cases.
    + inversion Hds; subst ds; bundled_member Hd. simpl. rewrite Et. exact I.
    + inversion Hds; subst ds; bundled_member Hd. simpl. rewrite Et. exact I.
  - discriminate Hds.
Qed.

Lemma instance_zerosAlike (lib : library) (env : decls) :
  zerosAlike env (instance lib).
Proof.
  intros field ds d Hds Hd Hpp s path x y Hfx Hfy Hzx Hzy.
  rewrite instance_lookup in Hds.
  destruct (reflect.Typ field) as [b|e|m e|k e|e|id] eqn:Et.
  - destruct b; simpl in Hds; inversion Hds; subst ds; bundled_member Hd;
      simpl; unfold setThroughPointer, pointeeKind; rewrite ?Et;
      handle_cases.
  - simpl in Hds; inversion Hds; subst ds; bundled_member Hd.
    simpl. rewrite Et. handle_cases.
  - discriminate Hds.
  - simpl in Hds; inversion Hds; subst ds; bundled_member Hd.
    simpl. rewrite Et. handle_cases.
  - destruct e as [b|e|m e|k e|e|id]; simpl in Hds; try discriminate Hds.
    + destruct b; simpl in Hds; inversion Hds; subst ds; bundled_member Hd;
        simpl; unfold setThroughPointer, pointeeKind; rewrite ?Et;
        handle_cases.
    + inversion Hds; subst ds; bundled_member Hd. simpl. rewrite Et. exact I.
    + inversion Hds; subst ds; bundled_member Hd. simpl. rewrite Et. exact I.
  - discriminate Hds.
Qed.

(** The registry with the [signDefaulter] keeps to the contract of
    [HandleField]. *)
Lemma registry_sign_wellBehaved (env : decls) : wellBehaved env registry_sign.
Proof.
  intros field ds d Hds Hd Hpp s path fv Hfit.
  assert (Hd' : defaulter d = signDefaulter).
  { destruct (pointeeKind (reflect.Typ field)); try discriminate Hds.
    inversion Hds; subst ds. apply list_elem_of_singleton in Hd. by subst d. }
  rewrite Hd'. simpl.
  destruct fv; try exact I.
  assert (Hf : ∀ bits', fits env (reflect.Typ field) (VFloat bits') = true).
  { intros bits'. destruct (reflect.Typ field) as [b|e|m e|k e|e|id];
      try discriminate Hfit. destruct b; try discriminate Hfit; reflexivity. }
  destruct (bits =? 0)%Z; (split; [apply Hf|discriminate]).
Qed.

(** C3, as stated, fails: a defaulter may set a zero value, and a field
    that holds -0 is still zero for the second call.  With the
    [signDefaulter], which keeps to the contract of [HandleField], the
    first call sets the field from 0 to -0 and the second call sets it
    to 5. *)
Lemma second_call_sets_negative_zero_again :
  let t := reflect.PointerTo (reflect.StructOf "main.Reading") in
  ApplyDefaults registry_sign env_reading t (VPtr (Some (VStruct [VFloat 0])))
  = (Nil, VPtr (Some (VStruct [VFloat 0x8000000000000000])))
  ∧ ApplyDefaults registry_sign env_reading t
      (VPtr (Some (VStruct [VFloat 0x8000000000000000])))
    = (Nil, VPtr (Some (VStruct [VFloat 0x4014000000000000]))).
Proof. vm_compute. split; reflexivity. Qed.

(** C3, amended. When the defaulters of the registry keep to the contract
    of [HandleField] and do not tell the zero values of a field apart (the
    bundled ones do not read the field), and the first call returns (with
    [nil] or an error, not with a panic), a second call on the record as
    the first call left it has the same outcome and leaves the record the
    same. *)
Theorem ApplyDefaults_twice (r : defaulterRegistry) (env : decls)
    (t : reflect.rtype) (v v' : Value) (o : outcome) :
  wellBehaved env r ->
  zerosAlike env r ->
  fits env t v = true ->
  ApplyDefaults r env t v = (o, v') ->
  o <> Panics ->
  ApplyDefaults r env t v' = (o, v').
Proof.
  intros Hbehaved Halike Hfit H Hnp.
  assert (Hsame : v' = v -> ApplyDefaults r env t v' = (o, v')).
  { intros ->. exact H. }
  unfold ApplyDefaults in H |- *.
  destruct t as [b|e|m e|k e|e|id]; try solve [inversion H; subst; auto].
  destruct e as [b|e|m e|k e|e|id]; try solve [inversion H; subst; auto].
  destruct v as [| | | | | | | |[target|]| |]; try solve [inversion H; subst; auto].
  destruct (typeHasCycles env (reflect.StructOf id)) eqn:Hc;
    [inversion H; subst; auto|].
  destruct (DoApplyDefaults _ _ _ _ _ _ _) as [[o1 target1]|] eqn:E;
    [|inversion H; subst; contradiction].
  inversion H; subst. cbv beta iota.
  rewrite (DoApplyDefaults_twice r env Hbehaved Halike _ _ _ _ _ _ _ E Hnp Hfit).
  reflexivity.
Qed.

Lemma ApplyDefaults_twice_witness :
  let once := VPtr (Some (VStruct [VStruct [VInt 7]; VStruct [VInt 7];
                                   VPtr (Some (VStruct [VInt 7]))])) in
  ApplyDefaults (instance lib_none) env_siblings
    (reflect.PointerTo (reflect.StructOf "main.Pair")) once
  = (Nil, once).
Proof.
  intros once.
  apply (ApplyDefaults_twice (instance lib_none) env_siblings
           (reflect.PointerTo (reflect.StructOf "main.Pair"))
           (VPtr (Some (VStruct [VStruct [VInt 0]; VStruct [VInt 0]; VPtr None])))
           once Nil).
  - apply instance_wellBehaved.
  - apply instance_zerosAlike.
  - vm_compute. reflexivity.
  - vm_compute. reflexivity.
  - discriminate.
Defined.

(** The same after a call that failed: the fields set before the failure
    keep their values, and the second call fails in the same way. *)
Example ApplyDefaults_twice_failing :
  let r := instance lib_none in
  let t := reflect.PointerTo (reflect.StructOf "main.Both") in
  let env : decls :=
    {[ "main.Both" :=
         named "main" "Both"
           [exported "Good" (reflect.Basic reflect.t_int) [("default", "5")];
            exported "Bad" (reflect.Basic reflect.t_int) [("default", "five")];
            exported "Late" (reflect.Basic reflect.t_int) [("default", "6")]] ]} in
  let first := ApplyDefaults r env t (VPtr (Some (VStruct [VInt 0; VInt 0; VInt 0]))) in
  snd first = VPtr (Some (VStruct [VInt 5; VInt 0; VInt 0]))
  ∧ ApplyDefaults r env t (snd first) = first.
Proof. vm_compute. split; reflexivity. Qed.

(** ** The walk returns *)

Lemma applyFields_total
    (step : reflect.StructField -> Value -> option (outcome * Value))
    (fs : list reflect.StructField) :
  (∀ f x, f ∈ fs -> is_Some (step f x)) ->
  ∀ vs, is_Some (applyFields step fs vs).
Proof.
  induction fs as [|f fs IH]; intros Hstep vs; [destruct vs; eexists; reflexivity|].
  destruct vs as [|x vs]; [eexists; reflexivity|]. simpl.
  destruct (Hstep f x ltac:(left)) as [[o x1] ->].
  destruct (IH (fun g y Hg => Hstep g y ltac:(by right)) vs) as [[o2 vs2] ->].
  destruct o; eexists; reflexivity.
Qed.

Section Total.

Variable r : defaulterRegistry.
Variable env : decls.

(** Every declared struct type has a zero value: no struct type contains
    itself by value. *)
Hypothesis Hdeclared :
  ∀ id, id ∈ dom env ->
        is_Some (Zero env (S (size (declared env))) (reflect.StructOf id)).

Lemma Zero_of_any (id : string) :
  is_Some (Zero env (S (size (declared env))) (reflect.StructOf id)).
Proof.
  destruct (decide (id ∈ dom env)) as [Hid|Hid]; [by apply Hdeclared|].
  rewrite Zero_Struct. unfold fields_of.
  apply not_elem_of_dom in Hid. rewrite Hid. eexists. reflexivity.
Qed.

Lemma DoApplyDefaults_total (fuel : nat) :
  ∀ seen ro t v path,
    ¬ meets_on env seen t ->
    (room_of env seen < fuel)%nat ->
    is_Some (DoApplyDefaults r env fuel ro t v path).
Proof.
  induction fuel as [|fuel IH]; intros seen ro t v path Hm Hroom; [lia|].
  simpl.
  destruct (extractor r) as [extract|]; [|eexists; reflexivity].
  destruct (decide (size (defaulters r) = 0%nat)) as [Hsz|Hsz];
    [eexists; reflexivity|].
  assert (Hwalk : ∀ id vs, deref t = reflect.StructOf id ->
            is_Some (applyFields
                       (applyField r extract (DoApplyDefaults r env fuel)
                          (Zero env (S (size (declared env)))) ro path)
                       (fields_of env id) vs)).
  { intros id vs Hd. apply applyFields_total. intros f x Hf.
    assert (Hns : reflect.StructOf id ∉ seen).
    { intros Hin. apply Hm. exists (reflect.StructOf id). rewrite Hd.
      split; [apply rtc_refl|by left]. }
    assert (Hrec : ∀ ro' y path',
              is_Some (DoApplyDefaults r env fuel ro' (reflect.Typ f) y path')).
    { intros ro' y path'.
      apply (IH ({[reflect.StructOf id]} ∪ seen)).
      - intros Hmeets. apply Hm.
        destruct (meets_field env seen id f Hf Hmeets) as (s & Hrtc & Hs).
        exists s. rewrite Hd. auto.
      - pose proof (room_mark env id seen (fields_declared env id f Hf) Hns). lia. }
    assert (Hrec' : ∀ ro' id' y path',
              reflect.Typ f = reflect.PointerTo (reflect.StructOf id') ->
              is_Some (DoApplyDefaults r env fuel ro' (reflect.StructOf id') y path')).
    { intros ro' id' y path' Et.
      apply (IH ({[reflect.StructOf id]} ∪ seen)).
      - intros Hmeets. apply Hm.
        destruct (meets_field env seen id f Hf) as (s & Hrtc & Hs).
        { rewrite Et. exact Hmeets. }
        exists s. rewrite Hd. auto.
      - pose proof (room_mark env id seen (fields_declared env id f Hf) Hns). lia. }
    unfold applyField.
    destruct (reflect.Typ f) as [b|e|m e|k e|e|id'] eqn:Et;
      try (eexists; reflexivity).
    - destruct e as [b|e|m e|k e|e|id']; try (eexists; reflexivity).
      destruct x as [| | | | | | | |[y|]| |]; try (eexists; reflexivity).
      + destruct (Hrec' (ro || negb (reflect.IsExported f) && negb (reflect.Anonymous f))
                    id' y (addFieldToPath path f) eq_refl) as [[o1 y1] ->].
        eexists; reflexivity.
      + destruct (negb (ro || negb (reflect.IsExported f))); [|eexists; reflexivity].
        destruct (Zero_of_any id') as [z ->].
        destruct (Hrec' (ro || negb (reflect.IsExported f) && negb (reflect.Anonymous f))
                    id' z (addFieldToPath path f) eq_refl) as [[o1 y1] ->].
        eexists; reflexivity.
    - apply Hrec. }
  destruct t as [b|e|m e|k e|e|id]; try (eexists; reflexivity).
  - destruct e as [b|e|m e|k e|e|id]; try (eexists; reflexivity).
    destruct v as [| | | | | | | |[y|]| |]; try (eexists; reflexivity).
    destruct y; try (eexists; reflexivity).
    destruct (Hwalk id fieldValues eq_refl) as [[o1 vs1] ->]. eexists; reflexivity.
  - destruct v; try (eexists; reflexivity).
    destruct (Hwalk id fieldValues eq_refl) as [[o1 vs1] ->]. eexists; reflexivity.
Qed.

(** X5. When the cycle check has passed (and every declared struct type
    has a zero value), the walk returns within the depth that
    [ApplyDefaults] allows, whatever the record holds and whatever the
    defaulters do: nil pointers to structs are allocated and descended into
    without end only along a cycle of types, which the check excludes. *)
Theorem ApplyDefaults_total (id : string) (target : Value) :
  typeHasCycles env (reflect.StructOf id) = false ->
  ∃ o target',
    DoApplyDefaults r env (S (size (declared env))) false
      (reflect.StructOf id) target (rootPath env id) = Some (o, target')
    ∧ ApplyDefaults r env (reflect.PointerTo (reflect.StructOf id)) (VPtr (Some target))
      = (o, VPtr (Some target')).
Proof.
  intros Hc.
  destruct (DoApplyDefaults_total (S (size (declared env))) ∅ false
              (reflect.StructOf id) target (rootPath env id)) as [[o target'] E].
  - intros Hm. apply meets_empty, typeHasCycles_complete in Hm. congruence.
  - rewrite room_empty. lia.
  - exists o, target'. split; [exact E|]. unfold ApplyDefaults. by rewrite Hc, E.
Qed.

End Total.

(** The table of [TestApplyDefaultsWithNamedStructs] declares Go types. *)
Lemma ApplyDefaults_total_witness :
  let target := VStruct [VBool false;
                         VStruct [VInt 0;
                                  VStruct [VString ""; VStruct [VMap None]; VPtr None]]] in
  ∃ o target',
    DoApplyDefaults (instance lib_none) env_namedStructs
      (S (size (declared env_namedStructs))) false
      (reflect.StructOf "defaultz_test.Parent") target
      (rootPath env_namedStructs "defaultz_test.Parent")
    = Some (o, target')
    ∧ ApplyDefaults (instance lib_none) env_namedStructs
        (reflect.PointerTo (reflect.StructOf "defaultz_test.Parent")) (VPtr (Some target))
      = (o, VPtr (Some target')).
Proof.
  intros target.
  apply (ApplyDefaults_total (instance lib_none) env_namedStructs).
  - intros id Hid. unfold env_namedStructs in Hid.
    rewrite !dom_insert_L, dom_singleton_L in Hid.
    repeat (apply elem_of_union in Hid as [Hid|Hid]);
      apply elem_of_singleton in Hid; subst id; vm_compute; eexists; reflexivity.
  - vm_compute. reflexivity.
Defined.

(** ** The test suite of the package, on the embedding *)

Example TrimSpace_inner : strings.TrimSpace " m n " = "m n".
Proof. reflexivity. Qed.

Example ParseInt_cases :
  strconv.ParseInt "-123" 32 = inl (-123)%Z
  ∧ strconv.ParseInt "128" 8 = inr strconv.ErrRange
  ∧ strconv.ParseInt "-128" 8 = inl (-128)%Z
  ∧ strconv.ParseInt "abc" 0 = inr strconv.ErrSyntax
  ∧ strconv.ParseInt "+7" 0 = inl 7%Z
  ∧ strconv.ParseInt "" 0 = inr strconv.ErrSyntax
  ∧ strconv.ParseUint "+7" 0 = inr strconv.ErrSyntax
  ∧ strconv.ParseInt "99999999999999999999999999999999999999999999" 0
    = inr strconv.ErrRange.
Proof. vm_compute. repeat split. Qed.

Example TestApplyDefaultsUnexportedFields :
  ApplyDefaults (instance lib_none) env_unexported
    (reflect.PointerTo (reflect.StructOf "testtypes.TestExportedWithUnexportedField"))
    (VPtr (Some (VStruct [VString ""; VString ""])))
  = (Fails (defaultzError
              (NewError None ErrCannotSetField
                 "github.com/aliok/go-defaultz/testtypes.(TestExportedWithUnexportedField)"
                 {| reflect.Name := "unexportedField";
                    reflect.PkgPath := "github.com/aliok/go-defaultz/testtypes";
                    reflect.Typ := reflect.Basic reflect.t_string;
                    reflect.Tag := [("default", "bar")];
                    reflect.Anonymous := false |}
                 "cannot set field")),
     VPtr (Some (VStruct [VString "foo"; VString ""]))).
Proof. vm_compute. reflexivity. Qed.

Example TestApplyDefaultsIgnoreUnexportedFields :
  ApplyDefaults
    (NewDefaulterRegistry
       [WithBasicDefaulters lib_none;
        WithDefaultExtractor (NewDefaultzExtractor "default" "" ",");
        WithIgnoreCannotSet true])
    env_unexported
    (reflect.PointerTo (reflect.StructOf "testtypes.TestExportedWithUnexportedField"))
    (VPtr (Some (VStruct [VString ""; VString ""])))
  = (Nil, VPtr (Some (VStruct [VString "foo"; VString ""]))).
Proof. vm_compute. reflexivity. Qed.

(** The [BoolDefaulter] reports an error for "yay" and lets the chain go
    on; the custom defaulter, registered after it, sets the field. *)
Example TestApplyDefaultsCustomDefaulter :
  ApplyDefaults (Register 2000 customDefaulter (instance lib_none)) env_yay
    (reflect.PointerTo (reflect.StructOf "struct { Field bool }"))
    (VPtr (Some (VStruct [VBool false])))
  = (Nil, VPtr (Some (VStruct [VBool true]))).
Proof. vm_compute. reflexivity. Qed.

Example TestApplyDefaultsWithNamedStructs :
  ApplyDefaults (instance lib_none) env_namedStructs
    (reflect.PointerTo (reflect.StructOf "defaultz_test.Parent"))
    (VPtr (Some (VStruct [VBool false;
                          VStruct [VInt 0;
                                   VStruct [VString ""; VStruct [VMap None];
                                            VPtr None]]])))
  = (Nil,
     VPtr (Some (VStruct [VBool true;
                          VStruct [VInt 123;
                                   VStruct [VString "abc";
                                            VStruct [VMap (Some [(VString "a", VInt 3);
                                                                 (VString "b", VInt (-214))])];
                                            VPtr (Some (VStruct
                                              [VSlice (Some [VInt 1; VInt 2; VInt 3])]))]]]))).
Proof. vm_compute. reflexivity. Qed.

Example Test_not_convertible :
  ∃ e, fst (ApplyDefaults (instance lib_none) env_notConvertible
              (reflect.PointerTo (reflect.StructOf "struct { Field int }"))
              (VPtr (Some (VStruct [VInt 0]))))
       = FailsWrapped (defaultzError e)
       ∧ Defaulter_Name e = Some "defaultz.IntDefaulter"
       ∧ Err e = ErrInvalidDefaultValue
       ∧ Msg e = "strconv.ParseInt: parsing abc: invalid syntax"
       ∧ Error_path e = "<root>.Field".
Proof. eexists. vm_compute. repeat split. Qed.

Example Test_array_of_structs :
  ∃ e, fst (ApplyDefaults (instance lib_none) env_arrayOfStructs
              (reflect.PointerTo (reflect.StructOf "struct { Field [5]struct { Foo string } }"))
              (VPtr (Some (VStruct [VArray (replicate 5 (VStruct [VString ""]))]))))
       = Fails (defaultzError e)
       ∧ Err e = ErrNotSupported
       ∧ Msg e = "no defaulters found for kind 'array'".
Proof. eexists. vm_compute. repeat split. Qed.

(** * Further properties *)

(** ** The order of the defaulters of a kind *)

Lemma insertByPriority_perm (x : DefaulterWithPriority) (l : list DefaulterWithPriority) :
  insertByPriority x l ≡ₚ x :: l.
Proof.
  induction l as [|y l IH]; simpl; [reflexivity|].
  destruct (Priority y <? Priority x)%Z; [|reflexivity].
  rewrite IH. apply Permutation_swap.
Qed.

Lemma insertByPriority_sorted (x : DefaulterWithPriority) (l : list DefaulterWithPriority) :
  StronglySorted notAfter l -> StronglySorted notAfter (insertByPriority x l).
Proof.
  induction 1 as [|y l Hs IH Hy]; simpl; [repeat constructor|].
  destruct (Z.ltb_spec (Priority y) (Priority x)) as [Hlt|Hge].
  - constructor; [exact IH|].
    rewrite insertByPriority_perm. constructor; [unfold notAfter; lia|exact Hy].
  - constructor; [by constructor|].
    constructor; [exact Hge|].
    eapply Forall_impl; [exact Hy|]. unfold notAfter. intros z Hz. lia.
Qed.

Lemma insertByPriority_stable (p : Z) (x : DefaulterWithPriority)
    (l : list DefaulterWithPriority) :
  withPriority p (insertByPriority x l) = withPriority p (x :: l).
Proof.
  unfold withPriority. induction l as [|y l IH]; simpl; [reflexivity|].
  destruct (Z.ltb_spec (Priority y) (Priority x)) as [Hlt|Hge]; [|reflexivity].
  simpl. rewrite IH. simpl.
  destruct (Z.eqb_spec (Priority y) p) as [Hy|Hy];
    destruct (Z.eqb_spec (Priority x) p) as [Hx|Hx]; try reflexivity; lia.
Qed.

(** A defaulter that is not greater than any of a list goes to its head. *)
Lemma insertByPriority_head (y : DefaulterWithPriority) (l : list DefaulterWithPriority) :
  Forall (notAfter y) l -> insertByPriority y l = y :: l.
Proof.
  intros H. destruct l as [|z l]; simpl; [reflexivity|].
  inversion H as [|? ? Hz _]; subst. unfold notAfter in Hz.
  destruct (Z.ltb_spec (Priority z) (Priority y)); [lia|reflexivity].
Qed.

Lemma sortDefaulters_spec (dwps : list DefaulterWithPriority) :
  sortDefaulters dwps ≡ₚ dwps
  ∧ StronglySorted notAfter (sortDefaulters dwps)
  ∧ ∀ p, withPriority p (sortDefaulters dwps) = withPriority p dwps.
Proof.
  unfold sortDefaulters. induction dwps as [|x l (Hp & Hs & Hst)]; simpl.
  - repeat split; constructor.
  - split; [by rewrite insertByPriority_perm, Hp|].
    split; [by apply insertByPriority_sorted|].
    intros p. rewrite insertByPriority_stable. unfold withPriority in *. simpl.
    by rewrite Hst.
Qed.

(** X1. [sortDefaulters] returns the defaulters it is given, sorted by
    ascending priority, those of one priority in the order they had. *)
Theorem sortDefaulters_stable_sort (dwps : list DefaulterWithPriority) :
  sortDefaulters dwps ≡ₚ dwps
  ∧ StronglySorted notAfter (sortDefaulters dwps)
  ∧ ∀ p, withPriority p (sortDefaulters dwps) = withPriority p dwps.
Proof. apply sortDefaulters_spec. Qed.

(** Appending to a sorted list and sorting puts the new defaulter after
    those of a priority up to its own. *)
Lemma sortDefaulters_append (x : DefaulterWithPriority) (ds : list DefaulterWithPriority) :
  StronglySorted notAfter ds ->
  sortDefaulters (ds ++ [x])
  = upTo (Priority x) ds ++ [x] ++ above (Priority x) ds.
Proof.
  unfold sortDefaulters, upTo, above. rewrite foldr_app. simpl.
  induction 1 as [|y l Hs IH Hy]; simpl; [reflexivity|].
  rewrite IH. destruct (Z.leb_spec (Priority y) (Priority x)) as [Hle|Hgt]; simpl.
  - apply insertByPriority_head.
    apply Forall_app. split.
    + apply Forall_forall. intros z Hz. apply list_elem_of_In in Hz.
      apply List.filter_In in Hz as [Hz _].
      eapply Forall_forall in Hy; [exact Hy|]. by apply list_elem_of_In.
    + constructor; [exact Hle|].
      apply Forall_forall. intros z Hz. apply list_elem_of_In in Hz.
      apply List.filter_In in Hz as [Hz _].
      eapply Forall_forall in Hy; [exact Hy|]. by apply list_elem_of_In.
  - assert (Hup : List.filter (fun d => (Priority d <=? Priority x)%Z) l = []).
    { clear IH Hs. induction l as [|z l IHl]; simpl; [reflexivity|].
      inversion Hy as [|? ? Hz Hl]; subst. unfold notAfter in Hz.
      destruct (Z.leb_spec (Priority z) (Priority x)); [lia|]. by apply IHl. }
    assert (Hab : List.filter (fun d => negb (Priority d <=? Priority x)%Z) l = l).
    { clear IH Hs Hup. induction l as [|z l IHl]; simpl; [reflexivity|].
      inversion Hy as [|? ? Hz Hl]; subst. unfold notAfter in Hz.
      destruct (Z.leb_spec (Priority z) (Priority x)); [lia|]. simpl.
      by rewrite IHl. }
    rewrite Hup, Hab. simpl.
    destruct (Z.ltb_spec (Priority x) (Priority y)); [|lia].
    f_equal. by apply insertByPriority_head.
Qed.

Lemma Register_fold_other (new : DefaulterWithPriority) (kinds : list reflect.Kind)
    (kind : reflect.Kind) :
  kind ∉ kinds ->
  ∀ m : gmap reflect.Kind (list DefaulterWithPriority),
    foldl (fun m k => <[k := sortDefaulters (default [] (m !! k) ++ [new])]> m) m kinds
      !! kind = m !! kind.
Proof.
  induction kinds as [|a ks IH]; intros Hk m; simpl; [reflexivity|].
  apply not_elem_of_cons in Hk as [Hne Hk].
  rewrite IH by assumption. by rewrite lookup_insert_ne.
Qed.

Lemma Register_fold_handled (new : DefaulterWithPriority) (kinds : list reflect.Kind)
    (kind : reflect.Kind) :
  NoDup kinds -> kind ∈ kinds ->
  ∀ m : gmap reflect.Kind (list DefaulterWithPriority),
    foldl (fun m k => <[k := sortDefaulters (default [] (m !! k) ++ [new])]> m) m kinds
      !! kind = Some (sortDefaulters (default [] (m !! kind) ++ [new])).
Proof.
  induction kinds as [|a ks IH]; intros Hnd Hk m; [by apply elem_of_nil in Hk|].
  apply NoDup_cons in Hnd as [Ha Hnd]. simpl.
  apply elem_of_cons in Hk as [->|Hk].
  - rewrite Register_fold_other by assumption. by rewrite lookup_insert_eq.
  - rewrite IH by assumption.
    assert (a <> kind) by (intros ->; contradiction).
    by rewrite lookup_insert_ne.
Qed.

(** X2. [Register] leaves the kinds that the defaulter does not handle as
    they are; for a kind it handles (once), whose list was sorted, the new
    defaulter comes after the ones of a priority up to its own and before
    the ones of a greater priority. *)
Theorem Register_places (priority : Z) (d : Defaulter) (r : defaulterRegistry)
    (kind : reflect.Kind) :
  (kind ∉ HandledKinds d ->
   defaulters (Register priority d r) !! kind = defaulters r !! kind)
  ∧ (NoDup (HandledKinds d) -> kind ∈ HandledKinds d ->
     StronglySorted notAfter (default [] (defaulters r !! kind)) ->
     defaulters (Register priority d r) !! kind
     = Some (upTo priority (default [] (defaulters r !! kind))
             ++ [{| defaulter := d; Priority := priority |}]
             ++ above priority (default [] (defaulters r !! kind)))).
Proof.
  split.
  - intros Hk. unfold Register. simpl. by apply Register_fold_other.
  - intros Hnd Hk Hs. unfold Register. simpl.
    rewrite Register_fold_handled by assumption.
    f_equal. by rewrite sortDefaulters_append.
Qed.

Lemma Register_places_witness :
  List.map (fun x => (Name (defaulter x), Priority x))
    (default [] (defaulters (Register 1000 customDefaulter (instance lib_none))
                   !! reflect.Bool))
  = [("defaultz.BoolDefaulter", 1000%Z); ("test.customDefaulter", 1000%Z)].
Proof.
  rewrite (proj2 (Register_places 1000 customDefaulter (instance lib_none) reflect.Bool)).
  - vm_compute. reflexivity.
  - simpl. apply NoDup_singleton.
  - simpl. apply list_elem_of_singleton. reflexivity.
  - rewrite instance_lookup. simpl. repeat constructor.
Defined.

Lemma Register_fold_sorted (new : DefaulterWithPriority) (kinds : list reflect.Kind) :
  ∀ m : gmap reflect.Kind (list DefaulterWithPriority),
    (∀ k ds, m !! k = Some ds -> StronglySorted notAfter ds) ->
    ∀ k ds,
      foldl (fun m k => <[k := sortDefaulters (default [] (m !! k) ++ [new])]> m) m kinds
        !! k = Some ds ->
      StronglySorted notAfter ds.
Proof.
  induction kinds as [|a ks IH]; intros m Hm k ds; simpl; [apply Hm|].
  apply IH. intros k' ds' H'.
  destruct (decide (a = k')) as [->|Hne].
  - rewrite lookup_insert_eq in H'. inversion H'; subst.
    apply sortDefaulters_spec.
  - rewrite lookup_insert_ne in H' by assumption. eapply Hm. exact H'.
Qed.

(** X3. The lists of a registry are sorted by ascending priority when it
    comes from [NewDefaulterRegistry], whatever the options do, and
    [Register] keeps them sorted. *)
Theorem registry_stays_sorted :
  (∀ options, allSorted (NewDefaulterRegistry options))
  ∧ (∀ priority d r, allSorted r -> allSorted (Register priority d r)).
Proof.
  split.
  - intros options kind ds H. unfold NewDefaulterRegistry in H. simpl in H.
    rewrite lookup_fmap in H.
    destruct (defaulters _ !! kind) as [l|]; [|discriminate].
    inversion H; subst. apply sortDefaulters_spec.
  - intros priority d r Hr kind ds H. unfold Register in H. simpl in H.
    eapply Register_fold_sorted; [exact Hr|exact H].
Qed.

Lemma registry_stays_sorted_witness :
  allSorted (Register 2000 customDefaulter (instance lib_none)).
Proof.
  apply (proj2 registry_stays_sorted).
  apply (proj1 registry_stays_sorted).
Defined.

(** ** The cycle check returns *)

(** X4. [detectPotentialCycles], started from the empty map, returns on
    every table of types, with the map empty again: its recursion is never
    deeper than the number of declared struct types plus one, and with any
    depth allowed beyond that the answer is the same. *)
Theorem detectPotentialCycles_returns (env : decls) (fuel : nat) (t : reflect.rtype) :
  (size (declared env) < fuel)%nat ->
  detectPotentialCycles env fuel t ∅ = Some (typeHasCycles env t, ∅).
Proof.
  intros Hfuel.
  destruct (detect_total env fuel t ∅) as [b Eb]; [rewrite room_empty; lia|].
  rewrite Eb. f_equal. f_equal.
  destruct b.
  - symmetry. apply typeHasCycles_complete, meets_empty.
    eapply detect_sound. exact Eb.
  - destruct (typeHasCycles env t) eqn:Hc; [|reflexivity].
    apply typeHasCycles_sound, meets_empty in Hc.
    rewrite (detect_complete env fuel t ∅) in Eb; [discriminate| |assumption].
    rewrite room_empty. lia.
Qed.

Lemma detectPotentialCycles_returns_witness :
  detectPotentialCycles env_cyclicParent1 7
    (reflect.StructOf "defaultz_test.cyclicParent1") ∅
  = Some (true, ∅).
Proof.
  rewrite (detectPotentialCycles_returns env_cyclicParent1 7).
  - vm_compute. reflexivity.
  - vm_compute. lia.
Defined.

(** ** The record keeps its type *)

(** The loop body leaves the field as it is, or runs the chain of the
    field's kind on it. *)
Lemma applyLeaf_inv (r : defaulterRegistry) (extract : DefaultExtractor)
    (canSet : bool) (path : string) (field : reflect.StructField)
    (x x' : Value) (o : outcome) :
  applyLeaf r extract canSet path field x = (o, x') ->
  x' = x
  ∨ (∃ defaultStr ds,
       IsZero x = true
       ∧ ExtractDefault extract field = (defaultStr, true, None)
       ∧ (∀ e, reflect.Typ field <> reflect.PointerTo (reflect.PointerTo e))
       ∧ defaulters r !! pointeeKind (reflect.Typ field) = Some ds
       ∧ canSet = true
       ∧ match runChain ds defaultStr path field x [] false with
         | ChainPanicked y => o = Panics ∧ x' = y
         | ChainDone result somethingSet y =>
             o = chainOutcome result somethingSet ∧ x' = y
         end).
Proof.
  intros H.
  destruct (IsZero x) eqn:Hz.
  2: { rewrite applyLeaf_not_zero in H by assumption. inversion H; auto. }
  destruct (ExtractDefault extract field) as [[defaultStr found] err] eqn:He.
  destruct err as [err|].
  { unfold applyLeaf in H. rewrite Hz, He in H.
    destruct found; simpl in H; inversion H; auto. }
  destruct found.
  2: { unfold applyLeaf in H. rewrite Hz, He in H. simpl in H. inversion H; auto. }
  destruct (pointerToPointer_dec (reflect.Typ field)) as [[e Et]|Hpp].
  { unfold applyLeaf in H. rewrite Hz, He, Et in H. simpl in H. inversion H; auto. }
  rewrite (applyLeaf_found r extract canSet path field x defaultStr Hz He Hpp) in H.
  destruct (defaulters r !! pointeeKind (reflect.Typ field)) as [ds|] eqn:Hds.
  2: { inversion H; auto. }
  destruct canSet; simpl in H.
  2: { destruct (ignoreCannotSet r); inversion H; auto. }
  right. exists defaultStr, ds. repeat split; try assumption.
  destruct (runChain ds defaultStr path field x [] false); inversion H; auto.
Qed.

Section Typed.

Variable r : defaulterRegistry.
Variable env : decls.
Hypothesis Hbehaved : wellBehaved env r.

Lemma applyLeaf_fits (extract : DefaultExtractor) (canSet : bool)
    (path : string) (field : reflect.StructField) (x x' : Value) (o : outcome) :
  applyLeaf r extract canSet path field x = (o, x') ->
  o <> Panics ->
  fits env (reflect.Typ field) x = true ->
  fits env (reflect.Typ field) x' = true.
Proof.
  intros H Hnp Hfit.
  destruct (applyLeaf_inv _ _ _ _ _ _ _ _ H)
    as [->|(defaultStr & ds & Hz & He & Hpp & Hds & _ & Hrun)]; [assumption|].
  destruct (runChain ds defaultStr path field x [] false)
    as [result s y|y] eqn:Ec; destruct Hrun as [-> ->]; [|contradiction].
  eapply runChain_behaved; [|exact Hfit|exact Ec].
  intros d Hd. eapply Hbehaved; eauto.
Qed.

Lemma applyFields_fits
    (step : reflect.StructField -> Value -> option (outcome * Value))
    (fs : list reflect.StructField) :
  (∀ f x o x', step f x = Some (o, x') -> o <> Panics ->
               fits env (reflect.Typ f) x = true ->
               fits env (reflect.Typ f) x' = true) ->
  ∀ vs o vs', applyFields step fs vs = Some (o, vs') -> o <> Panics ->
              both (fun f x => fits env (reflect.Typ f) x) fs vs = true ->
              both (fun f x => fits env (reflect.Typ f) x) fs vs' = true.
Proof.
  intros Hstep. induction fs as [|f fs IH]; intros vs o vs' H Hnp Hfit.
  - destruct vs; simpl in H; inversion H; subst; assumption.
  - destruct vs as [|x vs]; [discriminate Hfit|]. simpl in H, Hfit.
    apply andb_true_iff in Hfit as [Hx Hfit].
    destruct (step f x) as [[o1 x1]|] eqn:E; [|discriminate].
    destruct o1.
    + destruct (applyFields step fs vs) as [[o2 vs2]|] eqn:E2; [|discriminate].
      inversion H; subst. simpl.
      rewrite (Hstep f x Nil x1 E ltac:(discriminate) Hx).
      by rewrite (IH vs o vs2 E2 Hnp Hfit).
    + inversion H; subst. simpl. by rewrite (Hstep f x _ x1 E Hnp Hx), Hfit.
    + inversion H; subst. simpl. by rewrite (Hstep f x _ x1 E Hnp Hx), Hfit.
    + inversion H; subst. simpl. by rewrite (Hstep f x _ x1 E Hnp Hx), Hfit.
    + inversion H; subst. contradiction.
Qed.

Lemma applyField_fits (extract : DefaultExtractor)
    (rec : bool -> reflect.rtype -> Value -> string -> option (outcome * Value))
    (fuel : nat) (ro : bool) (path : string) :
  (∀ ro t v path o v', rec ro t v path = Some (o, v') -> o <> Panics ->
                       fits env t v = true -> fits env t v' = true) ->
  ∀ f x o x',
    applyField r extract rec (Zero env fuel) ro path f x = Some (o, x') ->
    o <> Panics ->
    fits env (reflect.Typ f) x = true ->
    fits env (reflect.Typ f) x' = true.
Proof.
  intros Hrec f x o x' H Hnp Hfit. unfold applyField in H.
  assert (Hleaf : ∀ canSet,
            Some (applyLeaf r extract canSet path f x) = Some (o, x') ->
            fits env (reflect.Typ f) x' = true).
  { intros canSet E. inversion E as [E'].
    eapply applyLeaf_fits; [exact E'|assumption|assumption]. }
  destruct (reflect.Typ f) as [b|e|m e|k e|e|id] eqn:Et;
    try (eapply Hleaf; exact H).
  - destruct e as [b|e|m e|k e|e|id]; try (eapply Hleaf; exact H).
    destruct x as [| | | | | | | |[y|]| |];
      try solve [inversion H; subst; contradiction].
    + destruct (rec _ _ y _) as [[o1 y1]|] eqn:E; [|discriminate].
      inversion H; subst. simpl. eapply Hrec; eauto.
    + destruct (negb (ro || negb (reflect.IsExported f)));
        [|inversion H; subst; contradiction].
      destruct (Zero env fuel (reflect.StructOf id)) as [z|] eqn:Ez; [|discriminate].
      destruct (rec _ _ z _) as [[o1 y1]|] eqn:E; [|discriminate].
      inversion H; subst. simpl.
      eapply Hrec; [exact E|assumption|]. eapply Zero_fits. exact Ez.
  - eapply Hrec; eauto.
Qed.

Lemma DoApplyDefaults_fits (fuel : nat) :
  ∀ ro t v path o v',
    DoApplyDefaults r env fuel ro t v path = Some (o, v') ->
    o <> Panics ->
    fits env t v = true ->
    fits env t v' = true.
Proof.
  induction fuel as [|fuel IH]; intros ro t v path o v' H Hnp Hfit;
    [discriminate|].
  simpl in H.
  destruct (extractor r) as [extract|]; [|inversion H; subst; assumption].
  destruct (decide (size (defaulters r) = 0%nat)) as [Hsz|Hsz];
    [inversion H; subst; assumption|].
  assert (Hwalk : ∀ id vs o vs',
            applyFields (applyField r extract (DoApplyDefaults r env fuel)
                           (Zero env (S (size (declared env)))) ro path)
              (fields_of env id) vs
            = Some (o, vs') -> o <> Panics ->
            both (fun f x => fits env (reflect.Typ f) x) (fields_of env id) vs = true ->
            both (fun f x => fits env (reflect.Typ f) x) (fields_of env id) vs' = true).
  { intros id vs o1 vs1. apply applyFields_fits.
    apply applyField_fits. exact IH. }
  destruct t as [b|e|m e|k e|e|id]; try solve [inversion H; subst; assumption].
  - destruct e as [b|e|m e|k e|e|id]; try solve [inversion H; subst; assumption].
    destruct v as [| | | | | | | |[y|]| |]; try solve [inversion H; subst; assumption].
    destruct y; try solve [inversion H; subst; assumption].
    destruct (applyFields _ _ _) as [[o1 vs1]|] eqn:E; [|discriminate].
    inversion H; subst. simpl. eapply Hwalk; eauto.
  - destruct v; try solve [inversion H; subst; assumption].
    destruct (applyFields _ _ _) as [[o1 vs1]|] eqn:E; [|discriminate].
    inversion H; subst. simpl. eapply Hwalk; eauto.
Qed.

End Typed.

(** X6. [ApplyDefaults] keeps the record a value of its type: when the
    defaulters of the registry keep to the contract of [HandleField] and
    the call returns (it does not panic), every field holds afterwards a
    value of the form of its type, at every level, allocated structs
    included. *)
Theorem ApplyDefaults_keeps_type (r : defaulterRegistry) (env : decls)
    (t : reflect.rtype) (v v' : Value) (o : outcome) :
  wellBehaved env r ->
  fits env t v = true ->
  ApplyDefaults r env t v = (o, v') ->
  o <> Panics ->
  fits env t v' = true.
Proof.
  intros Hbehaved Hfit H Hnp. unfold ApplyDefaults in H.
  destruct t as [b|e|m e|k e|e|id]; try solve [inversion H; subst; assumption].
  destruct e as [b|e|m e|k e|e|id]; try solve [inversion H; subst; assumption].
  destruct v as [| | | | | | | |[target|]| |]; try solve [inversion H; subst; assumption].
  destruct (typeHasCycles env (reflect.StructOf id));
    [inversion H; subst; assumption|].
  destruct (DoApplyDefaults _ _ _ _ _ _ _) as [[o1 target1]|] eqn:E;
    [|inversion H; subst; contradiction].
  inversion H; subst. simpl.
  eapply DoApplyDefaults_fits; eauto.
Qed.

Lemma ApplyDefaults_keeps_type_witness :
  fits env_namedStructs (reflect.PointerTo (reflect.StructOf "defaultz_test.Parent"))
    (snd (ApplyDefaults (instance lib_none) env_namedStructs
            (reflect.PointerTo (reflect.StructOf "defaultz_test.Parent"))
            (VPtr (Some (VStruct [VBool false;
                                  VStruct [VInt 0;
                                           VStruct [VString ""; VStruct [VMap None];
                                                    VPtr None]]])))))
  = true.
Proof.
  apply (ApplyDefaults_keeps_type (instance lib_none) env_namedStructs
           (reflect.PointerTo (reflect.StructOf "defaultz_test.Parent"))
           (VPtr (Some (VStruct [VBool false;
                                 VStruct [VInt 0;
                                          VStruct [VString ""; VStruct [VMap None];
                                                   VPtr None]]])))
           _ Nil).
  - apply instance_wellBehaved.
  - vm_compute. reflexivity.
  - vm_compute. reflexivity.
  - discriminate.
Defined.

(** ** The first failure ends the walk *)




(** ** Fields of kind [int64] under the registry of the package *)

(** X8. Under the registry of the package a zero [int64] field that can be
    set goes through the [IntDefaulter] and then the [DurationDefaulter]:
    a default that parses as a duration gives the duration in nanoseconds,
    also when it parses as an integer; one that parses as an integer only
    gives the integer; one that parses as neither fails with the aggregate
    of the two errors and the field stays zero. *)
Theorem int64_default (lib : library) (path : string)
    (field : reflect.StructField) (spec : string) :
  reflect.Typ field = reflect.Basic reflect.t_int64 ->
  ExtractDefault extractorInstance field = (spec, true, None) ->
  applyLeaf (instance lib) extractorInstance true path field (VInt 0)
  = match ParseDuration lib spec, strconv.ParseInt spec 64 with
    | inl duration, _ => (Nil, VInt duration)
    | inr _, inl i => (Nil, VInt i)
    | inr msg, inr e =>
        (FailsAggregate
           [defaultzError
              (NewError (Some "defaultz.IntDefaulter") ErrInvalidDefaultValue
                 path field (NumError_Error lib "ParseInt" spec e));
            defaultzError
              (NewError (Some "defaultz.DurationDefaulter") ErrInvalidDefaultValue
                 path field (String.append "invalid duration value: " msg))],
         VInt 0)
    end.
Proof.
  intros Ht He.
  rewrite (applyLeaf_chain (instance lib) extractorInstance path field (VInt 0) spec
             [{| defaulter := IntDefaulter lib; Priority := 1000 |};
              {| defaulter := DurationDefaulter lib; Priority := 2000 |}]).
  - simpl. unfold pointeeKind, setThroughPointer. rewrite Ht. simpl.
    destruct (strconv.ParseInt spec 64) as [i|e]; simpl;
      destruct (ParseDuration lib spec) as [d|msg]; reflexivity.
  - reflexivity.
  - exact He.
  - intros e. rewrite Ht. discriminate.
  - rewrite Ht. apply instance_Int64.
Qed.

Lemma int64_default_witness :
  applyLeaf (instance lib_seconds) extractorInstance true "<root>"
    (exported "Wait" (reflect.Basic reflect.t_int64) [("default", "1s")]) (VInt 0)
  = (Nil, VInt 1000000000).
Proof.
  rewrite (int64_default lib_seconds "<root>"
             (exported "Wait" (reflect.Basic reflect.t_int64) [("default", "1s")]) "1s"
             eq_refl eq_refl).
  reflexivity.
Defined.

(** ** The integer defaulters keep to the range of the field's type *)

Lemma digit_bounds (c : ascii) (d : Z) :
  strconv.digit c = Some d -> (0 <= d <= 9)%Z.
Proof.
  unfold strconv.digit. intros H.
  destruct ((48 <=? nat_of_ascii c)%nat && (nat_of_ascii c <=? 57)%nat) eqn:E;
    [|discriminate].
  apply andb_prop in E as [E1 E2].
  apply Nat.leb_le in E1. apply Nat.leb_le in E2.
  inversion H. lia.
Qed.

Lemma scan_bounds (maxVal : Z) (s : string) :
  ∀ n m, (0 <= n <= maxVal)%Z -> strconv.scan maxVal n s = inl m ->
         (0 <= m <= maxVal)%Z.
Proof.
  induction s as [|c s IH]; intros n m Hn H; simpl in H.
  - inversion H. subst. exact Hn.
  - destruct (strconv.digit c) as [d|] eqn:Ed; [|discriminate].
    apply digit_bounds in Ed.
    destruct (maxVal <? n * 10 + d)%Z eqn:El; [discriminate|].
    apply Z.ltb_ge in El.
    apply (IH (n * 10 + d)%Z m); [lia|exact H].
Qed.

Lemma ParseUint_range (s : string) (bitSize m : Z) :
  (0 <= strconv.bits bitSize)%Z ->
  strconv.ParseUint s bitSize = inl m ->
  (0 <= m < 2 ^ strconv.bits bitSize)%Z.
Proof.
  intros Hb H.
  assert (0 < 2 ^ strconv.bits bitSize)%Z by (apply Z.pow_pos_nonneg; lia).
  assert (Hs : strconv.scan (2 ^ strconv.bits bitSize - 1) 0 s = inl m).
  { destruct s; [discriminate|exact H]. }
  apply scan_bounds in Hs; lia.
Qed.

Lemma ParseInt_range (s : string) (bitSize m : Z) :
  (0 < strconv.bits bitSize)%Z ->
  strconv.ParseInt s bitSize = inl m ->
  (- 2 ^ (strconv.bits bitSize - 1) <= m < 2 ^ (strconv.bits bitSize - 1))%Z.
Proof.
  intros Hb H. unfold strconv.ParseInt in H.
  destruct s as [|c s']; [discriminate|].
  cbv zeta in H.
  match type of H with
  | match strconv.ParseUint ?s1 _ with _ => _ end = _ =>
      destruct (strconv.ParseUint s1 bitSize) as [un|[|]] eqn:Eu;
        [|discriminate|discriminate]
  end.
  apply ParseUint_range in Eu; [|lia].
  assert (0 < 2 ^ (strconv.bits bitSize - 1))%Z by (apply Z.pow_pos_nonneg; lia).
  destruct (Ascii.eqb c "-"); simpl in H.
  - destruct (2 ^ (strconv.bits bitSize - 1) <? un)%Z eqn:E; [discriminate|].
    apply Z.ltb_ge in E. inversion H. lia.
  - destruct (2 ^ (strconv.bits bitSize - 1) <=? un)%Z eqn:E; [discriminate|].
    apply Z.leb_gt in E. inversion H. lia.
Qed.

(** X9. On a field of one of its kinds the [IntDefaulter] never panics
    and always lets the chain go on.  Either it sets the field (the
    target, for a pointer field) to an integer within the range of the
    field's type, [-2^(w-1) <= n < 2^(w-1)] for the width [w] of the kind,
    or it leaves the field as it is and reports [ErrInvalidDefaultValue]
    with the path and the field it was given.  The [UintDefaulter] does
    the same with [0 <= n < 2^w]. *)
Theorem integer_defaulters_in_range (lib : library) (value path : string)
    (field : reflect.StructField) (fieldValue : Value) :
  let k := pointeeKind (reflect.Typ field) in
  let w := kindBits k in
  (k ∈ HandledKinds (IntDefaulter lib) ->
   (∃ n, HandleField (IntDefaulter lib) value path field fieldValue
         = Returns true true None (setThroughPointer field (VInt n))
         ∧ (- 2 ^ (w - 1) <= n < 2 ^ (w - 1))%Z)
   ∨ (∃ e, HandleField (IntDefaulter lib) value path field fieldValue
           = Returns true false (Some (defaultzError e)) fieldValue
           ∧ Defaulter_Name e = Some (Name (IntDefaulter lib))
           ∧ Err e = ErrInvalidDefaultValue
           ∧ FieldPath e = path ∧ Field e = field))
  ∧ (k ∈ HandledKinds (UintDefaulter lib) ->
     (∃ n, HandleField (UintDefaulter lib) value path field fieldValue
           = Returns true true None (setThroughPointer field (VUint n))
           ∧ (0 <= n < 2 ^ w)%Z)
     ∨ (∃ e, HandleField (UintDefaulter lib) value path field fieldValue
             = Returns true false (Some (defaultzError e)) fieldValue
             ∧ Defaulter_Name e = Some (Name (UintDefaulter lib))
             ∧ Err e = ErrInvalidDefaultValue
             ∧ FieldPath e = path ∧ Field e = field)).
Proof.
  intros k w. subst w. split; intros Hk; simpl in Hk; simpl HandleField; fold k.
  - assert (Hcases : k = reflect.Int ∨ k = reflect.Int8 ∨ k = reflect.Int16
                     ∨ k = reflect.Int32 ∨ k = reflect.Int64)
      by (set_solver).
    destruct Hcases as [E|[E|[E|[E|E]]]]; rewrite E;
      match goal with
      | |- context [strconv.ParseInt value ?b] =>
          destruct (strconv.ParseInt value b) as [n|e] eqn:Ep;
            [left; exists n; split; [reflexivity|];
             apply ParseInt_range in Ep; [exact Ep|reflexivity]
            |right; eexists; repeat split]
      end.
  - assert (Hcases : k = reflect.Uint ∨ k = reflect.Uint8 ∨ k = reflect.Uint16
                     ∨ k = reflect.Uint32 ∨ k = reflect.Uint64)
      by (set_solver).
    destruct Hcases as [E|[E|[E|[E|E]]]]; rewrite E;
      match goal with
      | |- context [strconv.ParseUint value ?b] =>
          destruct (strconv.ParseUint value b) as [n|e] eqn:Ep;
            [left; exists n; split; [reflexivity|];
             apply ParseUint_range in Ep; [exact Ep|discriminate]
            |right; eexists; repeat split]
      end.
Qed.

Lemma integer_defaulters_in_range_witness :
  reflect.Int8 ∈ HandledKinds (IntDefaulter lib_none)
  ∧ ((∃ n, HandleField (IntDefaulter lib_none) "-128" "<root>"
             (exported "Level" (reflect.Basic reflect.t_int8) []) (VInt 0)
           = Returns true true None
               (setThroughPointer
                  (exported "Level" (reflect.Basic reflect.t_int8) []) (VInt n))
           ∧ (- 2 ^ (8 - 1) <= n < 2 ^ (8 - 1))%Z)
     ∨ (∃ e, HandleField (IntDefaulter lib_none) "-128" "<root>"
               (exported "Level" (reflect.Basic reflect.t_int8) []) (VInt 0)
             = Returns true false (Some (defaultzError e)) (VInt 0)
             ∧ Defaulter_Name e = Some (Name (IntDefaulter lib_none))
             ∧ Err e = ErrInvalidDefaultValue
             ∧ FieldPath e = "<root>"
             ∧ Field e = exported "Level" (reflect.Basic reflect.t_int8) [])).
Proof.
  assert (H : reflect.Int8 ∈ HandledKinds (IntDefaulter lib_none))
    by (simpl; set_solver).
  split; [exact H|].
  exact (proj1 (integer_defaulters_in_range lib_none "-128" "<root>"
                  (exported "Level" (reflect.Basic reflect.t_int8) []) (VInt 0)) H).
Defined.

(** ** The items of slices and maps are converted, not checked *)

Lemma wrapSigned_spec (w i : Z) :
  (0 < w)%Z ->
  (- 2 ^ (w - 1) <= wrapSigned w i < 2 ^ (w - 1))%Z
  ∧ (2 ^ w | wrapSigned w i - i)%Z
  ∧ ((- 2 ^ (w - 1) <= i < 2 ^ (w - 1))%Z -> wrapSigned w i = i).
Proof.
  intros Hw. unfold wrapSigned.
  assert (Hh : (0 < 2 ^ (w - 1))%Z) by (apply Z.pow_pos_nonneg; lia).
  assert (Hm : (2 ^ w = 2 * 2 ^ (w - 1))%Z).
  { replace w with (Z.succ (w - 1)) at 1 by lia. apply Z.pow_succ_r. lia. }
  rewrite Hm. set (h := (2 ^ (w - 1))%Z) in *.
  pose proof (Z.mod_pos_bound (i + h) (2 * h) ltac:(lia)) as Hb.
  repeat split; try lia.
  - exists (- ((i + h) / (2 * h)))%Z.
    rewrite (Z.mod_eq (i + h) (2 * h)) by lia. ring.
  - intros Hi. rewrite Z.mod_small by lia. lia.
Qed.

(** X10. [convertValue], which converts the items of slices and the keys
    and values of maps, parses an item of an integer type at 64 bits and
    converts the result to the type: an item that parses is never
    rejected for the range of the type.  For a signed type of width [w]
    the item becomes the integer of the range that is congruent to the
    parsed one modulo [2^w] (the parsed one itself when it is in the
    range), for an unsigned type the parsed one modulo [2^w]. *)
Theorem convertValue_wraps (lib : library) (value : string)
    (fieldType : reflect.rtype) :
  let k := reflect.kind fieldType in
  let w := kindBits k in
  (∀ i, k ∈ HandledKinds (IntDefaulter lib) ->
        strconv.ParseInt value 64 = inl i ->
        ∃ n, convertValue lib value fieldType = inl (VInt n)
             ∧ (- 2 ^ (w - 1) <= n < 2 ^ (w - 1))%Z
             ∧ (2 ^ w | n - i)%Z
             ∧ ((- 2 ^ (w - 1) <= i < 2 ^ (w - 1))%Z -> n = i))
  ∧ (∀ u, k ∈ HandledKinds (UintDefaulter lib) ->
          strconv.ParseUint value 64 = inl u ->
          convertValue lib value fieldType = inl (VUint (u mod 2 ^ w))).
Proof.
  intros k w. subst w. split.
  - intros i Hk Hp. simpl in Hk.
    assert (Hcases : k = reflect.Int ∨ k = reflect.Int8 ∨ k = reflect.Int16
                     ∨ k = reflect.Int32 ∨ k = reflect.Int64)
      by (set_solver).
    exists (wrapSigned (kindBits k) i). split.
    + unfold convertValue. fold k.
      destruct Hcases as [E|[E|[E|[E|E]]]]; rewrite E, Hp; reflexivity.
    + apply wrapSigned_spec.
      destruct Hcases as [E|[E|[E|[E|E]]]]; rewrite E; reflexivity.
  - intros u Hk Hp. simpl in Hk.
    assert (Hcases : k = reflect.Uint ∨ k = reflect.Uint8 ∨ k = reflect.Uint16
                     ∨ k = reflect.Uint32 ∨ k = reflect.Uint64)
      by (set_solver).
    unfold convertValue. fold k.
    destruct Hcases as [E|[E|[E|[E|E]]]]; rewrite E, Hp; reflexivity.
Qed.

Lemma convertValue_wraps_witness :
  strconv.ParseInt "300" 8 = inr strconv.ErrRange
  ∧ ∃ n, convertValue lib_none "300" (reflect.Basic reflect.t_int8) = inl (VInt n)
         ∧ (- 2 ^ (8 - 1) <= n < 2 ^ (8 - 1))%Z
         ∧ (2 ^ 8 | n - 300)%Z
         ∧ ((- 2 ^ (8 - 1) <= 300 < 2 ^ (8 - 1))%Z -> n = 300%Z).
Proof.
  split; [reflexivity|].
  apply (proj1 (convertValue_wraps lib_none "300" (reflect.Basic reflect.t_int8)) 300%Z).
  - simpl. set_solver.
  - reflexivity.
Defined.

(** ** Pointers to slices and maps *)

(** X11. Under the registry of the package a nil field of a type [*[]T]
    or [*map[K]V] that can be set and has a default panics: the kind of
    the target selects the [SliceDefaulter] or the [MapDefaulter], which
    makes a slice or a map of the type of the field, a pointer type.  The
    field stays nil. *)
Theorem nil_pointer_to_slice_or_map_panics (lib : library) (path : string)
    (field : reflect.StructField) (target : reflect.rtype) (defaultStr : string) :
  reflect.Typ field = reflect.PointerTo target ->
  reflect.kind target = reflect.Slice ∨ reflect.kind target = reflect.Map ->
  ExtractDefault extractorInstance field = (defaultStr, true, None) ->
  applyLeaf (instance lib) extractorInstance true path field (VPtr None)
  = (Panics, VPtr None).
Proof.
  intros Ht Hk He.
  destruct target as [b|e|n e|k e|e|id];
    try (destruct Hk as [Hk|Hk]; simpl in Hk; try discriminate Hk;
         destruct b; discriminate Hk).
  - rewrite (applyLeaf_chain (instance lib) extractorInstance path field (VPtr None)
               defaultStr [{| defaulter := SliceDefaulter lib; Priority := 1000 |}]).
    + simpl. rewrite Ht. reflexivity.
    + reflexivity.
    + exact He.
    + intros e'. rewrite Ht. discriminate.
    + rewrite Ht. apply instance_lookup.
  - rewrite (applyLeaf_chain (instance lib) extractorInstance path field (VPtr None)
               defaultStr [{| defaulter := MapDefaulter lib; Priority := 1000 |}]).
    + simpl. rewrite Ht. reflexivity.
    + reflexivity.
    + exact He.
    + intros e'. rewrite Ht. discriminate.
    + rewrite Ht. apply instance_lookup.
Qed.

Lemma nil_pointer_to_slice_or_map_panics_witness :
  applyLeaf (instance lib_none) extractorInstance true "<root>"
    (exported "Names"
       (reflect.PointerTo (reflect.SliceOf (reflect.Basic reflect.t_string)))
       [("default", "a b")])
    (VPtr None)
  = (Panics, VPtr None).
Proof.
  apply (nil_pointer_to_slice_or_map_panics lib_none "<root>" _
           (reflect.SliceOf (reflect.Basic reflect.t_string)) "a b").
  - reflexivity.
  - left. reflexivity.
  - reflexivity.
Defined.

(** The same through [ApplyDefaults]. *)
Example ApplyDefaults_pointer_to_slice :
  ApplyDefaults (instance lib_none)
    {[ "main.Names" :=
         named "main" "Names"
           [exported "Names"
              (reflect.PointerTo (reflect.SliceOf (reflect.Basic reflect.t_string)))
              [("default", "a b")]] ]}
    (reflect.PointerTo (reflect.StructOf "main.Names"))
    (VPtr (Some (VStruct [VPtr None])))
  = (Panics, VPtr (Some (VStruct [VPtr None]))).
Proof. vm_compute. reflexivity. Qed.

(** ** Fields that cannot be set *)

Lemma applyFields_outcome (P : outcome -> Prop)
    (step : reflect.StructField -> Value -> option (outcome * Value))
    (fs : list reflect.StructField) :
  P Nil ->
  (∀ f x o x', step f x = Some (o, x') -> P o) ->
  ∀ vs o vs', applyFields step fs vs = Some (o, vs') -> P o.
Proof.
  intros HNil Hstep. induction fs as [|f fs IH]; intros vs o vs' H.
  - destruct vs; simpl in H; inversion H; subst; exact HNil.
  - destruct vs as [|x vs]; [inversion H; subst; exact HNil|]. simpl in H.
    destruct (step f x) as [[o1 x1]|] eqn:E; [|discriminate].
    pose proof (Hstep f x o1 x1 E) as Ho1.
    destruct o1; try solve [inversion H; subst; exact Ho1].
    destruct (applyFields step fs vs) as [[o2 vs2]|] eqn:E2; [|discriminate].
    inversion H; subst. eapply IH. exact E2.
Qed.

Lemma applyFields_simulate (P : outcome -> Prop)
    (step step' : reflect.StructField -> Value -> option (outcome * Value))
    (fs : list reflect.StructField) :
  P Nil ->
  (∀ f x, (∀ o x', step f x = Some (o, x') -> P o) -> step' f x = step f x) ->
  ∀ vs, (∀ o vs', applyFields step fs vs = Some (o, vs') -> P o) ->
        applyFields step' fs vs = applyFields step fs vs.
Proof.
  intros HNil Hstep. induction fs as [|f fs IH]; intros vs Ho.
  - destruct vs; reflexivity.
  - destruct vs as [|x vs]; [reflexivity|]. simpl in Ho |- *.
    assert (Hx : ∀ o x', step f x = Some (o, x') -> P o).
    { intros o x' E. rewrite E in Ho.
      destruct o; try solve [eapply Ho; reflexivity]. exact HNil. }
    rewrite (Hstep f x Hx).
    destruct (step f x) as [[o1 x1]|] eqn:E; [|reflexivity].
    destruct o1; try reflexivity.
    rewrite IH; [reflexivity|].
    intros o vs' E2. rewrite E2 in Ho. eapply Ho. reflexivity.
Qed.

Lemma applyLeaf_ignore (r : defaulterRegistry) (extract : DefaultExtractor)
    (canSet : bool) (path : string) (f : reflect.StructField)
    (x x' : Value) (o : outcome) :
  applyLeaf r extract canSet path f x = (o, x') ->
  (∀ e, o = Fails (defaultzError e) -> Err e <> ErrCannotSetField) ->
  applyLeaf (WithIgnoreCannotSet true r) extract canSet path f x = (o, x').
Proof.
  intros H Ho. unfold applyLeaf in *.
  change (defaulters (WithIgnoreCannotSet true r)) with (defaulters r).
  change (ignoreCannotSet (WithIgnoreCannotSet true r)) with true.
  destruct (negb (IsZero x)); [exact H|].
  destruct (ExtractDefault extract f) as [[defaultStr found] [err|]]; [exact H|].
  destruct found; [|exact H].
  assert (Hkind :
    match defaulters r !! pointeeKind (reflect.Typ f) with
    | Some ds =>
        if negb canSet
        then if ignoreCannotSet r then (Nil, x)
             else (Fails (defaultzError
                            (NewError None ErrCannotSetField path f
                               "cannot set field")), x)
        else
          match runChain ds defaultStr path f x [] false with
          | ChainPanicked fieldValue' => (Panics, fieldValue')
          | ChainDone result somethingSet fieldValue' =>
              (chainOutcome result somethingSet, fieldValue')
          end
    | None =>
        (Fails (defaultzError
                  (NewError None ErrNotSupported path f
                     (String.concat ""
                        ["no defaulters found for kind '";
                         Kind_String (pointeeKind (reflect.Typ f)); "'"]))), x)
    end = (o, x') ->
    match defaulters r !! pointeeKind (reflect.Typ f) with
    | Some ds =>
        if negb canSet
        then (Nil, x)
        else
          match runChain ds defaultStr path f x [] false with
          | ChainPanicked fieldValue' => (Panics, fieldValue')
          | ChainDone result somethingSet fieldValue' =>
              (chainOutcome result somethingSet, fieldValue')
          end
    | None =>
        (Fails (defaultzError
                  (NewError None ErrNotSupported path f
                     (String.concat ""
                        ["no defaulters found for kind '";
                         Kind_String (pointeeKind (reflect.Typ f)); "'"]))), x)
    end = (o, x')).
  { intros E. destruct (defaulters r !! pointeeKind (reflect.Typ f)); [|exact E].
    destruct (negb canSet); [|exact E].
    destruct (ignoreCannotSet r); [exact E|].
    inversion E; subst. exfalso. eapply Ho; reflexivity. }
  destruct (reflect.Typ f) as [b|e|m e|k e|e|id]; try (apply Hkind; exact H).
  destruct e; try (apply Hkind; exact H). exact H.
Qed.

Lemma applyLeaf_ignored (r : defaulterRegistry) (extract : DefaultExtractor)
    (canSet : bool) (path : string) (f : reflect.StructField)
    (x x' : Value) (o : outcome) :
  ignoreCannotSet r = true ->
  applyLeaf r extract canSet path f x = (o, x') ->
  ∀ e, o = Fails (defaultzError e) -> Err e <> ErrCannotSetField.
Proof.
  intros Hi H e ->. unfold applyLeaf in H. rewrite Hi in H.
  destruct (negb (IsZero x)); [discriminate H|].
  destruct (ExtractDefault extract f) as [[defaultStr found] [err|]];
    [destruct found; inversion H; subst; simpl; discriminate|].
  destruct found; [|discriminate H].
  assert (Hkind :
    match defaulters r !! pointeeKind (reflect.Typ f) with
    | Some ds =>
        if negb canSet
        then (Nil, x)
        else
          match runChain ds defaultStr path f x [] false with
          | ChainPanicked fieldValue' => (Panics, fieldValue')
          | ChainDone result somethingSet fieldValue' =>
              (chainOutcome result somethingSet, fieldValue')
          end
    | None =>
        (Fails (defaultzError
                  (NewError None ErrNotSupported path f
                     (String.concat ""
                        ["no defaulters found for kind '";
                         Kind_String (pointeeKind (reflect.Typ f)); "'"]))), x)
    end = (Fails (defaultzError e), x') ->
    Err e <> ErrCannotSetField).
  { intros E. destruct (defaulters r !! pointeeKind (reflect.Typ f));
      [|inversion E; subst; simpl; discriminate].
    destruct (negb canSet); [discriminate E|].
    destruct (runChain _ _ _ _ _ _ _) as [result somethingSet y|y];
      [|discriminate E].
    unfold chainOutcome in E.
    destruct (negb somethingSet); [|discriminate E].
    destruct result as [|e1 [|e2 result]]; discriminate E. }
  destruct (reflect.Typ f) as [b|e0|m e0|k e0|e0|id]; try (apply Hkind; exact H).
  destruct e0; try (apply Hkind; exact H). inversion H; subst; simpl; discriminate.
Qed.

Lemma applyField_ignore (r : defaulterRegistry) (extract : DefaultExtractor)
    (rec rec' : bool -> reflect.rtype -> Value -> string -> option (outcome * Value))
    (zero : reflect.rtype -> option Value) (ro : bool) (path : string) :
  (∀ ro t v path,
     (∀ o v', rec ro t v path = Some (o, v') ->
              ∀ e, o = Fails (defaultzError e) -> Err e <> ErrCannotSetField) ->
     rec' ro t v path = rec ro t v path) ->
  ∀ f x,
    (∀ o x', applyField r extract rec zero ro path f x = Some (o, x') ->
             ∀ e, o = Fails (defaultzError e) -> Err e <> ErrCannotSetField) ->
    applyField (WithIgnoreCannotSet true r) extract rec' zero ro path f x
    = applyField r extract rec zero ro path f x.
Proof.
  intros Hrec f x Ho. unfold applyField in *.
  assert (Hleaf : ∀ canSet,
            (∀ o x', Some (applyLeaf r extract canSet path f x) = Some (o, x') ->
                     ∀ e, o = Fails (defaultzError e) -> Err e <> ErrCannotSetField) ->
            Some (applyLeaf (WithIgnoreCannotSet true r) extract canSet path f x)
            = Some (applyLeaf r extract canSet path f x)).
  { intros canSet E. f_equal.
    destruct (applyLeaf r extract canSet path f x) as [o x'] eqn:El.
    apply applyLeaf_ignore; [exact El|]. eapply E. reflexivity. }
  assert (Hnested : ∀ ro' t y path',
            (∀ o x', match rec ro' t y path' with
                     | Some (o, v') => Some (o, VPtr (Some v'))
                     | None => None
                     end = Some (o, x') ->
                     ∀ e, o = Fails (defaultzError e) -> Err e <> ErrCannotSetField) ->
            rec' ro' t y path' = rec ro' t y path').
  { intros ro' t y path' E. apply Hrec. intros o v' Er.
    rewrite Er in E. eapply E. reflexivity. }
  destruct (reflect.Typ f) as [b|e|m e|k e|e|id] eqn:Et;
    try (apply Hleaf; exact Ho).
  - destruct e as [b|e|m e|k e|e|id]; try (apply Hleaf; exact Ho).
    destruct x as [| | | | | | | |[y|]| |]; try reflexivity.
    + by rewrite (Hnested _ _ _ _ Ho).
    + destruct (negb (ro || negb (reflect.IsExported f))); [|reflexivity].
      destruct (zero (reflect.StructOf id)) as [z|]; [|reflexivity].
      by rewrite (Hnested _ _ _ _ Ho).
  - apply Hrec. exact Ho.
Qed.

Lemma applyField_ignored (r : defaulterRegistry) (extract : DefaultExtractor)
    (rec : bool -> reflect.rtype -> Value -> string -> option (outcome * Value))
    (zero : reflect.rtype -> option Value) (ro : bool) (path : string) :
  ignoreCannotSet r = true ->
  (∀ ro t v path o v',
     rec ro t v path = Some (o, v') ->
     ∀ e, o = Fails (defaultzError e) -> Err e <> ErrCannotSetField) ->
  ∀ f x o x',
    applyField r extract rec zero ro path f x = Some (o, x') ->
    ∀ e, o = Fails (defaultzError e) -> Err e <> ErrCannotSetField.
Proof.
  intros Hi Hrec f x o x' H. unfold applyField in H.
  assert (Hleaf : ∀ canSet,
            Some (applyLeaf r extract canSet path f x) = Some (o, x') ->
            ∀ e, o = Fails (defaultzError e) -> Err e <> ErrCannotSetField).
  { intros canSet E. inversion E as [E']. eapply applyLeaf_ignored; eassumption. }
  destruct (reflect.Typ f) as [b|e|m e|k e|e|id] eqn:Et;
    try (eapply Hleaf; exact H).
  - destruct e as [b|e|m e|k e|e|id]; try (eapply Hleaf; exact H).
    destruct x as [| | | | | | | |[y|]| |];
      try solve [inversion H; subst; intros e0 E0; discriminate E0].
    + destruct (rec _ _ y _) as [[o1 y1]|] eqn:E; [|discriminate].
      inversion H; subst. eapply Hrec. exact E.
    + destruct (negb (ro || negb (reflect.IsExported f)));
        [|inversion H; subst; intros e0 E0; discriminate E0].
      destruct (zero (reflect.StructOf id)) as [z|]; [|discriminate].
      destruct (rec _ _ z _) as [[o1 y1]|] eqn:E; [|discriminate].
      inversion H; subst. eapply Hrec. exact E.
  - eapply Hrec. exact H.
Qed.

Lemma DoApplyDefaults_ignore (r : defaulterRegistry) (env : decls) (fuel : nat) :
  ∀ ro t v path,
    (∀ o v', DoApplyDefaults r env fuel ro t v path = Some (o, v') ->
             ∀ e, o = Fails (defaultzError e) -> Err e <> ErrCannotSetField) ->
    DoApplyDefaults (WithIgnoreCannotSet true r) env fuel ro t v path
    = DoApplyDefaults r env fuel ro t v path.
Proof.
  induction fuel as [|fuel IH]; intros ro t v path Ho; [reflexivity|].
  simpl in Ho |- *.
  destruct (extractor r) as [extract|]; [|reflexivity].
  destruct (decide (size (defaulters r) = 0%nat)) as [Hsz|Hsz]; [reflexivity|].
  assert (Hwalk : ∀ id vs,
            (∀ o vs',
               applyFields (applyField r extract (DoApplyDefaults r env fuel)
                              (Zero env (S (size (declared env)))) ro path)
                 (fields_of env id) vs
               = Some (o, vs') ->
               ∀ e, o = Fails (defaultzError e) -> Err e <> ErrCannotSetField) ->
            applyFields
              (applyField (WithIgnoreCannotSet true r) extract
                 (DoApplyDefaults (WithIgnoreCannotSet true r) env fuel)
                 (Zero env (S (size (declared env)))) ro path)
              (fields_of env id) vs
            = applyFields (applyField r extract (DoApplyDefaults r env fuel)
                             (Zero env (S (size (declared env)))) ro path)
                (fields_of env id) vs).
  { intros id vs.
    apply (applyFields_simulate
             (fun o => ∀ e, o = Fails (defaultzError e) -> Err e <> ErrCannotSetField)).
    - intros e E. discriminate E.
    - apply applyField_ignore. exact IH. }
  destruct t as [b|e|m e|k e|e|id]; try reflexivity.
  - destruct e as [b|e|m e|k e|e|id]; try reflexivity.
    destruct v as [| | | | | | | |[y|]| |]; try reflexivity.
    destruct y; try reflexivity.
    rewrite Hwalk; [reflexivity|].
    intros o vs' E. rewrite E in Ho. eapply Ho. reflexivity.
  - destruct v; try reflexivity.
    rewrite Hwalk; [reflexivity|].
    intros o vs' E. rewrite E in Ho. eapply Ho. reflexivity.
Qed.

Lemma DoApplyDefaults_ignored (r : defaulterRegistry) (env : decls) (fuel : nat) :
  ignoreCannotSet r = true ->
  ∀ ro t v path o v',
    DoApplyDefaults r env fuel ro t v path = Some (o, v') ->
    ∀ e, o = Fails (defaultzError e) -> Err e <> ErrCannotSetField.
Proof.
  intros Hi.
  induction fuel as [|fuel IH]; intros ro t v path o v' H; [discriminate|].
  simpl in H.
  destruct (extractor r) as [extract|];
    [|inversion H; subst; intros e0 E0; discriminate E0].
  destruct (decide (size (defaulters r) = 0%nat)) as [Hsz|Hsz];
    [inversion H; subst; intros e0 E0; discriminate E0|].
  assert (Hwalk : ∀ id vs o vs',
            applyFields (applyField r extract (DoApplyDefaults r env fuel)
                           (Zero env (S (size (declared env)))) ro path)
              (fields_of env id) vs
            = Some (o, vs') ->
            ∀ e, o = Fails (defaultzError e) -> Err e <> ErrCannotSetField).
  { intros id vs o1 vs1.
    apply (applyFields_outcome
             (fun o => ∀ e, o = Fails (defaultzError e) -> Err e <> ErrCannotSetField)).
    - intros e E. discriminate E.
    - apply applyField_ignored; [exact Hi|exact IH]. }
  destruct t as [b|e|m e|k e|e|id];
    try solve [inversion H; subst; intros e0 E0; discriminate E0].
  - destruct e as [b|e|m e|k e|e|id];
      try solve [inversion H; subst; intros e0 E0; discriminate E0].
    destruct v as [| | | | | | | |[y|]| |];
      try solve [inversion H; subst; intros e0 E0; discriminate E0].
    destruct y; try solve [inversion H; subst; intros e0 E0; discriminate E0].
    destruct (applyFields _ _ _) as [[o1 vs1]|] eqn:E; [|discriminate].
    inversion H; subst. eapply Hwalk. exact E.
  - destruct v; try solve [inversion H; subst; intros e0 E0; discriminate E0].
    destruct (applyFields _ _ _) as [[o1 vs1]|] eqn:E; [|discriminate].
    inversion H; subst. eapply Hwalk. exact E.
Qed.

(** X12. [WithIgnoreCannotSet(true)] takes the error [ErrCannotSetField]
    away and changes nothing else: with the option [ApplyDefaults] never
    returns an [*Error] of its own with that sentinel, and a call that
    does not end in that error without the option ends with the same
    outcome and the same record with it (a panic included: the option
    does not keep [ApplyDefaults] from setting a nil pointer to a struct
    that cannot be set). *)
Theorem WithIgnoreCannotSet_only_drops_ErrCannotSetField
    (r : defaulterRegistry) (env : decls) (t : reflect.rtype) (v : Value) :
  (∀ e, fst (ApplyDefaults (WithIgnoreCannotSet true r) env t v)
        = Fails (defaultzError e) -> Err e <> ErrCannotSetField)
  ∧ ((∀ e, fst (ApplyDefaults r env t v) = Fails (defaultzError e) ->
           Err e <> ErrCannotSetField) ->
     ApplyDefaults (WithIgnoreCannotSet true r) env t v = ApplyDefaults r env t v).
Proof.
  unfold ApplyDefaults. split.
  - intros e H.
    destruct t as [b|e0|m e0|k e0|e0|id]; try discriminate H.
    destruct e0 as [b|e0|m e0|k e0|e0|id]; try discriminate H.
    destruct v as [| | | | | | | |[target|]| |]; try discriminate H.
    destruct (typeHasCycles env (reflect.StructOf id)); [discriminate H|].
    destruct (DoApplyDefaults _ _ _ _ _ _ _) as [[o target']|] eqn:E;
      [|discriminate H].
    simpl in H.
    eapply (DoApplyDefaults_ignored (WithIgnoreCannotSet true r)); [reflexivity|exact E|exact H].
  - intros Ho.
    destruct t as [b|e0|m e0|k e0|e0|id]; try reflexivity.
    destruct e0 as [b|e0|m e0|k e0|e0|id]; try reflexivity.
    destruct v as [| | | | | | | |[target|]| |]; try reflexivity.
    destruct (typeHasCycles env (reflect.StructOf id)); [reflexivity|].
    rewrite DoApplyDefaults_ignore; [reflexivity|].
    intros o target' E. rewrite E in Ho. exact Ho.
Qed.

Lemma WithIgnoreCannotSet_only_drops_ErrCannotSetField_witness :
  ApplyDefaults (WithIgnoreCannotSet true (instance lib_none)) env_badBool
    (reflect.PointerTo (reflect.StructOf "main.Bad"))
    (VPtr (Some (VStruct [VBool false])))
  = ApplyDefaults (instance lib_none) env_badBool
      (reflect.PointerTo (reflect.StructOf "main.Bad"))
      (VPtr (Some (VStruct [VBool false]))).
Proof.
  apply (proj2 (WithIgnoreCannotSet_only_drops_ErrCannotSetField
                  (instance lib_none) env_badBool
                  (reflect.PointerTo (reflect.StructOf "main.Bad"))
                  (VPtr (Some (VStruct [VBool false]))))).
  intros e H. vm_compute in H. discriminate H.
Defined.

(** ** The extractor without a prefix *)

Lemma splitOn_cons (sep : string) (s : string) :
  ∀ skip, ∃ h t, strings.splitOn sep skip s = h :: t.
Proof.
  induction s as [|c s IH]; intros skip; cbn [strings.splitOn].
  - by eexists _, _.
  - destruct skip as [|k]; [|apply IH].
    destruct (String.prefix sep (String c s)); [by eexists _, _|].
    destruct (strings.splitOn sep 0 s) as [|h t]; by eexists _, _.
Qed.

Lemma splitOn_head (sep : string) (s : string) :
  ∀ h t, strings.splitOn sep 0 s = h :: t ->
         (t = [] ∧ h = s)
         ∨ (t <> [] ∧ String.prefix (String.append h sep) s = true).
Proof.
  induction s as [|c s IH]; intros h t H; cbn [strings.splitOn] in H.
  - inversion H. left. split; reflexivity.
  - destruct (String.prefix sep (String c s)) eqn:Ep.
    + inversion H; subst. right. split; [|exact Ep].
      destruct (splitOn_cons sep s (String.length sep - 1)) as (h' & t' & E).
      rewrite E. discriminate.
    + destruct (strings.splitOn sep 0 s) as [|h' t'] eqn:E.
      { destruct (splitOn_cons sep s 0) as (h' & t' & E'). congruence. }
      inversion H; subst.
      destruct (IH h' t eq_refl) as [[-> ->]|[Ht Hp]].
      * left. split; reflexivity.
      * right. split; [exact Ht|]. simpl.
        destruct (Ascii.ascii_dec c c) as [_|Hc]; [exact Hp|contradiction].
Qed.

(** X13. With an empty prefix, as in the extractor of the package, a tag
    that is present and not empty always gives a default: the first part
    of the split of the tag, trimmed, whatever the other parts are.  For
    a separator that is not empty that part is the tag itself when the
    split has one part, and else a start of the tag that the separator
    follows. *)
Theorem empty_prefix_takes_first_part (d : DefaultzExtractor)
    (field : reflect.StructField) (tag : string) :
  Prefix d = "" ->
  reflect.Lookup (reflect.Tag field) (TagName d) = Some tag ->
  tag <> "" ->
  ∃ first rest,
    strings.Split tag (Separator d) = first :: rest
    ∧ DefaultzExtractor_ExtractDefault d field
      = (strings.TrimSpace first, true, None)
    ∧ (Separator d <> "" ->
       (rest = [] ∧ first = tag)
       ∨ (rest <> [] ∧ String.prefix (String.append first (Separator d)) tag = true)).
Proof.
  intros Hp Hl Ht.
  assert (Hs : ∃ first rest, strings.Split tag (Separator d) = first :: rest).
  { unfold strings.Split. destruct (Separator d).
    - destruct tag as [|c tag]; [contradiction|].
      unfold strings.explode, strings.runes. cbn [strings.runesFrom].
      destruct (utf8.DecodeRuneInString (String c tag)) as [r size].
      by eexists _, _.
    - apply splitOn_cons. }
  destruct Hs as (first & rest & Hs). exists first, rest.
  split; [exact Hs|]. split.
  - unfold DefaultzExtractor_ExtractDefault. rewrite Hl.
    destruct (String.eqb tag "") eqn:E; [apply String.eqb_eq in E; contradiction|].
    rewrite Hs, Hp. simpl.
    unfold strings.TrimPrefix, strings.HasPrefix. simpl.
    destruct (strings.TrimSpace first); reflexivity.
  - intros Hsep. unfold strings.Split in Hs.
    destruct (Separator d) as [|c sep]; [contradiction|].
    apply splitOn_head. exact Hs.
Qed.

Lemma empty_prefix_takes_first_part_witness :
  ∃ first rest,
    strings.Split " b ,name=x" "," = first :: rest
    ∧ DefaultzExtractor_ExtractDefault
        {| TagName := "customTag"; Prefix := ""; Separator := "," |}
        (exported "SpaceSeparated" (reflect.Basic reflect.t_string)
           [("customTag", " b ,name=x")])
      = (strings.TrimSpace first, true, None)
    ∧ ("," <> "" ->
       (rest = [] ∧ first = " b ,name=x")
       ∨ (rest <> [] ∧ String.prefix (String.append first ",") " b ,name=x" = true)).
Proof.
  apply (empty_prefix_takes_first_part
           {| TagName := "customTag"; Prefix := ""; Separator := "," |}
           (exported "SpaceSeparated" (reflect.Basic reflect.t_string)
              [("customTag", " b ,name=x")])
           " b ,name=x").
  - reflexivity.
  - reflexivity.
  - discriminate.
Defined.

(** ** Errors name the field and the path to it *)

Lemma runChain_reports (ds : list DefaulterWithPriority)
    (value path : string) (field : reflect.StructField) :
  (∀ d, d ∈ ds -> reportsField (defaulter d)) ->
  ∀ fieldValue result somethingSet result' somethingSet' y,
    (∀ e, defaultzError e ∈ result -> FieldPath e = path ∧ Field e = field) ->
    runChain ds value path field fieldValue result somethingSet
    = ChainDone result' somethingSet' y ->
    ∀ e, defaultzError e ∈ result' -> FieldPath e = path ∧ Field e = field.
Proof.
  induction ds as [|d ds IH]; intros Hds fv result s result' s' y Hres H e He.
  - inversion H; subst. apply Hres. exact He.
  - cbn [runChain] in H.
    destruct (HandleField (defaulter d) value path field fv)
      as [callNext set err fv'|fv'] eqn:Eh; [|discriminate].
    assert (Hres' : ∀ e, defaultzError e
                         ∈ match err with
                           | Some e0 => result ++ [e0]
                           | None => result
                           end ->
                         FieldPath e = path ∧ Field e = field).
    { intros e1 He1. destruct err as [e0|]; [|apply Hres; exact He1].
      apply elem_of_app in He1 as [He1|He1]; [apply Hres; exact He1|].
      apply list_elem_of_singleton in He1. subst e0.
      eapply (Hds d); [left|exact Eh]. }
    cbv zeta in H. destruct callNext.
    + eapply (IH (fun d' Hd' => Hds d' (list_elem_of_further _ _ _ Hd')));
        [exact Hres'|exact H|exact He].
    + inversion H; subst. apply Hres'. exact He.
Qed.

Lemma chainOutcome_errors (result : list error) (somethingSet : bool) (e : error) :
  e ∈ errorsOf (chainOutcome result somethingSet) -> e ∈ result.
Proof.
  unfold chainOutcome. destruct (negb somethingSet); simpl.
  - destruct result as [|e1 [|e2 result]]; simpl; intros H; exact H.
  - intros H. by apply elem_of_nil in H.
Qed.

Lemma applyLeaf_reports (r : defaulterRegistry) (extract : DefaultExtractor)
    (canSet : bool) (path : string) (f : reflect.StructField)
    (x x' : Value) (o : outcome) :
  (∀ k ds d, defaulters r !! k = Some ds -> d ∈ ds -> reportsField (defaulter d)) ->
  applyLeaf r extract canSet path f x = (o, x') ->
  ∀ e, defaultzError e ∈ errorsOf o -> FieldPath e = path ∧ Field e = f.
Proof.
  intros Hr H e He. unfold applyLeaf in H.
  assert (Hone : ∀ sentinel msg y,
            (Fails (defaultzError (NewError None sentinel path f msg)), y) = (o, x') ->
            FieldPath e = path ∧ Field e = f).
  { intros s msg y E. inversion E; subst. simpl in He.
    apply list_elem_of_singleton in He. inversion He; subst. split; reflexivity. }
  assert (Hnil : ∀ y, (Nil, y) = (o, x') -> FieldPath e = path ∧ Field e = f).
  { intros y E. inversion E; subst. by apply elem_of_nil in He. }
  destruct (negb (IsZero x)); [eapply Hnil; exact H|].
  destruct (ExtractDefault extract f) as [[defaultStr found] [err|]];
    [destruct found; eapply Hone; exact H|].
  destruct found; [|eapply Hnil; exact H].
  assert (Hkind :
    match defaulters r !! pointeeKind (reflect.Typ f) with
    | Some ds =>
        if negb canSet
        then if ignoreCannotSet r then (Nil, x)
             else (Fails (defaultzError
                            (NewError None ErrCannotSetField path f
                               "cannot set field")), x)
        else
          match runChain ds defaultStr path f x [] false with
          | ChainPanicked fieldValue' => (Panics, fieldValue')
          | ChainDone result somethingSet fieldValue' =>
              (chainOutcome result somethingSet, fieldValue')
          end
    | None =>
        (Fails (defaultzError
                  (NewError None ErrNotSupported path f
                     (String.concat ""
                        ["no defaulters found for kind '";
                         Kind_String (pointeeKind (reflect.Typ f)); "'"]))), x)
    end = (o, x') ->
    FieldPath e = path ∧ Field e = f).
  { intros E.
    destruct (defaulters r !! pointeeKind (reflect.Typ f)) as [ds|] eqn:Eds;
      [|eapply Hone; exact E].
    destruct (negb canSet).
    { destruct (ignoreCannotSet r); [eapply Hnil|eapply Hone]; exact E. }
    destruct (runChain ds defaultStr path f x [] false)
      as [result somethingSet y|y] eqn:Ec.
    - inversion E; subst. apply chainOutcome_errors in He.
      eapply (runChain_reports ds defaultStr path f); [|..|exact Ec|exact He].
      + intros d Hd. eapply Hr; [exact Eds|exact Hd].
      + intros e1 He1. by apply elem_of_nil in He1.
    - inversion E; subst. by apply elem_of_nil in He. }
  destruct (reflect.Typ f) as [b|e0|m e0|k e0|e0|id]; try (apply Hkind; exact H).
  destruct e0; try (apply Hkind; exact H). eapply Hone; exact H.
Qed.

Lemma applyFields_outcome_in (P : outcome -> Prop)
    (step : reflect.StructField -> Value -> option (outcome * Value))
    (fs : list reflect.StructField) :
  P Nil ->
  (∀ f x o x', f ∈ fs -> step f x = Some (o, x') -> P o) ->
  ∀ vs o vs', applyFields step fs vs = Some (o, vs') -> P o.
Proof.
  intros HNil. induction fs as [|f fs IH]; intros Hstep vs o vs' H.
  - destruct vs; simpl in H; inversion H; subst; exact HNil.
  - destruct vs as [|x vs]; [inversion H; subst; exact HNil|]. simpl in H.
    destruct (step f x) as [[o1 x1]|] eqn:E; [|discriminate].
    pose proof (Hstep f x o1 x1 ltac:(left) E) as Ho1.
    destruct o1; try solve [inversion H; subst; exact Ho1].
    destruct (applyFields step fs vs) as [[o2 vs2]|] eqn:E2; [|discriminate].
    inversion H; subst. eapply IH; [|exact E2].
    intros f' x' o' x'' Hf'. apply Hstep. right. exact Hf'.
Qed.

Lemma onPath_pointer (env : decls) (id : string) (fs : list reflect.StructField)
    (f : reflect.StructField) :
  onPath env (reflect.StructOf id) fs f ->
  onPath env (reflect.PointerTo (reflect.StructOf id)) fs f.
Proof. destruct fs; intros H; exact H. Qed.

Lemma applyField_reports (r : defaulterRegistry) (env : decls)
    (extract : DefaultExtractor)
    (rec : bool -> reflect.rtype -> Value -> string -> option (outcome * Value))
    (zero : reflect.rtype -> option Value) (ro : bool) (path : string) :
  (∀ k ds d, defaulters r !! k = Some ds -> d ∈ ds -> reportsField (defaulter d)) ->
  (∀ ro t v path o v',
     rec ro t v path = Some (o, v') ->
     ∀ e, defaultzError e ∈ errorsOf o ->
          ∃ fs, onPath env t fs (Field e)
                ∧ FieldPath e = foldl addFieldToPath path fs) ->
  ∀ f x o x',
    applyField r extract rec zero ro path f x = Some (o, x') ->
    ∀ e, defaultzError e ∈ errorsOf o ->
         (FieldPath e = path ∧ Field e = f)
         ∨ (∃ fs, onPath env (reflect.Typ f) fs (Field e)
                  ∧ FieldPath e = foldl addFieldToPath (addFieldToPath path f) fs).
Proof.
  intros Hr Hrec f x o x' H e He. unfold applyField in H.
  assert (Hleaf : ∀ canSet,
            Some (applyLeaf r extract canSet path f x) = Some (o, x') ->
            FieldPath e = path ∧ Field e = f).
  { intros canSet E. inversion E as [E'].
    eapply applyLeaf_reports; [exact Hr|exact E'|exact He]. }
  assert (Hpanic : ∀ y, Some (Panics, y) = Some (o, x') -> False).
  { intros y E. inversion E; subst. by apply elem_of_nil in He. }
  destruct (reflect.Typ f) as [b|e0|m e0|k e0|e0|id] eqn:Et;
    try (left; eapply Hleaf; exact H).
  - destruct e0 as [b|e0|m e0|k e0|e0|id]; try (left; eapply Hleaf; exact H).
    right.
    destruct x as [| | | | | | | |[y|]| |];
      try solve [exfalso; eapply Hpanic; exact H].
    + destruct (rec _ _ y _) as [[o1 y1]|] eqn:E; [|discriminate].
      inversion H; subst.
      destruct (Hrec _ _ _ _ _ _ E e He) as (fs & Hp & Hf).
      exists fs. split; [apply onPath_pointer; exact Hp|exact Hf].
    + destruct (negb (ro || negb (reflect.IsExported f)));
        [|exfalso; eapply Hpanic; exact H].
      destruct (zero (reflect.StructOf id)) as [z|]; [|discriminate].
      destruct (rec _ _ z _) as [[o1 y1]|] eqn:E; [|discriminate].
      inversion H; subst.
      destruct (Hrec _ _ _ _ _ _ E e He) as (fs & Hp & Hf).
      exists fs. split; [apply onPath_pointer; exact Hp|exact Hf].
  - right. destruct (Hrec _ _ _ _ _ _ H e He) as (fs & Hp & Hf).
    exists fs. split; [exact Hp|exact Hf].
Qed.

Lemma DoApplyDefaults_reports (r : defaulterRegistry) (env : decls) (fuel : nat) :
  (∀ k ds d, defaulters r !! k = Some ds -> d ∈ ds -> reportsField (defaulter d)) ->
  ∀ ro t v path o v',
    DoApplyDefaults r env fuel ro t v path = Some (o, v') ->
    ∀ e, defaultzError e ∈ errorsOf o ->
         ∃ fs, onPath env t fs (Field e)
               ∧ FieldPath e = foldl addFieldToPath path fs.
Proof.
  intros Hr.
  induction fuel as [|fuel IH]; intros ro t v path o v' H e He; [discriminate|].
  simpl in H.
  assert (Hnone : ∀ s y, Some (Fails (errorString s), y) = Some (o, v') -> False).
  { intros s y E. inversion E; subst. simpl in He.
    apply list_elem_of_singleton in He. discriminate He. }
  assert (Hnil : ∀ y, Some (Nil, y) = Some (o, v') -> False).
  { intros y E. inversion E; subst. by apply elem_of_nil in He. }
  destruct (extractor r) as [extract|]; [|exfalso; eapply Hnone; exact H].
  destruct (decide (size (defaulters r) = 0%nat)) as [Hsz|Hsz];
    [exfalso; eapply Hnone; exact H|].
  assert (Hwalk : ∀ id vs o vs',
            applyFields (applyField r extract (DoApplyDefaults r env fuel)
                           (Zero env (S (size (declared env)))) ro path)
              (fields_of env id) vs
            = Some (o, vs') ->
            defaultzError e ∈ errorsOf o ->
            ∃ fs, onPath env (reflect.StructOf id) fs (Field e)
                  ∧ FieldPath e = foldl addFieldToPath path fs).
  { intros id vs o1 vs1.
    apply (applyFields_outcome_in
             (fun o => defaultzError e ∈ errorsOf o ->
                       ∃ fs, onPath env (reflect.StructOf id) fs (Field e)
                             ∧ FieldPath e = foldl addFieldToPath path fs)).
    - intros E. by apply elem_of_nil in E.
    - intros f x o2 x2 Hf E He2.
      destruct (applyField_reports r env extract _ _ ro path Hr IH f x o2 x2 E e He2)
        as [[Hp Hfe]|(fs & Hp & Hfe)].
      + exists []. split; [simpl; rewrite Hfe; exact Hf|exact Hp].
      + exists (f :: fs). split; [simpl; split; [exact Hf|exact Hp]|exact Hfe]. }
  destruct t as [b|e0|m e0|k e0|e0|id]; try solve [exfalso; eapply Hnil; exact H].
  - destruct e0 as [b|e0|m e0|k e0|e0|id];
      try solve [exfalso; eapply Hnil; exact H].
    destruct v as [| | | | | | | |[y|]| |];
      try solve [exfalso; eapply Hnil; exact H].
    destruct y; try solve [exfalso; eapply Hnil; exact H].
    destruct (applyFields _ _ _) as [[o1 vs1]|] eqn:E; [|discriminate].
    inversion H; subst.
    destruct (Hwalk _ _ _ _ E He) as (fs & Hp & Hfe).
    exists fs. split; [apply onPath_pointer; exact Hp|exact Hfe].
  - destruct v; try solve [exfalso; eapply Hnil; exact H].
    destruct (applyFields _ _ _) as [[o1 vs1]|] eqn:E; [|discriminate].
    inversion H; subst. eapply Hwalk; [exact E|exact He].
Qed.

Lemma bundled_reportsField (lib : library) (k : reflect.Kind)
    (ds : list DefaulterWithPriority) (d : DefaulterWithPriority) :
  bundled lib k = Some ds -> d ∈ ds -> reportsField (defaulter d).
Proof.
  intros Hds Hd value path field fv callNext set e fv' E.
  destruct k; simpl in Hds; try discriminate Hds;
    inversion Hds; subst ds; bundled_member Hd;
    simpl in E; repeat case_match; simplify_eq; split; reflexivity.
Qed.

Lemma instance_reportsField (lib : library) :
  ∀ k ds d, defaulters (instance lib) !! k = Some ds -> d ∈ ds ->
            reportsField (defaulter d).
Proof.
  intros k ds d Hds. rewrite instance_lookup in Hds.
  eapply bundled_reportsField. exact Hds.
Qed.

(** X14. Every [*Error] that [ApplyDefaults] returns, alone or wrapped,
    of its own or of a defaulter that reports the path and the field it
    is given (the bundled ones do), names a field that the type of the
    record reaches: its [Field] is a field of a struct to which a chain
    of nested fields leads from the root, its [FieldPath] is the root
    path followed by the names of these fields, and the path that
    [Error()] prints ends with the name of the field itself. *)
Theorem errors_name_the_field (r : defaulterRegistry) (env : decls)
    (t : reflect.rtype) (v : Value) (e : Error) :
  (∀ k ds d, defaulters r !! k = Some ds -> d ∈ ds -> reportsField (defaulter d)) ->
  defaultzError e ∈ errorsOf (fst (ApplyDefaults r env t v)) ->
  ∃ id fs,
    t = reflect.PointerTo (reflect.StructOf id)
    ∧ onPath env (reflect.StructOf id) fs (Field e)
    ∧ FieldPath e = foldl addFieldToPath (rootPath env id) fs
    ∧ Error_path e = foldl addFieldToPath (rootPath env id) (fs ++ [Field e]).
Proof.
  intros Hr He. unfold ApplyDefaults in He.
  assert (Hstr : ∀ s, defaultzError e ∈ [errorString s] -> False).
  { intros s E. apply list_elem_of_singleton in E. discriminate E. }
  destruct t as [b|e0|m e0|k e0|e0|id]; try solve [exfalso; eapply Hstr; exact He].
  destruct e0 as [b|e0|m e0|k e0|e0|id]; try solve [exfalso; eapply Hstr; exact He].
  destruct v as [| | | | | | | |[target|]| |];
    try solve [exfalso; eapply Hstr; exact He].
  destruct (typeHasCycles env (reflect.StructOf id));
    [exfalso; eapply Hstr; exact He|].
  destruct (DoApplyDefaults _ _ _ _ _ _ _) as [[o target']|] eqn:E;
    [|by apply elem_of_nil in He].
  simpl in He.
  destruct (DoApplyDefaults_reports r env _ Hr _ _ _ _ _ _ E e He) as (fs & Hp & Hf).
  exists id, fs. repeat split; [exact Hp|exact Hf|].
  rewrite foldl_app. simpl. rewrite <- Hf. reflexivity.
Qed.

Lemma errors_name_the_field_witness :
  ∃ id fs,
    reflect.PointerTo (reflect.StructOf "main.Server")
    = reflect.PointerTo (reflect.StructOf id)
    ∧ onPath env_server (reflect.StructOf id) fs
        (exported "Burst" (reflect.Basic reflect.t_uint8) [("default", "300")])
    ∧ "main.(Server).Limits" = foldl addFieldToPath (rootPath env_server id) fs
    ∧ "main.(Server).Limits.Burst"
      = foldl addFieldToPath (rootPath env_server id)
          (fs ++ [exported "Burst" (reflect.Basic reflect.t_uint8)
                    [("default", "300")]]).
Proof.
  apply (errors_name_the_field (instance lib_none) env_server
           (reflect.PointerTo (reflect.StructOf "main.Server"))
           (VPtr (Some (VStruct [VString ""; VPtr None])))
           (NewError (Some "defaultz.UintDefaulter") ErrInvalidDefaultValue
              "main.(Server).Limits"
              (exported "Burst" (reflect.Basic reflect.t_uint8) [("default", "300")])
              (NumError_Error lib_none "ParseUint" "300" strconv.ErrRange))).
  - apply instance_reportsField.
  - vm_compute. left.
Defined.

(** ** The kinds that the package supports *)

(** X15. The registry of the package has defaulters for the kinds of the
    primitive types ([bool], the integers, the floats, [string]), for
    slices and for maps, through a pointer or not, and for no other
    kind.  A zero field with a default that is neither a struct nor a
    pointer to one and whose kind is another one (an array, a channel, a
    function, an interface, a complex number, a [uintptr], an unsafe
    pointer) ends the call with [ErrNotSupported], whether the field can
    be set or not; a field of a supported kind never gives that error. *)
Theorem package_supported_kinds (lib : library)
    (rec : bool -> reflect.rtype -> Value -> string -> option (outcome * Value))
    (zero : reflect.rtype -> option Value) (ro : bool) (path : string)
    (field : reflect.StructField) (fieldValue : Value) (defaultStr : string) :
  isNested (reflect.Typ field) = false ->
  IsZero fieldValue = true ->
  ExtractDefault extractorInstance field = (defaultStr, true, None) ->
  (∀ e, reflect.Typ field <> reflect.PointerTo (reflect.PointerTo e)) ->
  let k := pointeeKind (reflect.Typ field) in
  let supported :=
    [reflect.Bool; reflect.Int; reflect.Int8; reflect.Int16; reflect.Int32;
     reflect.Int64; reflect.Uint; reflect.Uint8; reflect.Uint16; reflect.Uint32;
     reflect.Uint64; reflect.Float32; reflect.Float64; reflect.String;
     reflect.Slice; reflect.Map] in
  (k ∈ supported ->
   ∀ e fieldValue',
     applyField (instance lib) extractorInstance rec zero ro path field fieldValue
     = Some (Fails (defaultzError e), fieldValue') ->
     Err e <> ErrNotSupported)
  ∧ (k ∉ supported ->
     applyField (instance lib) extractorInstance rec zero ro path field fieldValue
     = Some (Fails (defaultzError
                      (NewError None ErrNotSupported path field
                         (String.concat ""
                            ["no defaulters found for kind '"; Kind_String k; "'"]))),
             fieldValue)).
Proof.
  intros Hn Hz He Hpp k supported.
  assert (Hleaf : applyField (instance lib) extractorInstance rec zero ro path
                    field fieldValue
                  = Some (applyLeaf (instance lib) extractorInstance
                            (negb (ro || negb (reflect.IsExported field)))
                            path field fieldValue)).
  { unfold applyField.
    destruct (reflect.Typ field) as [b|e0|m e0|k0 e0|e0|id]; try reflexivity;
      [|discriminate Hn].
    destruct e0; try reflexivity. discriminate Hn. }
  rewrite Hleaf.
  rewrite (applyLeaf_found (instance lib) extractorInstance _ path field
             fieldValue defaultStr Hz He Hpp).
  fold k. rewrite instance_lookup. subst supported. split.
  - intros Hk e y H. inversion H as [H']. clear H.
    assert (Hsome : ∃ ds, bundled lib k = Some ds).
    { repeat (apply elem_of_cons in Hk as [->|Hk]); try (simpl; by eexists).
      by apply elem_of_nil in Hk. }
    destruct Hsome as [ds Hds]. rewrite Hds in H'.
    destruct (negb (negb (ro || negb (reflect.IsExported field)))).
    { inversion H'; subst. simpl. discriminate. }
    destruct (runChain ds defaultStr path field fieldValue [] false)
      as [result somethingSet y'|y']; [|discriminate H'].
    unfold chainOutcome in H'.
    destruct (negb somethingSet); [|discriminate H'].
    destruct result as [|e1 [|e2 result]]; discriminate H'.
  - intros Hk.
    destruct k; try reflexivity; exfalso; apply Hk; set_solver.
Qed.

Lemma package_supported_kinds_witness :
  applyField (instance lib_none) extractorInstance
    (DoApplyDefaults (instance lib_none) ∅ 0) (Zero ∅ 1) false "<root>"
    (exported "Pair" (reflect.ArrayOf 2 (reflect.Basic reflect.t_int))
       [("default", "1 2")])
    (VArray [VInt 0; VInt 0])
  = Some (Fails (defaultzError
                   (NewError None ErrNotSupported "<root>"
                      (exported "Pair" (reflect.ArrayOf 2 (reflect.Basic reflect.t_int))
                         [("default", "1 2")])
                      "no defaulters found for kind 'array'")),
          VArray [VInt 0; VInt 0]).
Proof.
  apply (proj2 (package_supported_kinds lib_none
                  (DoApplyDefaults (instance lib_none) ∅ 0) (Zero ∅ 1) false "<root>"
                  (exported "Pair" (reflect.ArrayOf 2 (reflect.Basic reflect.t_int))
                     [("default", "1 2")])
                  (VArray [VInt 0; VInt 0]) "1 2" eq_refl eq_refl eq_refl
                  ltac:(intros e; discriminate))).
  simpl. set_solver.
Defined.

(** ** White space and runes that are not ASCII *)

(** The white space that the extractor trims is the white space of
    Unicode: a token between two no-break spaces (U+00A0) is found
    without them. *)
Example ExtractDefault_no_break_space :
  let nbsp := String "194"%char (String "160"%char "") in
  let tag := String.concat "" [nbsp; "x"; nbsp; ",y"] in
  ExtractDefault extractorInstance
    (exported "Padded" (reflect.Basic reflect.t_string) [("default", tag)])
  = ("x", true, None).
Proof. vm_compute. reflexivity. Qed.

(** The empty separator cuts between runes, not between bytes. *)
Example Split_runes :
  let e_acute := String "195"%char (String "169"%char "") in
  strings.Split (String.append e_acute ",x") "" = [e_acute; ","; "x"].
Proof. vm_compute. reflexivity. Qed.

(** An ideographic space (U+3000) separates the items of a slice. *)
Example Fields_ideographic_space :
  let space := String "227"%char (String "128"%char (String "128"%char "")) in
  strings.Fields (String.concat "" ["1"; space; "2"]) = ["1"; "2"].
Proof. vm_compute. reflexivity. Qed.

(** A field that holds the negative zero is a zero field: it gets its
    default. *)
Example negative_zero_is_zero :
  applyLeaf registry_sign extractorInstance true "<root>"
    (exported "Level" (reflect.Basic reflect.t_float64) [("default", "5")])
    (VFloat 0x8000000000000000)
  = (Nil, VFloat 0x4014000000000000).
Proof. vm_compute. reflexivity. Qed.
